(** * notion-to-static-website: the Notion client cache and the block renderer

    A shallow embedding of [src/lib/notion.ts] (the caching Notion client) and
    of [src/components/NotionBlock.tsx] (the React block renderer), with the
    properties the specification states about them.

    Conventions of the embedding.
    - JavaScript strings are [string]s (byte sequences, UTF-8 for the
      non-ASCII literals of the source).  [toLowerCase] folds the ASCII
      letters and [trim] strips the ASCII white space.
    - [Date.now()] and the cache's instants are integers ([Z], milliseconds);
      the refresh threshold is a rational ([Q]), so [ttl * refreshThreshold]
      is computed exactly.
    - A function that can throw returns an [Outcome]; asynchronous functions
      of the client are state transformers over a [World] (the module-level
      cache, [process.env], the remote service and a log of the remote calls
      and of the detached background refreshes).
    - An [await] runs the awaited function to its end before the caller goes
      on.  A promise that is not awaited (the background refresh of the
      cache) is recorded when it is started and settles in a later state,
      as a step of its own.
    - The calls of [log] are left out: they write to the console in
      development and change no result. *)

From Stdlib Require Import ZArith QArith String Ascii List Bool Lia DecimalString.
From Stdlib Require DecimalNat.
From stdpp Require Import base option list gmap strings.

#[local] Set Warnings "-register-all".

Local Open Scope Z_scope.
Local Open Scope string_scope.
Local Open Scope list_scope.

(** ** JavaScript values and strings *)

(** The name and the message of a thrown [Error] object. *)
Record JsError : Type := mkError { name : string; message : string }.

Definition TypeError (msg : string) : JsError := mkError "TypeError" msg.
Definition RangeError (msg : string) : JsError := mkError "RangeError" msg.
Definition Error (msg : string) : JsError := mkError "Error" msg.

(** The result of evaluating code that may throw. *)
Inductive Outcome (A : Type) : Type :=
| Ok (a : A)
| Throw (e : JsError).
Arguments Ok {A} a.
Arguments Throw {A} e.

(** Sequencing: an exception skips the rest.  With the instance, stdpp's
    [x ← c; k] reads as a statement followed by the rest of the body. *)
#[global] Instance outcome_bind : MBind Outcome := fun A B k o =>
  match o with
  | Ok a => k a
  | Throw e => Throw e
  end.

(** [Array.prototype.map] with a callback that may throw: the first exception
    aborts the traversal.  The callback receives the element and its index. *)
Fixpoint mapi_outcome {A B : Type} (f : A -> nat -> Outcome B) (index : nat) (l : list A)
  : Outcome (list B) :=
  match l with
  | [] => Ok []
  | x :: rest =>
      y ← f x index;
      ys ← mapi_outcome f (S index) rest;
      Ok (y :: ys)
  end.

(** A dynamically typed field, for objects whose fields may be missing or of
    the wrong type. *)
Inductive JsVal : Type :=
| JsUndefined
| JsNull
| JsBool (b : bool)
| JsNum (n : Z)
| JsStr (s : string).

Definition is_empty (s : string) : bool :=
  match s with
  | EmptyString => true
  | String _ _ => false
  end.

(** The truth value JavaScript gives a value in a condition. *)
Definition truthy (v : JsVal) : bool :=
  match v with
  | JsUndefined | JsNull => false
  | JsBool b => b
  | JsNum n => negb (n =? 0)%Z
  | JsStr s => negb (is_empty s)
  end.

(** Truth value of a [string | null | undefined]. *)
Definition truthy_str (o : option string) : bool :=
  match o with
  | Some s => negb (is_empty s)
  | None => false
  end.

(** [a || b] where [a] is a string that may be absent: the empty string is
    falsy, like [undefined] and [null]. *)
Definition or_str (o : option string) (b : string) : string :=
  match o with
  | Some s => if is_empty s then b else s
  | None => b
  end.

(** [a || b] where both may be absent. *)
Definition or_opt (o : option string) (b : option string) : option string :=
  match o with
  | Some s => if is_empty s then b else Some s
  | None => b
  end.

(** [s.includes(search)]. *)
Fixpoint includes (s search : string) : bool :=
  if String.prefix search s then true
  else match s with
       | EmptyString => false
       | String _ rest => includes rest search
       end.

Fixpoint drop_chars (n : nat) (s : string) : string :=
  match n, s with
  | O, _ => s
  | S n', String _ rest => drop_chars n' rest
  | S _, EmptyString => EmptyString
  end.

(** [s.replace(search, by)] with a string pattern: the first occurrence only. *)
Fixpoint replace (s search by_ : string) : string :=
  if String.prefix search s then by_ +:+ drop_chars (String.length search) s
  else match s with
       | EmptyString => EmptyString
       | String c rest => String c (replace rest search by_)
       end.

(** [parts.join(sep)]. *)
Fixpoint join (sep : string) (parts : list string) : string :=
  match parts with
  | [] => EmptyString
  | [p] => p
  | p :: rest => p +:+ sep +:+ join sep rest
  end.

Definition lower_ascii (c : ascii) : ascii :=
  let n := nat_of_ascii c in
  if (Nat.leb 65 n && Nat.leb n 90)%bool then ascii_of_nat (n + 32) else c.

(** [s.toLowerCase()], on the ASCII letters. *)
Fixpoint toLowerCase (s : string) : string :=
  match s with
  | EmptyString => EmptyString
  | String c rest => String (lower_ascii c) (toLowerCase rest)
  end.

Definition is_space (c : ascii) : bool :=
  let n := nat_of_ascii c in
  (Nat.eqb n 32 || (Nat.leb 9 n && Nat.leb n 13))%bool.

Fixpoint trim_start (s : string) : string :=
  match s with
  | EmptyString => EmptyString
  | String c rest => if is_space c then trim_start rest else s
  end.

(** Drops the trailing white space: a character is kept when it is not a
    space or when something is kept after it. *)
Fixpoint trim_end (s : string) : string :=
  match s with
  | EmptyString => EmptyString
  | String c rest =>
      let rest' := trim_end rest in
      if (is_space c && is_empty rest')%bool then EmptyString else String c rest'
  end.

(** [s.trim()]. *)
Definition trim (s : string) : string := trim_end (trim_start s).

(** [s.split(',')]: the pieces between the separators; never empty. *)
Fixpoint split_on (sep : ascii) (s : string) : list string :=
  match s with
  | EmptyString => [EmptyString]
  | String c rest =>
      if Ascii.eqb c sep then EmptyString :: split_on sep rest
      else match split_on sep rest with
           | [] => [String c EmptyString]
           | p :: ps => String c p :: ps
           end
  end.

(** The decimal numeral of an index, as a template literal prints it. *)
Definition string_of_nat (n : nat) : string :=
  NilEmpty.string_of_uint (Nat.to_uint n).

(** ** Data model of the renderer ([src/types/notion.ts]) *)

(** [RichTextItem['annotations']]: each field is read dynamically, so a field
    may be missing ([JsUndefined]) or hold a value of another type. *)
Record Annotations : Type := mkAnnotations {
  bold : JsVal;
  italic : JsVal;
  strikethrough : JsVal;
  underline : JsVal;
  code : JsVal;
  color : JsVal
}.

(** [RichTextItem].  [annotations = None] is a span whose [annotations] is
    [undefined] or [null]; [href = None] is [href: null]. *)
Record RichTextItem : Type := mkRichTextItem {
  type_ : string;
  annotations : option Annotations;
  plain_text : string;
  href : option string
}.

(** [NotionBlockWithChildren], with the fields the embedded functions read:
    [rich_text] stands for the rich text of the block's own payload
    ([block[block.type].rich_text]). *)
Inductive Block : Type := mkBlock {
  id : string;
  block_type : string;
  has_children : option bool;
  children : option (list Block);
  rich_text : list RichTextItem
}.

(** React elements, as far as the renderer builds them.  An element has a
    tag, a key, its other props and its children; [RNotionBlock] is the
    element [<NotionBlock key=.. block=.. />], which React expands later. *)
Inductive ReactNode : Type :=
| RText (s : string)
| RFragment (children : list ReactNode)
| RElem (tag : string) (key : option string) (props : list (string * string))
    (children : list ReactNode)
| RNotionBlock (key : string) (block : Block).

(** ** [getStyleClasses] and [RichText] *)

Definition is_default (v : JsVal) : bool :=
  match v with
  | JsStr s => String.eqb s "default"
  | _ => false
  end.

Definition getStyleClasses (annotations : Annotations) (type : string) : Outcome string :=
  classes ←
    (if (truthy (color annotations) && negb (is_default (color annotations)))%bool then
       match color annotations with
       | JsStr c =>
           if includes c "_background" then
             let bgColor := replace c "_background" EmptyString in
             Ok ["bg-" +:+ bgColor +:+ "-100 text-" +:+ bgColor +:+ "-800 px-1 rounded"]
           else Ok ["text-" +:+ c +:+ "-500"]
       | _ => Throw (TypeError "annotations.color.includes is not a function")
       end
     else Ok []);
  let classes :=
    if String.eqb type "code" then classes ++ ["bg-gray-100 p-1 rounded font-mono text-sm"]
    else classes in
  Ok (join " " classes).

(** The callback of [richText.map] in [RichText]: one span and its index. *)
Definition RichText_item (text : RichTextItem) (index : nat) : Outcome ReactNode :=
  match annotations text with
  | None =>
      Throw (TypeError "Cannot destructure property 'bold' of 'annotations' as it is undefined.")
  | Some a =>
      let i := string_of_nat index in
      styleClass ← getStyleClasses a (type_ text);
      let content := RFragment [RText (plain_text text)] in
      let content :=
        if truthy (code a) then
          RElem "code" (Some ("code-" +:+ i))
            [("className", "font-mono text-sm bg-gray-100 p-1 rounded")] [content]
        else content in
      let content :=
        if truthy (bold a) then RElem "strong" (Some ("bold-" +:+ i)) [] [content]
        else content in
      let content :=
        if truthy (italic a) then RElem "em" (Some ("italic-" +:+ i)) [] [content]
        else content in
      let content :=
        if truthy (strikethrough a) then RElem "del" (Some ("del-" +:+ i)) [] [content]
        else content in
      let content :=
        if truthy (underline a) then RElem "u" (Some ("underline-" +:+ i)) [] [content]
        else content in
      match href text with
      | Some url =>
          if negb (is_empty url) then
            Ok (RElem "a" (Some i)
                  [("href", url);
                   ("className", "text-blue-500 hover:underline " +:+ styleClass);
                   ("target", "_blank");
                   ("rel", "noopener noreferrer")]
                  [content])
          else
            Ok (RElem "span" (Some i)
                  (if is_empty styleClass then [] else [("className", styleClass)])
                  [content])
      | None =>
          Ok (RElem "span" (Some i)
                (if is_empty styleClass then [] else [("className", styleClass)])
                [content])
      end
  end.

(** [RichText]: [None] as input is an absent [richText] prop, [None] as
    result is [null]. *)
Definition RichText (richText : option (list RichTextItem)) : Outcome (option ReactNode) :=
  match richText with
  | None | Some [] => Ok None
  | Some spans =>
      nodes ← mapi_outcome RichText_item 0 spans;
      Ok (Some (RFragment nodes))
  end.

(** ** [groupBlocks] *)

Inductive ListType : Type := ul | ol.

Definition ListType_eqb (a b : ListType) : bool :=
  match a, b with
  | ul, ul | ol, ol => true
  | _, _ => false
  end.

(** The three variables the [forEach] callback of [groupBlocks] updates. *)
Record GroupState : Type := mkGroupState {
  groupedBlocks : list ReactNode;
  currentListItems : list ReactNode;
  currentListType : option ListType
}.

(** [const ListTag = currentListType === 'ul' ? 'ul' : 'ol'] *)
Definition ListTag (currentListType : option ListType) : string :=
  match currentListType with
  | Some ul => "ul"
  | _ => "ol"
  end.

Definition list_element (t : option ListType) (key : string) (items : list ReactNode)
  : ReactNode :=
  RElem (ListTag t) (Some key) [("className", "my-4")] items.

Definition is_list_item (block : Block) : bool :=
  (String.eqb (block_type block) "bulleted_list_item"
   || String.eqb (block_type block) "numbered_list_item")%bool.

Definition same_list_type (a : option ListType) (b : ListType) : bool :=
  match a with
  | Some t => ListType_eqb t b
  | None => false
  end.

(** The body of the [forEach] callback. *)
Definition groupStep (st : GroupState) (block : Block) (index : nat) : GroupState :=
  if is_list_item block then
    let newListType :=
      if String.eqb (block_type block) "bulleted_list_item" then ul else ol in
    let st :=
      if negb (same_list_type (currentListType st) newListType) then
        let st :=
          match currentListItems st with
          | [] => st
          | _ :: _ =>
              mkGroupState
                (groupedBlocks st ++
                   [list_element (currentListType st) ("list-" +:+ string_of_nat index)
                      (currentListItems st)])
                [] (currentListType st)
          end in
        mkGroupState (groupedBlocks st) (currentListItems st) (Some newListType)
      else st in
    mkGroupState (groupedBlocks st)
      (currentListItems st ++ [RNotionBlock (id block) block])
      (currentListType st)
  else
    let st :=
      match currentListItems st with
      | [] => st
      | _ :: _ =>
          mkGroupState
            (groupedBlocks st ++
               [list_element (currentListType st) ("list-" +:+ string_of_nat index)
                  (currentListItems st)])
            [] None
      end in
    mkGroupState (groupedBlocks st ++ [RNotionBlock (id block) block])
      (currentListItems st) (currentListType st).

(** [blocks.forEach((block, index) => ...)] from a given index. *)
Fixpoint forEach_group (blocks : list Block) (index : nat) (st : GroupState) : GroupState :=
  match blocks with
  | [] => st
  | block :: rest => forEach_group rest (S index) (groupStep st block index)
  end.

(** [groupBlocks].  A [blocks] that is [null] or [undefined] takes the branch
    of the empty array. *)
Definition groupBlocks (blocks : list Block) : list ReactNode :=
  match blocks with
  | [] =>
      [RElem "p" (Some "empty") [("className", "text-gray-500 italic")]
         [RText "コンテンツがありません"]]
  | _ :: _ =>
      let st := forEach_group blocks 0 (mkGroupState [] [] None) in
      match currentListItems st with
      | [] => groupedBlocks st
      | _ :: _ =>
          groupedBlocks st ++
            [list_element (currentListType st) "list-last" (currentListItems st)]
      end
  end.

(** ** Data model of the client ([src/types/notion.ts]) *)

Record Tag : Type := mkTag { tag_name : string; tag_color : string }.

Record Thumbnail : Type := mkThumbnail { thumb_type : string; thumb_url : string }.

Record Author : Type := mkAuthor {
  author_name : option string;
  author_avatar_url : option string
}.

(** [FormattedPage]. *)
Record FormattedPage : Type := mkFormattedPage {
  page_id : string;
  title : string;
  summary : string;
  slug : string;
  author : option Author;
  keywords : list string;
  category : option string;
  tags : list Tag;
  blocks : list Block;
  thumbnail : option Thumbnail;
  date : string;
  updatedAt : string;
  status : option string
}.

(** One entry of a files property: [{ type?, file?: {url}, external?: {url} }]. *)
Record FileEntry : Type := mkFileEntry {
  file_type : option string;
  file_url : option string;
  file_external_url : option string
}.

(** [PageResponse.cover]. *)
Record Cover : Type := mkCover {
  cover_type : string;
  cover_external_url : option string;
  cover_file_url : option string
}.

Record Person : Type := mkPerson {
  person_name : option string;
  person_avatar_url : option string
}.

(** [PageData]: every property is optional; a field holds what the optional
    chain of [formatPage] reaches ([prop_date] is [properties.date?.date?.start],
    [prop_category] is [properties.category?.select?.name], and so on). *)
Record PageData : Type := mkPageData {
  prop_title : option (list RichTextItem);
  prop_slug : option (list RichTextItem);
  prop_thumbnail : option (list FileEntry);
  prop_date : option string;
  prop_updatedAt : option string;
  prop_tags : option (list Tag);
  prop_author : option (list Person);
  prop_category : option string;
  prop_status : option string;
  prop_summary : option (list RichTextItem);
  prop_keywords : option (list RichTextItem)
}.

(** [PageResponse]. *)
Record PageResponse : Type := mkPageResponse {
  response_id : string;
  properties : PageData;
  last_edited_time : option string;
  created_time : option string;
  cover : option Cover
}.

(** The response of [notion.blocks.children.list]. *)
Record ListResponse : Type := mkListResponse {
  results : list Block;
  has_more : bool;
  next_cursor : option string
}.

(** The response of [notion.databases.query] ([DatabaseQueryResponse]). *)
Record DatabaseQueryResponse : Type := mkDatabaseQueryResponse {
  query_results : list PageResponse;
  query_has_more : bool;
  query_next_cursor : option string
}.

Inductive QueryFilter : Type :=
| SelectEquals (property value : string)
| RichTextEquals (property value : string)
| MultiSelectContains (property value : string).

Inductive Direction : Type := ascending | descending.

(** The argument of [notion.databases.query]. *)
Record QueryOptions : Type := mkQueryOptions {
  database_id : string;
  query_sorts : list (string * Direction);
  query_filter : option QueryFilter
}.

(** A call of the remote service, as a test's mock records it. *)
Inductive RemoteCall : Type :=
| PagesRetrieve (page_id : string)
| BlocksChildrenList (block_id : string) (start_cursor : option string) (page_size : nat)
| DatabasesQuery (options : QueryOptions).

(** What the cache holds: its values have the type [unknown], and each
    caller casts the value it reads to the type it stores. *)
Inductive Value : Type :=
| VPage (p : PageResponse)
| VBlocks (bs : list Block)
| VFormattedPage (p : FormattedPage)
| VNull
| VPages (ps : list FormattedPage)
| VStrings (l : list string).

(** [CacheItem<unknown>]. *)
Record CacheItem : Type := mkCacheItem {
  data : Value;
  timestamp : Z;
  expiresAt : Z
}.

(** [CacheConfig]. *)
Record CacheConfig : Type := mkCacheConfig {
  ttl : Z;
  refreshThreshold : option Q
}.

Definition DEFAULT_CACHE_CONFIG : CacheConfig :=
  mkCacheConfig (5 * 60 * 1000) (Some (8 # 10)%Q).

(** ** The platform: clock, dates and the Notion service

    [X] is the state of everything outside the module: the clock, the remote
    workspace.  A remote call answers or fails and may change that state. *)
Class Platform (X : Type) : Type := {
  (** [Date.now()] *)
  Date_now : X -> Z;
  (** [new Date().toISOString()] *)
  now_iso : X -> string;
  (** [new Date(s).toISOString()]; [None] when [s] is not a date and
      [toISOString] throws a [RangeError]. *)
  iso_of_date : string -> option string;
  (** [notion.pages.retrieve({ page_id })] *)
  pages_retrieve : string -> X -> Outcome PageResponse * X;
  (** [notion.blocks.children.list({ block_id, start_cursor?, page_size })] *)
  blocks_children_list : string -> option string -> nat -> X -> Outcome ListResponse * X;
  (** [notion.databases.query(options)] *)
  databases_query : QueryOptions -> X -> Outcome DatabaseQueryResponse * X;
  (** The module constant [NOTION_DATABASE_ID], read from [process.env] when
      the module is loaded. *)
  NOTION_DATABASE_ID : option string
}.

(** The state the client runs in. *)
Record World (X : Type) : Type := mkWorld {
  (** the module-level [cache] object, a finite map: its keys are built by
      the module (an operation's prefix and its parameters, or [all-tags],
      [all-categories]) and none is the name of an inherited property *)
  cache : gmap string CacheItem;
  (** [process.env.NOTION_DATABASE_ID], read at each call *)
  env_NOTION_DATABASE_ID : option string;
  (** the state of the platform *)
  ext : X;
  (** the remote calls made so far, oldest first *)
  calls : list RemoteCall;
  (** the keys of the detached background refreshes started so far *)
  refreshes : list string
}.
Arguments mkWorld {X} _ _ _ _ _.
Arguments cache {X} _.
Arguments env_NOTION_DATABASE_ID {X} _.
Arguments ext {X} _.
Arguments calls {X} _.
Arguments refreshes {X} _.

(** The result of running an asynchronous function to completion. *)
Inductive Run (X A : Type) : Type :=
| Done (o : Outcome A) (w : World X)
    (** it settled: resolved with a value or rejected with an error *)
| OutOfFuel
    (** the loop or the recursion did not end within the fuel *)
| IllTyped
    (** a cached value did not have the type its reader casts it to *).
Arguments Done {X A} o w.
Arguments OutOfFuel {X A}.
Arguments IllTyped {X A}.

(** An asynchronous function: a state transformer that may reject. *)
Definition M (X A : Type) : Type := World X -> Run X A.

#[global] Instance M_ret {X} : MRet (M X) := fun A a w => Done (Ok a) w.

#[global] Instance M_bind {X} : MBind (M X) := fun A B k m w =>
  match m w with
  | Done (Ok a) w' => k a w'
  | Done (Throw e) w' => Done (Throw e) w'
  | OutOfFuel => OutOfFuel
  | IllTyped => IllTyped
  end.

(** [throw e] *)
Definition throw {X A} (e : JsError) : M X A := fun w => Done (Throw e) w.

(** [try { body } catch (error) { handler(error) }]: what the body did to the
    state before it threw stays done. *)
Definition try_catch {X A} (body : M X A) (handler : JsError -> M X A) : M X A := fun w =>
  match body w with
  | Done (Throw e) w' => handler e w'
  | r => r
  end.

(** A synchronous computation that may throw, run inside an [async] function. *)
Definition lift_outcome {X A} (o : Outcome A) : M X A := fun w => Done o w.

(** [for (const x of l) ys.push(await f(x))] *)
Fixpoint mapM {X A B} (f : A -> M X B) (l : list A) : M X (list B) :=
  match l with
  | [] => mret []
  | x :: rest =>
      y ← f x;
      ys ← mapM f rest;
      mret (y :: ys)
  end.

(** ** The cache: [getFromCacheOrFetch] and [clearCache] *)

Section Client.
Context {X : Type} `{Platform X}.

Definition set_cache (c : gmap string CacheItem) (w : World X) : World X :=
  mkWorld c (env_NOTION_DATABASE_ID w) (ext w) (calls w) (refreshes w).

(** [cache[key] = item] *)
Definition store (key : string) (item : CacheItem) : M X unit := fun w =>
  Done (Ok tt) (set_cache (<[key := item]> (cache w)) w).

(** [fetchFn().then(..).catch(..)] without [await]: the refresh is started
    and recorded; it settles later, see [background_refresh]. *)
Definition spawn_refresh (key : string) : M X unit := fun w =>
  Done (Ok tt)
    (mkWorld (cache w) (env_NOTION_DATABASE_ID w) (ext w) (calls w) (refreshes w ++ [key])).

Definition get_now : M X Z := fun w => Done (Ok (Date_now (ext w))) w.

Definition Qltb (a b : Q) : bool := negb (Qle_bool b a).

(** [config.refreshThreshold || 0.8]: a threshold that is missing or zero is
    replaced by the default. *)
Definition refresh_fraction (config : CacheConfig) : Q :=
  match refreshThreshold config with
  | Some q => if Qeq_bool q 0 then (8 # 10)%Q else q
  | None => (8 # 10)%Q
  end.

(** [now > cachedItem.timestamp + config.ttl * (config.refreshThreshold || 0.8)] *)
Definition refresh_due (now : Z) (cachedItem : CacheItem) (config : CacheConfig) : bool :=
  Qltb (inject_Z (timestamp cachedItem) + inject_Z (ttl config) * refresh_fraction config)%Q
    (inject_Z now).

(** The [try] block of [getFromCacheOrFetch] and its [catch]: fetch, store
    and return; on an error return the entry read at the start, if any. *)
Definition fetch_fresh (key : string) (fetchFn : M X Value) (config : CacheConfig)
    (now : Z) (cachedItem : option CacheItem) : M X Value :=
  try_catch
    (data ← fetchFn;
     _ ← store key (mkCacheItem data now (now + ttl config));
     mret data)
    (fun error =>
       match cachedItem with
       | Some item => mret (data item)
       | None => throw error
       end).

Definition getFromCacheOrFetch (key : string) (fetchFn : M X Value)
    (config : CacheConfig) : M X Value := fun w =>
  let now := Date_now (ext w) in
  let cachedItem := cache w !! key in
  match cachedItem with
  | Some item =>
      if (now <? expiresAt item)%Z then
        (_ ← (if refresh_due now item config then spawn_refresh key else mret tt);
         mret (data item)) w
      else fetch_fresh key fetchFn config now cachedItem w
  | None => fetch_fresh key fetchFn config now cachedItem w
  end.

(** How a detached refresh started by [getFromCacheOrFetch] settles, in the
    state it then finds: [.then] stores the fresh data with the instants of
    that moment, [.catch] only logs. *)
Definition background_refresh (key : string) (fetchFn : M X Value) (config : CacheConfig)
  : M X unit :=
  try_catch
    (data ← fetchFn;
     now ← get_now;
     store key (mkCacheItem data now (now + ttl config)))
    (fun err => mret tt).

(** [key.startsWith(keyPrefix)] *)
Definition startsWith (key keyPrefix : string) : bool := String.prefix keyPrefix key.

(** [clearCache(keyPrefix?)]: a prefix that is missing or empty clears
    everything. *)
Definition clearCache (keyPrefix : option string) (w : World X) : World X :=
  if truthy_str keyPrefix then
    set_cache
      (filter (fun kv => startsWith (fst kv) (default EmptyString keyPrefix) = false)
         (cache w)) w
  else set_cache ∅ w.

(** ** Page shaping: [formatPage] and [formatPages] *)

(** [rich_text?.[0]?.plain_text] *)
Definition first_plain_text (rich_text : option (list RichTextItem)) : option string :=
  match rich_text with
  | Some (first :: _) => Some (plain_text first)
  | _ => None
  end.

(** [formatPage(page, blocks?)], evaluated when the platform is in state [x]. *)
Definition formatPage (x : X) (page : PageResponse) (blocks : option (list Block))
  : Outcome FormattedPage :=
  let properties := properties page in
  let title := or_str (first_plain_text (prop_title properties)) "無題" in
  let slug := or_str (first_plain_text (prop_slug properties)) (response_id page) in
  let thumbnail :=
    match prop_thumbnail properties with
    | Some (thumb :: _) =>
        Some (mkThumbnail (or_str (file_type thumb) "external")
                (or_str (file_url thumb) (or_str (file_external_url thumb) EmptyString)))
    | _ =>
        match cover page with
        | Some c =>
            Some (mkThumbnail (cover_type c)
                    (if String.eqb (cover_type c) "external"
                     then or_str (cover_external_url c) EmptyString
                     else or_str (cover_file_url c) EmptyString))
        | None => None
        end
    end in
  let dateStr := or_str (prop_date properties) (or_str (created_time page) (now_iso x)) in
  let updatedAtStr :=
    or_str (prop_updatedAt properties) (or_str (last_edited_time page) dateStr) in
  let tags :=
    default [] ((fun l => map (fun tag => mkTag (tag_name tag) (tag_color tag)) l)
                  <$> prop_tags properties) in
  let author :=
    match prop_author properties with
    | Some (personData :: _) =>
        Some (mkAuthor (person_name personData) (person_avatar_url personData))
    | _ => None
    end in
  let category := prop_category properties in
  let status := prop_status properties in
  let summary := or_str (first_plain_text (prop_summary properties)) EmptyString in
  let keywords :=
    match first_plain_text (prop_keywords properties) with
    | Some s => if is_empty s then [] else map trim (split_on "," s)
    | None => []
    end in
  match iso_of_date dateStr, iso_of_date updatedAtStr with
  | Some date, Some updatedAt =>
      Ok (mkFormattedPage (response_id page) title summary slug author keywords category
            tags (default [] blocks) thumbnail date updatedAt status)
  | _, _ => Throw (RangeError "Invalid time value")
  end.

(** [formatPages(pages)]: [pages.map((page) => formatPage(page))]. *)
Definition formatPages (x : X) (pages : list PageResponse) : Outcome (list FormattedPage) :=
  mapi_outcome (fun page _ => formatPage x page None) 0 pages.

(** [formatPage] and [formatPages] called from an [async] function. *)
Definition await_formatPage (page : PageResponse) (blocks : option (list Block))
  : M X FormattedPage := fun w =>
  lift_outcome (formatPage (ext w) page blocks) w.

Definition await_formatPages (pages : list PageResponse) : M X (list FormattedPage) :=
  fun w => lift_outcome (formatPages (ext w) pages) w.

(** ** The remote calls, logged *)

Definition log_call {A} (call : RemoteCall) (run : X -> Outcome A * X) : M X A := fun w =>
  let (o, x') := run (ext w) in
  Done o (mkWorld (cache w) (env_NOTION_DATABASE_ID w) x' (calls w ++ [call]) (refreshes w)).

Definition notion_pages_retrieve (page_id : string) : M X PageResponse :=
  log_call (PagesRetrieve page_id) (pages_retrieve page_id).

Definition notion_blocks_children_list (block_id : string) (start_cursor : option string)
    (page_size : nat) : M X ListResponse :=
  log_call (BlocksChildrenList block_id start_cursor page_size)
    (blocks_children_list block_id start_cursor page_size).

Definition notion_databases_query (options : QueryOptions) : M X DatabaseQueryResponse :=
  log_call (DatabasesQuery options) (databases_query options).

(** ** The casts of the cached values *)

Definition as_page (v : Value) : M X PageResponse :=
  match v with VPage p => mret p | _ => fun _ => IllTyped end.

Definition as_blocks (v : Value) : M X (list Block) :=
  match v with VBlocks bs => mret bs | _ => fun _ => IllTyped end.

Definition as_pages (v : Value) : M X (list FormattedPage) :=
  match v with VPages ps => mret ps | _ => fun _ => IllTyped end.

(** [`${v}`] for a string that may be [undefined]. *)
Definition template_opt (v : option string) : string := default "undefined" v.

Definition string_of_bool (b : bool) : string := if b then "true" else "false".

(** ** [getPage]

    Each operation hands [getFromCacheOrFetch] a key and an arrow function;
    the arrow function is named [fetch...] here. *)

Definition fetchPage (pageId : string) : M X Value :=
  try_catch
    (response ← notion_pages_retrieve pageId;
     mret (VPage response))
    (fun error =>
       let errorMsg := message error in
       let detailedMessage :=
         if includes errorMsg "404" then
           "ページが見つかりません (ID: " +:+ pageId +:+ ")"
         else if (includes errorMsg "401" || includes errorMsg "403")%bool then
           "ページへのアクセス権限がありません (ID: " +:+ pageId
             +:+ "). APIキーが正しく設定されていることを確認してください。"
         else if includes errorMsg "429" then
           "API利用制限に達しました。しばらく待ってから再試行してください。"
         else "ページの取得に失敗しました: " +:+ errorMsg in
       throw (Error detailedMessage)).

Definition getPage (pageId : string) : M X Value :=
  getFromCacheOrFetch ("page:" +:+ pageId) (fetchPage pageId) DEFAULT_CACHE_CONFIG.

(** ** [getBlocks] *)

(** The [while (hasMore)] loop of [getBlocks], entered with [hasMore] true. *)
Fixpoint list_all_children (fuel : nat) (blockId : string) (allBlocks : list Block)
    (cursor : option string) : M X (list Block) :=
  match fuel with
  | O => fun _ => OutOfFuel
  | S fuel' =>
      response ← notion_blocks_children_list blockId
                   (if truthy_str cursor then cursor else None) 100;
      let allBlocks := allBlocks ++ results response in
      let cursor := or_opt (next_cursor response) None in
      if has_more response then list_all_children fuel' blockId allBlocks cursor
      else mret allBlocks
  end.

(** ['has_children' in block && block.has_children] *)
Definition with_children (block : Block) : bool := default false (has_children block).

Definition set_children (block : Block) (bs : list Block) : Block :=
  mkBlock (id block) (block_type block) (has_children block) (Some bs) (rich_text block).

(** [block.children = await getBlocks(block.id)] for each block that has
    children; the blocks are updated in place, so the update shows in
    [allBlocks].  [Promise.all] starts the children together; here they
    run one after the other, in the order of the array. *)
Definition resolve_children (getBlocks : string -> M X Value) (allBlocks : list Block)
  : M X (list Block) :=
  mapM (fun block =>
          if with_children block then
            v ← getBlocks (id block);
            bs ← as_blocks v;
            mret (set_children block bs)
          else mret block)
       allBlocks.

(** The arrow function of [getBlocks]; [getBlocks] is the function itself,
    for the recursive calls. *)
Definition fetchBlockTree (getBlocks : string -> M X Value) (fuel : nat) (blockId : string)
  : M X Value :=
  try_catch
    (allBlocks ← list_all_children fuel blockId [] None;
     let blocksWithChildren := List.filter with_children allBlocks in
     allBlocks ←
       match blocksWithChildren with
       | [] => mret allBlocks
       | _ :: _ => resolve_children getBlocks allBlocks
       end;
     mret (VBlocks allBlocks))
    (fun error =>
       let errorMsg := message error in
       let detailedMessage :=
         if includes errorMsg "404" then
           "ブロックが見つかりません (ID: " +:+ blockId +:+ ")"
         else if (includes errorMsg "401" || includes errorMsg "403")%bool then
           "ブロックへのアクセス権限がありません (ID: " +:+ blockId +:+ ")"
         else if includes errorMsg "429" then
           "API利用制限に達しました。しばらく待ってから再試行してください。"
         else "ブロックの取得に失敗しました: " +:+ errorMsg in
       throw (Error detailedMessage)).

(** [getBlocks(blockId)].  The fuel bounds the number of pages of one list
    and the depth of the block tree. *)
Fixpoint getBlocks (fuel : nat) (blockId : string) : M X Value :=
  match fuel with
  | O => fun _ => OutOfFuel
  | S fuel' =>
      getFromCacheOrFetch ("blocks:" +:+ blockId)
        (fetchBlockTree (getBlocks fuel') fuel' blockId) DEFAULT_CACHE_CONFIG
  end.

(** ** [getFormattedPage] *)

Definition fetchFormattedPage (fuel : nat) (pageId : string) (fetchBlocks : bool)
  : M X Value :=
  try_catch
    (v ← getPage pageId;
     page ← as_page v;
     blocks ← (if fetchBlocks then v ← getBlocks fuel pageId; as_blocks v
               else mret []);
     formatted ← await_formatPage page (Some blocks);
     mret (VFormattedPage formatted))
    (fun error =>
       throw (Error ("ページの整形に失敗しました: " +:+ message error))).

Definition getFormattedPage (fuel : nat) (pageId : string) (fetchBlocks : bool)
  : M X Value :=
  getFromCacheOrFetch
    ("formatted-page:" +:+ pageId +:+ ":" +:+ string_of_bool fetchBlocks)
    (fetchFormattedPage fuel pageId fetchBlocks) DEFAULT_CACHE_CONFIG.

(** ** The database operations *)

Definition configuration_error : JsError :=
  Error "NOTION_DATABASE_IDが設定されていません".

(** [if (!process.env.NOTION_DATABASE_ID) throw new Error(..)], and the
    identifier otherwise. *)
Definition require_database_id : M X string := fun w =>
  match env_NOTION_DATABASE_ID w with
  | Some s => if is_empty s then Done (Throw configuration_error) w else Done (Ok s) w
  | None => Done (Throw configuration_error) w
  end.

Definition date_descending : list (string * Direction) := [("date", descending)].

Definition fetchFormattedDatabase (filterByStatus : bool) (status : string) : M X Value :=
  try_catch
    (database_id ← require_database_id;
     let queryOptions :=
       mkQueryOptions database_id date_descending
         (if filterByStatus then Some (SelectEquals "status" status) else None) in
     response ← notion_databases_query queryOptions;
     pages ← await_formatPages (query_results response);
     mret (VPages pages))
    (fun error =>
       let errorMsg := message error in
       let detailedMessage :=
         if includes errorMsg "404" then
           "データベースが見つかりません (ID: "
             +:+ template_opt NOTION_DATABASE_ID +:+ ")"
         else if (includes errorMsg "401" || includes errorMsg "403")%bool then
           "データベースへのアクセス権限がありません (ID: "
             +:+ template_opt NOTION_DATABASE_ID +:+ ")"
         else "データベースの取得・整形に失敗しました: " +:+ errorMsg in
       throw (Error detailedMessage)).

Definition getFormattedDatabase (filterByStatus : bool) (status : string) : M X Value :=
  _ ← require_database_id;
  getFromCacheOrFetch
    ("formatted-database:" +:+ string_of_bool filterByStatus +:+ ":" +:+ status)
    (fetchFormattedDatabase filterByStatus status) DEFAULT_CACHE_CONFIG.

Definition fetchPageBySlug (fuel : nat) (slug : string) : M X Value :=
  try_catch
    (database_id ← require_database_id;
     response ← notion_databases_query
                  (mkQueryOptions database_id [] (Some (RichTextEquals "slug" slug)));
     match query_results response with
     | [] => mret VNull
     | first :: _ =>
         let pageId := response_id first in
         v ← getBlocks fuel pageId;
         blocks ← as_blocks v;
         v ← getPage pageId;
         page ← as_page v;
         formatted ← await_formatPage page (Some blocks);
         mret (VFormattedPage formatted)
     end)
    (fun error =>
       throw (Error ("スラッグからページの取得に失敗しました: " +:+ message error))).

Definition getPageBySlug (fuel : nat) (slug : string) : M X Value :=
  _ ← require_database_id;
  getFromCacheOrFetch ("page-by-slug:" +:+ slug) (fetchPageBySlug fuel slug)
    DEFAULT_CACHE_CONFIG.

Definition fetchPagesByTag (tag : string) : M X Value :=
  try_catch
    (database_id ← require_database_id;
     response ← notion_databases_query
                  (mkQueryOptions database_id date_descending
                     (Some (MultiSelectContains "tags" tag)));
     pages ← await_formatPages (query_results response);
     mret (VPages pages))
    (fun error =>
       throw (Error ("タグでのフィルタリングに失敗しました: " +:+ message error))).

Definition getPagesByTag (tag : string) : M X Value :=
  _ ← require_database_id;
  getFromCacheOrFetch ("pages-by-tag:" +:+ tag) (fetchPagesByTag tag) DEFAULT_CACHE_CONFIG.

Definition fetchPagesByCategory (category : string) : M X Value :=
  try_catch
    (database_id ← require_database_id;
     response ← notion_databases_query
                  (mkQueryOptions database_id date_descending
                     (Some (SelectEquals "category" category)));
     pages ← await_formatPages (query_results response);
     mret (VPages pages))
    (fun error =>
       throw (Error ("カテゴリでのフィルタリングに失敗しました: " +:+ message error))).

Definition getPagesByCategory (category : string) : M X Value :=
  _ ← require_database_id;
  getFromCacheOrFetch ("pages-by-category:" +:+ category) (fetchPagesByCategory category)
    DEFAULT_CACHE_CONFIG.

(** [new Set(..)] filled in order: the first occurrence of each string. *)
Fixpoint set_of (seen l : list string) : list string :=
  match l with
  | [] => []
  | s :: rest =>
      if existsb (String.eqb s) seen then set_of seen rest
      else s :: set_of (s :: seen) rest
  end.

Fixpoint insert_sorted (s : string) (l : list string) : list string :=
  match l with
  | [] => [s]
  | t :: rest => if String.leb s t then s :: l else t :: insert_sorted s rest
  end.

(** [Array.prototype.sort()] on strings: the order of the code units. *)
Definition sort_strings (l : list string) : list string :=
  fold_right insert_sorted [] l.

Definition fetchAllTags : M X Value :=
  try_catch
    (v ← getFormattedDatabase true "Public";
     pages ← as_pages v;
     let names := concat (map (fun page => map tag_name (tags page)) pages) in
     mret (VStrings (sort_strings (set_of [] names))))
    (fun error =>
       throw (Error ("すべてのタグの取得に失敗しました: " +:+ message error))).

Definition getAllTags : M X Value :=
  getFromCacheOrFetch "all-tags" fetchAllTags DEFAULT_CACHE_CONFIG.

Definition fetchAllCategories : M X Value :=
  try_catch
    (v ← getFormattedDatabase true "Public";
     pages ← as_pages v;
     let names :=
       concat (map (fun page =>
                      match category page with
                      | Some c => if is_empty c then [] else [c]
                      | None => []
                      end) pages) in
     mret (VStrings (sort_strings (set_of [] names))))
    (fun error =>
       throw (Error ("すべてのカテゴリの取得に失敗しました: " +:+ message error))).

Definition getAllCategories : M X Value :=
  getFromCacheOrFetch "all-categories" fetchAllCategories DEFAULT_CACHE_CONFIG.

(** The predicate of [allPages.filter] in [searchPages]. *)
Definition matches_query (lowerQuery : string) (page : FormattedPage) : bool :=
  if includes (toLowerCase (title page)) lowerQuery then true
  else if includes (toLowerCase (summary page)) lowerQuery then true
  else if existsb (fun tag => includes (toLowerCase (tag_name tag)) lowerQuery) (tags page)
  then true
  else
    match category page with
    | Some c => (negb (is_empty c) && includes (toLowerCase c) lowerQuery)%bool
    | None => false
    end.

Definition searchPages (query : string) : M X Value :=
  if is_empty (trim query) then mret (VPages [])
  else
    try_catch
      (v ← getFormattedDatabase false "Public";
       allPages ← as_pages v;
       let lowerQuery := toLowerCase query in
       let results := List.filter (matches_query lowerQuery) allPages in
       mret (VPages results))
      (fun error =>
         throw (Error ("ページの検索に失敗しました: " +:+ message error))).

End Client.

(** ** Observations on render units, for the properties of [groupBlocks] *)

(** The list kind of a block: bulleted items go to [ul], numbered to [ol]. *)
Definition list_kind (block : Block) : option ListType :=
  if String.eqb (block_type block) "bulleted_list_item" then Some ul
  else if String.eqb (block_type block) "numbered_list_item" then Some ol
  else None.

(** The list kind of a render unit that is a list container. *)
Definition container_kind (unit : ReactNode) : option ListType :=
  match unit with
  | RElem tag _ _ _ =>
      if String.eqb tag "ul" then Some ul
      else if String.eqb tag "ol" then Some ol
      else None
  | _ => None
  end.

(** The blocks of the items of a container, in order. *)
Definition item_blocks (items : list ReactNode) : list Block :=
  concat (map (fun item => match item with
                           | RNotionBlock _ block => [block]
                           | _ => []
                           end) items).

(** The blocks a render unit shows, in order. *)
Definition unit_blocks (unit : ReactNode) : list Block :=
  match unit with
  | RNotionBlock _ block => [block]
  | RElem _ _ _ items => item_blocks items
  | _ => []
  end.

(** No two neighbours are list containers of the same kind. *)
Fixpoint no_adjacent_same (units : list ReactNode) : Prop :=
  match units with
  | a :: rest =>
      match rest with
      | b :: _ =>
          (forall k, container_kind a = Some k -> container_kind b <> Some k)
          /\ no_adjacent_same rest
      | [] => True
      end
  | [] => True
  end.

(** A list item of kind [k], as [groupBlocks] puts it in a container. *)
Definition item_of_kind (k : ListType) (item : ReactNode) : Prop :=
  exists block, item = RNotionBlock (id block) block /\ list_kind block = Some k.

(** A unit is either one block that is not a list item, or a container with
    the class [my-4] that holds at least one item, all of the container's kind. *)
Definition unit_ok (unit : ReactNode) : Prop :=
  match unit with
  | RNotionBlock key block => key = id block /\ list_kind block = None
  | RElem tag _ props items =>
      exists k, tag = ListTag (Some k) /\ props = [("className", "my-4")]
                /\ items <> [] /\ Forall (item_of_kind k) items
  | _ => False
  end.

(** ** Observations on rendered spans, for the properties of [RichText] *)

(** The tags of the elements wrapped around a content, outermost first: an
    element counts as a wrapper when it has exactly one child. *)
Fixpoint wrapper_tags (node : ReactNode) : list string :=
  match node with
  | RElem tag _ _ [child] => tag :: wrapper_tags child
  | _ => []
  end.

(** What the wrappers are wrapped around. *)
Fixpoint innermost (node : ReactNode) : ReactNode :=
  match node with
  | RElem _ _ _ [child] => innermost child
  | _ => node
  end.

(** The style wrappers a span's annotations ask for, outermost first. *)
Definition style_tags (a : Annotations) : list string :=
  (if truthy (underline a) then ["u"] else [])
  ++ (if truthy (strikethrough a) then ["del"] else [])
  ++ (if truthy (italic a) then ["em"] else [])
  ++ (if truthy (bold a) then ["strong"] else [])
  ++ (if truthy (code a) then ["code"] else []).

(** A color that [getStyleClasses] can read: a string, or a value that
    counts as false (missing, [null], [false], [0]). *)
Definition color_ok (c : JsVal) : bool :=
  match c with
  | JsStr _ => true
  | v => negb (truthy v)
  end.

(** A span whose [annotations] object is there and whose color is readable;
    the flags may be missing or of any type. *)
Definition span_ok (text : RichTextItem) : bool :=
  match annotations text with
  | Some a => color_ok (color a)
  | None => false
  end.

(** Sample inputs. *)
Definition no_annotations : Annotations :=
  mkAnnotations JsUndefined JsUndefined JsUndefined JsUndefined JsUndefined JsUndefined.

Definition plain_annotations : Annotations :=
  mkAnnotations (JsBool false) (JsBool false) (JsBool false) (JsBool false) (JsBool false)
    (JsStr "default").

Definition sample_span (text : string) : RichTextItem :=
  mkRichTextItem "text" (Some plain_annotations) text None.

Definition bulleted (id text : string) : Block :=
  mkBlock id "bulleted_list_item" (Some false) None [sample_span text].

Definition numbered (id text : string) : Block :=
  mkBlock id "numbered_list_item" (Some false) None [sample_span text].

Definition paragraph (id text : string) : Block :=
  mkBlock id "paragraph" (Some false) None [sample_span text].

(** A span that came without its [annotations]. *)
Definition span_without_annotations : RichTextItem :=
  mkRichTextItem "text" None "plain" None.

(** A span styled in every way, with a link. *)
Definition styled_link_span : RichTextItem :=
  mkRichTextItem "text"
    (Some (mkAnnotations (JsBool true) (JsBool true) (JsBool true) (JsBool true) (JsBool true)
             (JsStr "red_background")))
    "styled" (Some "https://example.com").

(** The kind of the last unit, when it is a list container. *)
Definition last_kind (units : list ReactNode) : option ListType :=
  match last units with
  | Some unit => container_kind unit
  | None => None
  end.

(** What holds of the three variables after the blocks [seen]. *)
Record group_inv (seen : list Block) (st : GroupState) : Prop := {
  inv_adjacent : no_adjacent_same (groupedBlocks st);
  inv_units : Forall unit_ok (groupedBlocks st);
  inv_blocks :
    concat (map unit_blocks (groupedBlocks st)) ++ item_blocks (currentListItems st) = seen;
  inv_run :
    match currentListType st with
    | None => currentListItems st = [] /\ last_kind (groupedBlocks st) = None
    | Some k =>
        currentListItems st <> [] /\ Forall (item_of_kind k) (currentListItems st)
        /\ last_kind (groupedBlocks st) <> Some k
    end
}.

(** The styled content of a span: the text in a fragment, wrapped as the
    flags ask. *)
Definition is_styled_content (text : RichTextItem) (a : Annotations) (content : ReactNode)
  : Prop :=
  wrapper_tags content = style_tags a
  /\ innermost content = RFragment [RText (plain_text text)].

(** The element a span becomes: a hyperlink around the styled content when
    [href] is a string that is not empty, a [span] around it otherwise. *)
Definition is_rendered_span (text : RichTextItem) (a : Annotations) (index : nat)
    (node : ReactNode) : Prop :=
  exists content, is_styled_content text a content
    /\ match href text with
       | Some url =>
           if is_empty url then
             exists props, node = RElem "span" (Some (string_of_nat index)) props [content]
           else
             exists cls,
               node = RElem "a" (Some (string_of_nat index))
                        [("href", url); ("className", cls);
                         ("target", "_blank"); ("rel", "noopener noreferrer")]
                        [content]
       | None =>
           exists props, node = RElem "span" (Some (string_of_nat index)) props [content]
       end.

(** The items [groupBlocks] makes of a run of list items. *)
Definition items_of (run : list Block) : list ReactNode :=
  map (fun block => RNotionBlock (id block) block) run.

(** The blocks all the units show, in order. *)
Definition units_blocks (units : list ReactNode) : list Block :=
  concat (map unit_blocks units).

(** [run] is a maximal run of list items of kind [k] in [pre ++ run ++ post]:
    it is not empty, its blocks are list items of kind [k], and neither the
    block before it nor the block after it is one. *)
Definition maximal_run (k : ListType) (pre run post : list Block) : Prop :=
  run <> []
  /\ Forall (fun block => list_kind block = Some k) run
  /\ (forall block, last pre = Some block -> list_kind block <> Some k)
  /\ (forall block, head post = Some block -> list_kind block <> Some k).

(** ** A sample platform, for concrete runs

    A clock, a workspace with a list of pages and one paginated block list,
    and a switch that makes every remote call fail. *)
Record SampleState : Type := mkSampleState {
  clock : Z;
  workspace : list PageResponse;
  online : bool
}.

Definition titled (title : string) : PageData :=
  mkPageData (Some [sample_span title]) None None (Some "2024-01-01T00:00:00.000Z") None None
    None None None None None.

Definition sample_page (id title : string) : PageResponse :=
  mkPageResponse id (titled title) None None None.

(** The block list of ["paginated-blocks"]: two pages of two blocks. *)
Definition sample_children (block_id : string) (start_cursor : option string)
  : Outcome ListResponse :=
  if String.eqb block_id "paginated-blocks" then
    match start_cursor with
    | None =>
        Ok (mkListResponse [paragraph "b0" "zero"; paragraph "b1" "one"] true
              (Some "next-page"))
    | Some c =>
        if String.eqb c "next-page" then
          Ok (mkListResponse [paragraph "b2" "two"; paragraph "b3" "three"] false None)
        else Throw (Error "400 Bad Request")
    end
  else Throw (Error "404 Not Found").

Definition unavailable {A : Type} : Outcome A := Throw (Error "503 Service Unavailable").

#[global] Instance sample_platform : Platform SampleState := {|
  Date_now := clock;
  now_iso := fun _ => "2024-01-01T00:00:00.000Z";
  iso_of_date := fun s => if is_empty s then None else Some s;
  pages_retrieve := fun page_id s =>
    (if online s then
       match List.find (fun p => String.eqb (response_id p) page_id) (workspace s) with
       | Some p => Ok p
       | None => Throw (Error "404 Not Found")
       end
     else unavailable, s);
  blocks_children_list := fun block_id start_cursor _ s =>
    (if online s then sample_children block_id start_cursor else unavailable, s);
  databases_query := fun _ s =>
    (if online s then Ok (mkDatabaseQueryResponse (workspace s) false None)
     else unavailable, s);
  NOTION_DATABASE_ID := Some "test-database-id"
|}.

(** A world of the sample platform with nothing called yet. *)
Definition sample_world (c : gmap string CacheItem) (database_id : option string)
    (now : Z) (pages : list PageResponse) (up : bool) : World SampleState :=
  mkWorld c database_id (mkSampleState now pages up) [] [].

(** Sample inputs for the cache. *)

(** An entry stored at instant 0 with the default time to live. *)
Definition sample_item (v : Value) : CacheItem := mkCacheItem v 0 300000.

(** A fetch function that always fails. *)
Definition failing_fetch {X : Type} : M X Value := throw (Error "boom").

(** A world whose cache holds one entry under the key ["k"], at a given
    instant. *)
Definition one_entry_world (now : Z) : World SampleState :=
  sample_world {[ "k" := sample_item (VStrings ["stored"]) ]} None now [] true.

(** A world without collection identifier whose cache holds a listing. *)
Definition unconfigured_world : World SampleState :=
  sample_world {[ "formatted-database:true:Public" := sample_item (VPages []) ]} None 1000
    [sample_page "p1" "Alpha"] true.

(** The listing of the sample workspace, shaped. *)
Definition formatted (id title : string) : FormattedPage :=
  mkFormattedPage id title EmptyString id None [] None [] [] None
    "2024-01-01T00:00:00.000Z" "2024-01-01T00:00:00.000Z" None.

(** A configured world with an empty cache, and the same world a second
    later, when the workspace has a new page. *)
Definition search_world_before : World SampleState :=
  sample_world ∅ (Some "db") 0 [sample_page "p1" "Alpha"] true.

Definition search_world_after (w : World SampleState) : World SampleState :=
  mkWorld (cache w) (env_NOTION_DATABASE_ID w)
    (mkSampleState 1000 [sample_page "p2" "Alpha two"; sample_page "p1" "Alpha"] true)
    (calls w) (refreshes w).

(** ** The paginated source, for the properties of [getBlocks] *)

Section PaginatedSource.
Context {X : Type} `{Platform X}.

(** [serves_pages blockId cursor x rs x']: asked for the children of
    [blockId] in pages of 100 from [cursor] on, each request carrying the
    cursor of the answer before, the service in state [x] answers with the
    pages [rs], the last of which is the first that reports no further
    page, and ends in state [x']. *)
Inductive serves_pages (blockId : string)
  : option string -> X -> list ListResponse -> X -> Prop :=
| serves_last cursor x r x' :
    blocks_children_list blockId cursor 100 x = (Ok r, x') ->
    has_more r = false ->
    serves_pages blockId cursor x [r] x'
| serves_more cursor x r x' c rs x'' :
    blocks_children_list blockId cursor 100 x = (Ok r, x') ->
    has_more r = true ->
    next_cursor r = Some c ->
    is_empty c = false ->
    serves_pages blockId (Some c) x' rs x'' ->
    serves_pages blockId cursor x (r :: rs) x''.

(** The requests that fetch the pages [rs] from [cursor] on: one for each
    page, of at most 100 items, each with the cursor the page before
    returned. *)
Fixpoint page_requests (blockId : string) (cursor : option string) (rs : list ListResponse)
  : list RemoteCall :=
  match rs with
  | [] => []
  | r :: rest =>
      BlocksChildrenList blockId cursor 100 :: page_requests blockId (next_cursor r) rest
  end.

(** The world after the remote calls [cs], which left the platform in [x']. *)
Definition after_calls (w : World X) (x' : X) (cs : list RemoteCall) : World X :=
  mkWorld (cache w) (env_NOTION_DATABASE_ID w) x' (calls w ++ cs) (refreshes w).
End PaginatedSource.

(** The two pages of the sample block list. *)
Definition sample_first_page : ListResponse :=
  mkListResponse [paragraph "b0" "zero"; paragraph "b1" "one"] true (Some "next-page").

Definition sample_second_page : ListResponse :=
  mkListResponse [paragraph "b2" "two"; paragraph "b3" "three"] false None.

Definition pagination_world : World SampleState :=
  sample_world ∅ (Some "db") 0 [] true.

(** ** The worlds the client can reach, for the properties of the listings *)

(** The keys under which the listing operations cache their results. *)
Definition is_listing_key (key : string) : bool :=
  (String.prefix "formatted-database:" key
   || String.prefix "pages-by-tag:" key
   || String.prefix "pages-by-category:" key)%bool.

(** A list of pages none of which carries content blocks. *)
Definition block_free (v : Value) : Prop :=
  exists ps, v = VPages ps /\ Forall (fun p => blocks p = []) ps.

Definition is_page (v : Value) : Prop := exists p, v = VPage p.

Definition is_blocks (v : Value) : Prop := exists bs, v = VBlocks bs.

(** What a value stored or found under [key] has to be: under a listing key
    pages without blocks, under a key of [getPage] a page, under a key of
    [getBlocks] a list of blocks. *)
Definition fits (key : string) (v : Value) : Prop :=
  (is_listing_key key = true -> block_free v)
  /\ (String.prefix "page:" key = true -> is_page v)
  /\ (String.prefix "blocks:" key = true -> is_blocks v).

(** Every entry of the cache holds a value that fits its key. *)
Definition cache_inv (c : gmap string CacheItem) : Prop :=
  forall key item, c !! key = Some item -> fits key (data item).

(** The postcondition that asks nothing of the value. *)
Abbreviation anything := (fun _ => True).

Section Reachable.
Context {X : Type} `{Platform X}.

(** The keys and arrow functions the client hands to [getFromCacheOrFetch]. *)
Inductive client_fetch : string -> M X Value -> Prop :=
| fetch_page pageId : client_fetch ("page:" +:+ pageId) (fetchPage pageId)
| fetch_blocks fuel blockId :
    client_fetch ("blocks:" +:+ blockId) (fetchBlockTree (getBlocks fuel) fuel blockId)
| fetch_formatted_page fuel pageId fetchBlocks :
    client_fetch ("formatted-page:" +:+ pageId +:+ ":" +:+ string_of_bool fetchBlocks)
      (fetchFormattedPage fuel pageId fetchBlocks)
| fetch_formatted_database filterByStatus status :
    client_fetch
      ("formatted-database:" +:+ string_of_bool filterByStatus +:+ ":" +:+ status)
      (fetchFormattedDatabase filterByStatus status)
| fetch_page_by_slug fuel slug :
    client_fetch ("page-by-slug:" +:+ slug) (fetchPageBySlug fuel slug)
| fetch_pages_by_tag tag : client_fetch ("pages-by-tag:" +:+ tag) (fetchPagesByTag tag)
| fetch_pages_by_category category :
    client_fetch ("pages-by-category:" +:+ category) (fetchPagesByCategory category)
| fetch_all_tags : client_fetch "all-tags" fetchAllTags
| fetch_all_categories : client_fetch "all-categories" fetchAllCategories.

(** The asynchronous functions the module exports. *)
Inductive exported_call : M X Value -> Prop :=
| call_getPage pageId : exported_call (getPage pageId)
| call_getBlocks fuel blockId : exported_call (getBlocks fuel blockId)
| call_getFormattedPage fuel pageId fetchBlocks :
    exported_call (getFormattedPage fuel pageId fetchBlocks)
| call_getFormattedDatabase filterByStatus status :
    exported_call (getFormattedDatabase filterByStatus status)
| call_getPageBySlug fuel slug : exported_call (getPageBySlug fuel slug)
| call_getPagesByTag tag : exported_call (getPagesByTag tag)
| call_getAllTags : exported_call getAllTags
| call_getPagesByCategory category : exported_call (getPagesByCategory category)
| call_getAllCategories : exported_call getAllCategories
| call_searchPages query : exported_call (searchPages query).

(** The listing operations. *)
Inductive listing_call : M X Value -> Prop :=
| listing_getFormattedDatabase filterByStatus status :
    listing_call (getFormattedDatabase filterByStatus status)
| listing_getPagesByTag tag : listing_call (getPagesByTag tag)
| listing_getPagesByCategory category : listing_call (getPagesByCategory category)
| listing_searchPages query : listing_call (searchPages query).

(** One step of the life of the module: a call of an exported function
    settles, [clearCache] is called, a background refresh settles, or the
    world outside changes (time passes, the workspace is edited, the
    environment variable is set or unset). *)
Inductive client_step : World X -> World X -> Prop :=
| step_call m w o w' : exported_call m -> m w = Done o w' -> client_step w w'
| step_clearCache keyPrefix w : client_step w (clearCache keyPrefix w)
| step_refresh key fetchFn w o w' :
    client_fetch key fetchFn ->
    background_refresh key fetchFn DEFAULT_CACHE_CONFIG w = Done o w' ->
    client_step w w'
| step_outside w database_id x :
    client_step w (mkWorld (cache w) database_id x (calls w) (refreshes w)).

(** The worlds reached from a freshly loaded module, whose cache is empty. *)
Inductive reachable : World X -> Prop :=
| reachable_start w : cache w = ∅ -> reachable w
| reachable_step w w' : reachable w -> client_step w w' -> reachable w'.

(** [keeps m Q]: run in a world whose cache satisfies [cache_inv], [m]
    casts no value to a type it does not have and leaves such a cache, and
    a value it returns satisfies [Q]. *)
Definition keeps {A : Type} (m : M X A) (Q : A -> Prop) : Prop :=
  forall w, cache_inv (cache w) ->
    match m w with
    | Done (Ok a) w' => cache_inv (cache w') /\ Q a
    | Done (Throw _) w' => cache_inv (cache w')
    | OutOfFuel => True
    | IllTyped => False
    end.
End Reachable.

(** ** Observations on lists of names, for the properties of [getAllTags] *)


(** ** The block components ([src/components/NotionBlock.tsx])

    The components are embedded as the functions they are: from the block of
    their props to the element tree they return.  An element of another
    component inside that tree ([<RichText .. />], [<NotionBlock .. />],
    [<ParagraphBlock .. />]) is kept as an element with its props, as the
    function returns it; React calls that component later.  A child that
    renders nothing ([undefined], [false], [null]) is left out of the list
    of children.  [memo] and [useMemo] change when a component is called
    again, not what it returns, and are left out. *)
Module Components.

(** [{ rich_text }]: the payload of a paragraph, a heading, a list item, a
    toggle or a quote. *)
Record TextPayload : Type := mkTextPayload { rich_text : list RichTextItem }.

(** [to_do?: { rich_text, checked }] *)
Record ToDo : Type := mkToDo { to_do_rich_text : list RichTextItem; checked : bool }.

(** [code?: { rich_text, language }] *)
Record Code : Type := mkCode { code_rich_text : list RichTextItem; language : string }.

(** [image?] and [video?]: [{ type, external?: { url }, file?: { url },
    caption? }]; [external_url] is what [external?.url] reaches. *)
Record Media : Type := mkMedia {
  media_type : string;
  external_url : option string;
  file_url : option string;
  caption : option (list RichTextItem)
}.

(** [bookmark?] and [embed?]: [{ url, caption? }] *)
Record Link : Type := mkLink { url : string; link_caption : option (list RichTextItem) }.

(** [callout?.icon?: { type, emoji? }] *)
Record Icon : Type := mkIcon { icon_type : string; emoji : option string }.

(** [callout?: { rich_text, icon? }] *)
Record Callout : Type := mkCallout {
  callout_rich_text : list RichTextItem;
  icon : option Icon
}.

(** [table?: { has_column_header }] *)
Record Table : Type := mkTable { has_column_header : bool }.

(** [table_row?: { cells }] *)
Record TableRow : Type := mkTableRow { cells : list (list RichTextItem) }.

(** [link_preview?: { url }] *)
Record LinkPreview : Type := mkLinkPreview { link_preview_url : string }.

(** [equation?: { expression }] *)
Record Equation : Type := mkEquation { expression : string }.

(** [NotionBlockWithChildren], with the fields the components read. *)
Inductive NotionBlockWithChildren : Type := mkNotionBlockWithChildren {
  id : string;
  type : string;
  children : option (list NotionBlockWithChildren);
  paragraph : option TextPayload;
  heading_1 : option TextPayload;
  heading_2 : option TextPayload;
  heading_3 : option TextPayload;
  bulleted_list_item : option TextPayload;
  numbered_list_item : option TextPayload;
  to_do : option ToDo;
  toggle : option TextPayload;
  code : option Code;
  quote : option TextPayload;
  image : option Media;
  bookmark : option Link;
  callout : option Callout;
  table : option Table;
  table_row : option TableRow;
  embed : option Link;
  video : option Media;
  link_preview : option LinkPreview;
  equation : option Equation
}.

(** The elements the components return.  The props of a host element hold
    JavaScript values; [ERichText], [ENotionBlock], [EComponent] and
    [EDividerBlock] are the elements of components:
    [<RichText richText=.. />], [<NotionBlock key=.. block=.. />],
    [<Component block=.. />] for a block component, and [<DividerBlock />]. *)
Inductive Element : Type :=
| EText (s : string)
| EElem (tag : string) (key : option string) (props : list (string * JsVal))
    (children : list Element)
| ERichText (richText : option (list RichTextItem))
| ENotionBlock (key : string) (block : NotionBlockWithChildren)
| EComponent (component : NotionBlockWithChildren -> option Element)
    (block : NotionBlockWithChildren)
| EDividerBlock.

(** [className="..."] *)
Definition className (classes : string) : string * JsVal := ("className", JsStr classes).

(** [children.map((child) => <NotionBlock key={child.id} block={child} />)] *)
Definition child_elements (children : list NotionBlockWithChildren) : list Element :=
  map (fun child => ENotionBlock (id child) child) children.

(** [{block.children && block.children.length > 0 && (<tag className=..>
    {block.children.map(..)}</tag>)}] *)
Definition nested_children (tag classes : string) (block : NotionBlockWithChildren)
  : list Element :=
  match children block with
  | Some ((_ :: _) as cs) => [EElem tag None [className classes] (child_elements cs)]
  | _ => []
  end.

(** [{caption && caption.length > 0 && (<tag className=..>
    <RichText richText={caption} /></tag>)}] *)
Definition caption_element (tag classes : string) (caption : option (list RichTextItem))
  : list Element :=
  match caption with
  | Some ((_ :: _) as c) => [EElem tag None [className classes] [ERichText (Some c)]]
  | _ => []
  end.

(** The notice of a component whose block lacks what it shows. *)
Definition missing_notice (text : string) : Element :=
  EElem "div" None [className "my-4 p-2 border border-red-200 rounded text-red-500"]
    [EText text].

(** [m?.type === 'external' ? m.external?.url : m?.file?.url] *)
Definition media_url (m : option Media) : option string :=
  match m with
  | Some m => if String.eqb (media_type m) "external" then external_url m else file_url m
  | None => None
  end.

Definition ParagraphBlock (block : NotionBlockWithChildren) : option Element :=
  Some (EElem "p" None [className "mb-4"; ("data-testid", JsStr "block-paragraph")]
          [ERichText (rich_text <$> paragraph block)]).

Definition Heading1Block (block : NotionBlockWithChildren) : option Element :=
  Some (EElem "h1" None [className "text-3xl font-bold mt-8 mb-4"]
          [ERichText (rich_text <$> heading_1 block)]).

Definition Heading2Block (block : NotionBlockWithChildren) : option Element :=
  Some (EElem "h2" None [className "text-2xl font-bold mt-6 mb-3"]
          [ERichText (rich_text <$> heading_2 block)]).

Definition Heading3Block (block : NotionBlockWithChildren) : option Element :=
  Some (EElem "h3" None [className "text-xl font-bold mt-5 mb-2"]
          [ERichText (rich_text <$> heading_3 block)]).

Definition BulletedListItemBlock (block : NotionBlockWithChildren) : option Element :=
  Some (EElem "li" None [className "ml-5 list-disc mb-1"]
          (ERichText (rich_text <$> bulleted_list_item block)
           :: nested_children "ul" "ml-5 mt-1" block)).

Definition NumberedListItemBlock (block : NotionBlockWithChildren) : option Element :=
  Some (EElem "li" None [className "ml-5 list-decimal mb-1"]
          (ERichText (rich_text <$> numbered_list_item block)
           :: nested_children "ol" "ml-5 mt-1" block)).

Definition ToDoBlock (block : NotionBlockWithChildren) : option Element :=
  Some (EElem "div" None [className "flex items-start mb-1"]
          [EElem "input" None
             [("type", JsStr "checkbox");
              ("checked", match to_do block with
                          | Some t => JsBool (checked t)
                          | None => JsUndefined
                          end);
              ("readOnly", JsBool true);
              className "mt-1 mr-2"] [];
           EElem "div" None [] [ERichText (to_do_rich_text <$> to_do block)]]).

Definition ToggleBlock (block : NotionBlockWithChildren) : option Element :=
  Some (EElem "details" None [className "mb-4 border border-gray-200 rounded p-2"]
          (EElem "summary" None [className "cursor-pointer font-medium"]
             [ERichText (rich_text <$> toggle block)]
           :: nested_children "div" "mt-2 pl-4" block)).

Definition CodeBlock (block : NotionBlockWithChildren) : option Element :=
  let language := or_str (language <$> code block) "text" in
  let codeText :=
    join EmptyString (map plain_text (default [] (code_rich_text <$> code block))) in
  Some (EElem "pre" None
          [className "bg-gray-900 text-gray-100 p-4 rounded my-4 overflow-x-auto"]
          [EElem "code" None [className ("language-" +:+ language)] [EText codeText]]).

Definition QuoteBlock (block : NotionBlockWithChildren) : option Element :=
  Some (EElem "blockquote" None [className "border-l-4 border-gray-300 pl-4 py-1 my-4 italic"]
          [ERichText (rich_text <$> quote block)]).

(** [DividerBlock] takes no props. *)
Definition DividerBlock : option Element :=
  Some (EElem "hr" None [className "my-6 border-t border-gray-300"] []).

Definition ImageBlock (block : NotionBlockWithChildren) : option Element :=
  let imageUrl := media_url (image block) in
  let altText :=
    match image block ≫= caption with
    | Some ((_ :: _) as c) => join " " (map plain_text c)
    | _ => "Notion image"
    end in
  if negb (truthy_str imageUrl) then Some (missing_notice "画像URLが見つかりません")
  else
    Some (EElem "figure" None [className "my-6"]
            (EElem "img" None
               [("src", JsStr (default EmptyString imageUrl));
                ("alt", JsStr altText);
                className "mx-auto max-w-full rounded shadow-md";
                ("loading", JsStr "lazy")] []
             :: caption_element "figcaption" "text-center text-gray-500 mt-2"
                  (image block ≫= caption))).

Definition BookmarkBlock (block : NotionBlockWithChildren) : option Element :=
  let url := url <$> bookmark block in
  if negb (truthy_str url) then Some (missing_notice "ブックマークURLが見つかりません")
  else
    Some (EElem "a" None
            [("href", JsStr (default EmptyString url));
             ("target", JsStr "_blank");
             ("rel", JsStr "noopener noreferrer");
             className
               "block border border-gray-200 rounded p-4 my-4 hover:bg-gray-50 transition duration-150"]
            (EElem "div" None [className "text-blue-500 hover:underline break-words"]
               [EText (default EmptyString url)]
             :: caption_element "div" "text-gray-500 text-sm mt-1"
                  (bookmark block ≫= link_caption))).

Definition CalloutBlock (block : NotionBlockWithChildren) : option Element :=
  let icon :=
    match callout block ≫= icon with
    | Some i =>
        if String.eqb (icon_type i) "emoji" then emoji i
        else if String.eqb (icon_type i) "external" then Some "🔗"
        else Some "💡"
    | None => Some "💡"
    end in
  Some (EElem "div" None
          [className "flex bg-gray-100 p-4 rounded my-4 border-l-4 border-gray-300"]
          [EElem "div" None [className "mr-3 text-xl"]
             match icon with
             | Some s => [EText s]
             | None => []
             end;
           EElem "div" None [className "flex-1"]
             [ERichText (callout_rich_text <$> callout block)]]).

(** The callback of [row.table_row?.cells?.map] in [TableBlock]; [header]
    is [i === 0 && block.table?.has_column_header] for the row. *)
Definition TableBlock_cell (header : bool) (row : NotionBlockWithChildren)
    (j : nat) (cell : list RichTextItem) : Element :=
  EElem (if header then "th" else "td") (Some (id row +:+ "-" +:+ string_of_nat j))
    [className "border border-gray-300 px-3 py-2"]
    [ERichText (Some cell)].

(** The callback of [block.children.map] in [TableBlock]: a child that is
    not a table row gives [null]. *)
Definition TableBlock_row (header : bool) (row : NotionBlockWithChildren) : list Element :=
  if negb (String.eqb (type row) "table_row") then []
  else
    [EElem "tr" (Some (id row)) [className (if header then "bg-gray-100" else EmptyString)]
       (imap (TableBlock_cell header row) (default [] (cells <$> table_row row)))].

Definition TableBlock (block : NotionBlockWithChildren) : option Element :=
  match children block with
  | None => Some (missing_notice "テーブルデータが見つかりません")
  | Some rows =>
      Some (EElem "div" None [className "my-4 overflow-x-auto"]
              [EElem "table" None [className "w-full border-collapse"]
                 [EElem "tbody" None []
                    (concat
                       (imap (fun i row =>
                                TableBlock_row
                                  (Nat.eqb i 0
                                   && default false (has_column_header <$> table block))
                                  row)
                          rows))]])
  end.

Definition ColumnListBlock (block : NotionBlockWithChildren) : option Element :=
  match children block with
  | None => None
  | Some columns =>
      Some (EElem "div" None [className "flex flex-wrap my-4 -mx-2"]
              (map (fun column =>
                      EElem "div" (Some (id column)) [className "px-2 flex-1 min-w-[250px]"]
                        (child_elements (default [] (children column))))
                 columns))
  end.

Definition EmbedBlock (block : NotionBlockWithChildren) : option Element :=
  let url := url <$> embed block in
  if negb (truthy_str url) then Some (missing_notice "埋め込みURLが見つかりません")
  else
    Some (EElem "div" None [className "my-4"]
            (EElem "iframe" None
               [("src", JsStr (default EmptyString url));
                className "w-full h-96 border-0 rounded shadow-md";
                ("allowFullScreen", JsBool true);
                ("loading", JsStr "lazy");
                ("title", JsStr "Embedded content")] []
             :: caption_element "div" "text-center text-gray-500 mt-2"
                  (embed block ≫= link_caption))).

Definition LinkPreviewBlock (block : NotionBlockWithChildren) : option Element :=
  let url := link_preview_url <$> link_preview block in
  if negb (truthy_str url) then
    Some (missing_notice "リンクプレビューURLが見つかりません")
  else
    Some (EElem "a" None
            [("href", JsStr (default EmptyString url));
             ("target", JsStr "_blank");
             ("rel", JsStr "noopener noreferrer");
             className
               "block border border-gray-200 rounded p-4 my-4 hover:bg-gray-50 transition duration-150"]
            [EElem "div" None [className "text-blue-500 hover:underline break-words"]
               [EText (default EmptyString url)]]).

Definition VideoBlock (block : NotionBlockWithChildren) : option Element :=
  let videoUrl := media_url (video block) in
  if negb (truthy_str videoUrl) then Some (missing_notice "動画URLが見つかりません")
  else
    Some (EElem "div" None [className "my-6"]
            (EElem "iframe" None
               [("src", JsStr (default EmptyString videoUrl));
                className "w-full h-96 border-0 rounded shadow-md";
                ("allowFullScreen", JsBool true);
                ("loading", JsStr "lazy");
                ("title", JsStr "Video content")] []
             :: caption_element "div" "text-center text-gray-500 mt-2"
                  (video block ≫= caption))).

Definition EquationBlock (block : NotionBlockWithChildren) : option Element :=
  let expression := expression <$> equation block in
  if negb (truthy_str expression) then Some (missing_notice "数式が見つかりません")
  else
    Some (EElem "div" None [className "my-4 p-4 bg-gray-50 rounded overflow-x-auto font-mono"]
            [EText (default EmptyString expression)]).

Definition UnsupportedBlock (block : NotionBlockWithChildren) : option Element :=
  Some (EElem "div" None [className "my-4 p-2 border border-gray-200 rounded text-sm"]
          [EElem "p" None [className "text-gray-500"]
             [EText "サポートされていないブロックタイプ: "; EText (type block)]]).

(** [getBlockComponent]: the [switch] on [block.type]. *)
Definition getBlockComponent (block : NotionBlockWithChildren) : Element :=
  let case label := String.eqb (type block) label in
  if case "paragraph" then EComponent ParagraphBlock block
  else if case "heading_1" then EComponent Heading1Block block
  else if case "heading_2" then EComponent Heading2Block block
  else if case "heading_3" then EComponent Heading3Block block
  else if case "bulleted_list_item" then EComponent BulletedListItemBlock block
  else if case "numbered_list_item" then EComponent NumberedListItemBlock block
  else if case "to_do" then EComponent ToDoBlock block
  else if case "toggle" then EComponent ToggleBlock block
  else if case "code" then EComponent CodeBlock block
  else if case "quote" then EComponent QuoteBlock block
  else if case "divider" then EDividerBlock
  else if case "image" then EComponent ImageBlock block
  else if case "bookmark" then EComponent BookmarkBlock block
  else if case "callout" then EComponent CalloutBlock block
  else if case "table" then EComponent TableBlock block
  else if case "column_list" then EComponent ColumnListBlock block
  else if case "embed" then EComponent EmbedBlock block
  else if case "video" then EComponent VideoBlock block
  else if case "equation" then EComponent EquationBlock block
  else if case "link_preview" then EComponent LinkPreviewBlock block
  else EComponent UnsupportedBlock block.

(** [NotionBlock]: [None] as props is a [block] that is [null] or
    [undefined], [None] as result is [null]. *)
Definition NotionBlock (block : option NotionBlockWithChildren) : option Element :=
  match block with
  | None => None
  | Some block => Some (getBlockComponent block)
  end.

(** What React calls for an element of a component: the component on its
    props.  A host element or a text is not called. *)
Definition called (e : Element) : option (option Element) :=
  match e with
  | EComponent component block => Some (component block)
  | EDividerBlock => Some DividerBlock
  | ENotionBlock _ block => Some (NotionBlock (Some block))
  | _ => None
  end.

(** What the component that [getBlockComponent] chooses for a block returns
    when React calls it. *)
Definition component_result (block : NotionBlockWithChildren) : option Element :=
  match called (getBlockComponent block) with
  | Some result => result
  | None => None
  end.

(** *** Observations on elements *)

(** The blocks handed to [NotionBlock] elements in a tree, in order. *)
Fixpoint nested_blocks (e : Element) : list NotionBlockWithChildren :=
  match e with
  | ENotionBlock _ block => [block]
  | EElem _ _ _ children => concat (map nested_blocks children)
  | _ => []
  end.


(** The rich texts handed to [RichText] elements in a tree, in order. *)
Fixpoint rich_texts (e : Element) : list (option (list RichTextItem)) :=
  match e with
  | ERichText richText => [richText]
  | EElem _ _ _ children => concat (map rich_texts children)
  | _ => []
  end.

(** The texts in a tree, in order. *)
Fixpoint texts (e : Element) : list string :=
  match e with
  | EText s => [s]
  | EElem _ _ _ children => concat (map texts children)
  | _ => []
  end.

(** The values of the prop [name] of the host elements of a tree, in order. *)
Fixpoint prop_values (name : string) (e : Element) : list JsVal :=
  match e with
  | EElem _ _ props children =>
      map snd (List.filter (fun prop => String.eqb (fst prop) name) props)
      ++ concat (map (prop_values name) children)
  | _ => []
  end.

(** The tags of the host elements of a tree, parents before children. *)
Fixpoint tags_of (e : Element) : list string :=
  match e with
  | EElem tag _ _ children => tag :: concat (map tags_of children)
  | _ => []
  end.

(** The observations on a result that may be [null]. *)
Definition of_result {A : Type} (f : Element -> list A) (result : option Element) : list A :=
  match result with
  | Some e => f e
  | None => []
  end.

(** The case labels of [getBlockComponent]. *)
Definition supported_types : list string :=
  ["paragraph"; "heading_1"; "heading_2"; "heading_3"; "bulleted_list_item";
   "numbered_list_item"; "to_do"; "toggle"; "code"; "quote"; "divider"; "image";
   "bookmark"; "callout"; "table"; "column_list"; "embed"; "video"; "equation";
   "link_preview"].

End Components.

(** ** [NotionBlocks], and the keys of the units *)


(** The keys of the host elements among the units: the list containers, and
    the notice of the empty state. *)
Definition container_keys (units : list ReactNode) : list string :=
  concat (map (fun unit => match unit with
                           | RElem _ (Some key) _ _ => [key]
                           | _ => []
                           end) units).

(** ** Sample inputs for the further properties *)


(** A page all of whose properties are missing. *)
Definition empty_page (id : string) : PageResponse :=
  mkPageResponse id (mkPageData None None None None None None None None None None None)
    None None None.



(** A platform whose block ["root"] has three children, the second of which,
    a toggle, has one child. *)
Record TreeState : Type := mkTreeState { tree_clock : Z }.

Definition sample_toggle : Block :=
  mkBlock "t" "toggle" (Some true) None [sample_span "more"].

Definition tree_children (block_id : string) : Outcome ListResponse :=
  if String.eqb block_id "root" then
    Ok (mkListResponse [paragraph "a" "first"; sample_toggle; paragraph "c" "last"] false None)
  else if String.eqb block_id "t" then
    Ok (mkListResponse [paragraph "t1" "inside"] false None)
  else Throw (Error "404 Not Found").

#[global] Instance tree_platform : Platform TreeState := {|
  Date_now := tree_clock;
  now_iso := fun _ => "2024-01-01T00:00:00.000Z";
  iso_of_date := fun s => if is_empty s then None else Some s;
  pages_retrieve := fun _ s => (Throw (Error "404 Not Found"), s);
  blocks_children_list := fun block_id _ _ s => (tree_children block_id, s);
  databases_query := fun _ s => (Throw (Error "404 Not Found"), s);
  NOTION_DATABASE_ID := None
|}.

Definition tree_world : World TreeState := mkWorld ∅ None (mkTreeState 0) [] [].

(** * Properties of the renderer *)

Section GroupBlocks.

Lemma last_kind_snoc units unit : last_kind (units ++ [unit]) = container_kind unit.
Proof. unfold last_kind. by rewrite last_snoc. Qed.

Lemma no_adjacent_same_snoc units unit :
  no_adjacent_same units ->
  (forall k, last_kind units = Some k -> container_kind unit <> Some k) ->
  no_adjacent_same (units ++ [unit]).
Proof.
  induction units as [|a [|b rest] IH]; intros Hn Hl; simpl in *.
  - done.
  - split; [|done]. intros k Hk. by apply Hl.
  - destruct Hn as [Hab Hrest]. split; [done|].
    apply IH; [done|]. intros k Hk. apply Hl.
    unfold last_kind in *. simpl in *. done.
Qed.

Lemma container_kind_list_element k key items :
  container_kind (list_element (Some k) key items) = Some k.
Proof. by destruct k. Qed.

Lemma list_kind_None block : is_list_item block = false -> list_kind block = None.
Proof.
  unfold is_list_item, list_kind. intros H.
  apply orb_false_iff in H as [-> ->]. done.
Qed.

Lemma list_kind_Some block :
  is_list_item block = true ->
  list_kind block =
    Some (if String.eqb (block_type block) "bulleted_list_item" then ul else ol).
Proof.
  unfold is_list_item, list_kind. intros H.
  destruct (String.eqb (block_type block) "bulleted_list_item"); [done|].
  simpl in H. by rewrite H.
Qed.

Lemma item_blocks_app a b : item_blocks (a ++ b) = item_blocks a ++ item_blocks b.
Proof. unfold item_blocks. by rewrite map_app, concat_app. Qed.

Lemma units_blocks_snoc units unit :
  concat (map unit_blocks (units ++ [unit])) = concat (map unit_blocks units) ++ unit_blocks unit.
Proof. rewrite map_app, concat_app. simpl. by rewrite app_nil_r. Qed.

Lemma unit_blocks_list_element t key items :
  unit_blocks (list_element t key items) = item_blocks items.
Proof. done. Qed.

Lemma unit_ok_list_element k key items :
  items <> [] -> Forall (item_of_kind k) items -> unit_ok (list_element (Some k) key items).
Proof. intros. exists k. done. Qed.

Lemma groupStep_inv seen st block index :
  group_inv seen st -> group_inv (seen ++ [block]) (groupStep st block index).
Proof.
  intros [Hadj Hunits Hblocks Hrun]. destruct st as [grouped items type]. simpl in *.
  unfold groupStep. simpl.
  destruct (is_list_item block) eqn:Hitem.
  - pose proof (list_kind_Some _ Hitem) as Hkind.
    set (new := if String.eqb (block_type block) "bulleted_list_item" then ul else ol) in *.
    assert (Hnew : item_of_kind new (RNotionBlock (id block) block)) by (by exists block).
    destruct type as [k|]; simpl.
    + destruct Hrun as (Hne & Hall & Hlast).
      destruct (ListType_eqb k new) eqn:Heq; simpl.
      * assert (k = new) as -> by (by destruct k, new).
        constructor; simpl; try done.
        -- rewrite item_blocks_app, app_assoc, Hblocks. done.
        -- split_and!; [by destruct items | by apply Forall_app; split; [|constructor] | done].
      * destruct items as [|i items]; [done|]. simpl.
        constructor; simpl.
        -- apply no_adjacent_same_snoc; [done|]. intros k' Hk'.
           rewrite container_kind_list_element. congruence.
        -- apply Forall_app. split; [done|]. constructor; [|done].
           by apply unit_ok_list_element.
        -- rewrite units_blocks_snoc, unit_blocks_list_element, Hblocks. done.
        -- split_and!; [done | by constructor |].
           rewrite last_kind_snoc, container_kind_list_element.
           intros [= <-]. by destruct k.
    + destruct Hrun as [-> Hlast]. simpl. constructor; simpl; try done.
      * rewrite <- Hblocks. unfold item_blocks. simpl. by rewrite app_nil_r.
      * split_and!; [done | by constructor | by rewrite Hlast].
  - pose proof (list_kind_None _ Hitem) as Hkind.
    assert (Hunit : unit_ok (RNotionBlock (id block) block)) by done.
    destruct items as [|i items]; simpl.
    + constructor; simpl.
      * apply no_adjacent_same_snoc; [done|]. done.
      * apply Forall_app. split; [done|]. by constructor.
      * rewrite units_blocks_snoc. unfold item_blocks in *. simpl in *.
        rewrite app_nil_r in *. by rewrite Hblocks.
      * destruct type as [k|]; [by destruct Hrun|].
        split; [done|]. by rewrite last_kind_snoc.
    + destruct type as [k|]; [|by destruct Hrun].
      destruct Hrun as (_ & Hall & Hlast).
      constructor; simpl.
      * apply no_adjacent_same_snoc; [|done].
        apply no_adjacent_same_snoc; [done|]. intros k' Hk'.
        rewrite container_kind_list_element. congruence.
      * apply Forall_app. split; [|by constructor].
        apply Forall_app. split; [done|]. constructor; [|done].
        by apply unit_ok_list_element.
      * rewrite !units_blocks_snoc, unit_blocks_list_element, Hblocks.
        unfold item_blocks. simpl. by rewrite app_nil_r.
      * split; [done|]. by rewrite last_kind_snoc.
Qed.

Lemma forEach_group_inv blocks : forall seen st index,
  group_inv seen st -> group_inv (seen ++ blocks) (forEach_group blocks index st).
Proof.
  induction blocks as [|block rest IH]; intros seen st index Hinv; simpl.
  - by rewrite app_nil_r.
  - replace (seen ++ block :: rest) with ((seen ++ [block]) ++ rest)
      by (by rewrite <- app_assoc).
    apply IH. by apply groupStep_inv.
Qed.

Lemma group_inv_init : group_inv [] (mkGroupState [] [] None).
Proof. by constructor. Qed.
End GroupBlocks.

(** The units of [groupBlocks]: no two neighbouring containers of one kind,
    every unit well formed, and the blocks of the input in their order. *)
Lemma groupBlocks_units (blocks : list Block) :
  no_adjacent_same (groupBlocks blocks)
  /\ match blocks with
     | [] =>
         groupBlocks blocks =
           [RElem "p" (Some "empty") [("className", "text-gray-500 italic")]
              [RText "コンテンツがありません"]]
     | _ :: _ =>
         Forall unit_ok (groupBlocks blocks)
         /\ units_blocks (groupBlocks blocks) = blocks
     end.
Proof.
  destruct blocks as [|b rest]; [by split|].
  pose proof (forEach_group_inv (b :: rest) [] _ 0 group_inv_init) as Hinv.
  unfold groupBlocks.
  destruct (forEach_group (b :: rest) 0 (mkGroupState [] [] None))
    as [grouped items type] eqn:Hst.
  destruct Hinv as [Hadj Hunits Hblocks Hrun]. simpl in *.
  destruct items as [|i items].
  - rewrite app_nil_r in Hblocks. done.
  - destruct type as [k|]; [|by destruct Hrun].
    destruct Hrun as (_ & Hall & Hlast). split_and!.
    + apply no_adjacent_same_snoc; [done|]. intros k' Hk'.
      rewrite container_kind_list_element. congruence.
    + apply Forall_app. split; [done|]. constructor; [|done].
      by apply unit_ok_list_element.
    + unfold units_blocks. by rewrite units_blocks_snoc, unit_blocks_list_element.
Qed.

Section Runs.

Lemma items_of_item_blocks k items :
  Forall (item_of_kind k) items ->
  items = items_of (item_blocks items)
  /\ Forall (fun block => list_kind block = Some k) (item_blocks items).
Proof.
  induction 1 as [|item items (block & -> & Hk) _ [IH1 IH2]]; [done|].
  unfold item_blocks, items_of in *. simpl. split.
  - by rewrite <- IH1.
  - by constructor.
Qed.

Lemma item_blocks_nonempty items :
  items <> [] -> (exists k, Forall (item_of_kind k) items) -> item_blocks items <> [].
Proof.
  intros Hne [k Hk]. destruct Hk as [|item items (block & -> & _) _]; done.
Qed.

(** The blocks of a unit, by cases: one block that is no list item, or the
    blocks of a container, all of the container's kind. *)
Lemma unit_ok_blocks unit :
  unit_ok unit ->
  (exists block, unit_blocks unit = [block] /\ list_kind block = None
                 /\ container_kind unit = None)
  \/ (exists k key, unit =
                      RElem (ListTag (Some k)) key [("className", "my-4")]
                        (items_of (unit_blocks unit))
                    /\ unit_blocks unit <> []
                    /\ Forall (fun block => list_kind block = Some k) (unit_blocks unit)
                    /\ container_kind unit = Some k).
Proof.
  destruct unit as [s|cs|tag key props items|key block]; simpl; try done.
  - intros (k & -> & -> & Hne & Hitems). right. exists k, key.
    destruct (items_of_item_blocks k items Hitems) as [Heq Hall].
    split_and!; [by rewrite <- Heq | | done | by destruct k].
    apply item_blocks_nonempty; eauto.
  - intros [-> Hk]. left. by exists block.
Qed.

Lemma units_blocks_cons unit units :
  units_blocks (unit :: units) = unit_blocks unit ++ units_blocks units.
Proof. done. Qed.

(** Units that are well formed, without two neighbouring containers of one
    kind, hold each maximal run of their blocks in one container. *)
Lemma units_hold_maximal_run k run post units : forall pre,
  Forall unit_ok units ->
  no_adjacent_same units ->
  units_blocks units = pre ++ run ++ post ->
  maximal_run k pre run post ->
  exists before after key,
    units = before
            ++ [RElem (ListTag (Some k)) key [("className", "my-4")] (items_of run)]
            ++ after
    /\ units_blocks before = pre
    /\ units_blocks after = post.
Proof.
  induction units as [|unit units IH]; intros pre Hok Hadj Hflat (Hne & Hrun & Hpre & Hpost).
  { symmetry in Hflat. apply app_eq_nil in Hflat as [_ Hflat].
    apply app_eq_nil in Hflat as [? _]. done. }
  apply Forall_cons in Hok as [Hunit Hok]. rewrite units_blocks_cons in Hflat.
  destruct run as [|r run]; [done|]. apply Forall_cons in Hrun as [Hr Hrun].
  destruct pre as [|p pre].
  - (* the run starts with this unit *)
    simpl in Hflat.
    destruct (unit_ok_blocks unit Hunit)
      as [(block & Hblocks & Hkind & _)|(k' & key & Hshape & Hbne & Hall & Hck)].
    { rewrite Hblocks in Hflat. injection Hflat as -> _. congruence. }
    assert (k' = k) as ->.
    { destruct (unit_blocks unit) as [|b bs]; [done|].
      injection Hflat as -> _. apply Forall_cons in Hall as [Hb _]. congruence. }
    assert (Hsame : unit_blocks unit = r :: run /\ units_blocks units = post).
    { apply (app_eq_inv _ _ (r :: run) post) in Hflat as [(l & Hl & Hp)|(l & Hl & Hu)].
      - destruct l as [|x l]; [by rewrite app_nil_r in Hl|].
        exfalso. apply (Hpost x); [by rewrite Hp|].
        rewrite Hl in Hall. apply Forall_app in Hall as [_ Hall].
        by apply Forall_cons in Hall as [? _].
      - destruct l as [|x l]; [by rewrite app_nil_r in Hl|].
        exfalso.
        assert (Hx : list_kind x = Some k).
        { assert (Hrr : Forall (fun block => list_kind block = Some k) (r :: run))
            by (by constructor).
          rewrite Hl in Hrr. apply Forall_app in Hrr as [_ Hrr].
          by apply Forall_cons in Hrr as [? _]. }
        destruct units as [|next units]; [done|].
        apply Forall_cons in Hok as [Hnext _]. rewrite units_blocks_cons in Hu.
        destruct Hadj as [Hadj _].
        destruct (unit_ok_blocks next Hnext)
          as [(block & Hblocks & Hkind & _)|(k' & _ & _ & Hnne & Hnall & Hnck)].
        + rewrite Hblocks in Hu. injection Hu as -> _. congruence.
        + destruct (unit_blocks next) as [|b bs]; [done|].
          injection Hu as -> _. apply Forall_cons in Hnall as [Hb _].
          assert (k' = k) as -> by congruence.
          by apply (Hadj k). }
    destruct Hsame as [Hblocks Hrest].
    exists [], units, key. split_and!; [|done..].
    simpl. by rewrite Hshape, Hblocks.
  - (* the run starts later *)
    apply (app_eq_inv _ _ (p :: pre) ((r :: run) ++ post)) in Hflat
      as [(l & Hl & Hp)|(l & Hl & Hu)].
    + destruct l as [|x l].
      * rewrite app_nil_r in Hl. simpl in Hp.
        destruct (IH [] Hok) as (before & after & key & -> & Hb & Ha).
        -- by destruct units as [|? ?]; [|destruct Hadj].
        -- done.
        -- split_and!; [done|by constructor|done|done].
        -- exists (unit :: before), after, key. split_and!; [done| |done].
           rewrite units_blocks_cons, Hb, app_nil_r. done.
      * exfalso. injection Hp as <- _.
        destruct (unit_ok_blocks unit Hunit)
          as [(block & Hblocks & _)|(k' & _ & _ & _ & Hall & _)].
        { rewrite Hblocks in Hl. destruct pre; done. }
        rewrite Hl in Hall. apply Forall_app in Hall as [Hpre' Hall].
        apply Forall_cons in Hall as [Hk _]. assert (k' = k) as -> by congruence.
        destruct (last (p :: pre)) as [b|] eqn:Hlast; [|by apply last_None in Hlast].
        apply (Hpre b eq_refl).
        apply last_Some_elem_of in Hlast. rewrite Forall_forall in Hpre'. by apply Hpre'.
    + destruct (IH l Hok) as (before & after & key & -> & Hb & Ha).
      * by destruct units as [|? ?]; [|destruct Hadj].
      * done.
      * split_and!; [done|by constructor| |done].
        intros b Hb. apply Hpre. rewrite Hl, last_app, Hb. done.
      * exists (unit :: before), after, key. split_and!; [done| |done].
        rewrite units_blocks_cons, Hb. done.
Qed.
End Runs.

(** C3.  For every sequence of blocks, the units of [groupBlocks] never hold
    two neighbouring list containers of the same kind, and every maximal run
    of list items of one kind in the input is exactly one container of that
    kind, which holds the items of the run in their order, between the units
    of the blocks before the run and the units of the blocks after it.
    Moreover, for an input that is not empty every unit is one block that is
    not a list item or one container of list items of its kind, and the units
    show the blocks of the input in the input's order; the empty input gives
    the notice of the empty state. *)
Theorem groupBlocks_merges_runs (blocks : list Block) :
  no_adjacent_same (groupBlocks blocks)
  /\ (forall k pre run post,
        blocks = pre ++ run ++ post ->
        maximal_run k pre run post ->
        exists before after key,
          groupBlocks blocks =
            before
            ++ [RElem (ListTag (Some k)) key [("className", "my-4")] (items_of run)]
            ++ after
          /\ units_blocks before = pre
          /\ units_blocks after = post)
  /\ match blocks with
     | [] =>
         groupBlocks blocks =
           [RElem "p" (Some "empty") [("className", "text-gray-500 italic")]
              [RText "コンテンツがありません"]]
     | _ :: _ =>
         Forall unit_ok (groupBlocks blocks)
         /\ units_blocks (groupBlocks blocks) = blocks
     end.
Proof.
  destruct (groupBlocks_units blocks) as [Hadj Hunits].
  split_and!; [done| |done].
  intros k pre run post Hblocks Hmax.
  destruct blocks as [|b rest].
  - destruct Hmax as (Hne & _). symmetry in Hblocks.
    apply app_eq_nil in Hblocks as [_ Hblocks]. apply app_eq_nil in Hblocks as [? _]. done.
  - destruct Hunits as [Hok Hflat].
    apply (units_hold_maximal_run k run post _ pre); [done | done | | done].
    by rewrite Hflat.
Qed.

Lemma groupBlocks_merges_runs_witness :
  maximal_run ul [paragraph "0" "p"] [bulleted "1" "a"; bulleted "2" "b"]
    [numbered "3" "c"; bulleted "4" "d"]
  /\ exists before after key,
       groupBlocks [paragraph "0" "p"; bulleted "1" "a"; bulleted "2" "b";
                    numbered "3" "c"; bulleted "4" "d"] =
         before
         ++ [RElem "ul" key [("className", "my-4")]
               [RNotionBlock "1" (bulleted "1" "a"); RNotionBlock "2" (bulleted "2" "b")]]
         ++ after
       /\ units_blocks before = [paragraph "0" "p"]
       /\ units_blocks after = [numbered "3" "c"; bulleted "4" "d"].
Proof.
  assert (Hmax : maximal_run ul [paragraph "0" "p"] [bulleted "1" "a"; bulleted "2" "b"]
                   [numbered "3" "c"; bulleted "4" "d"]).
  { split_and!; [done | by repeat constructor | by intros ? [= <-] | by intros ? [= <-]]. }
  split; [exact Hmax|].
  exact (proj1 (proj2 (groupBlocks_merges_runs
                         [paragraph "0" "p"; bulleted "1" "a"; bulleted "2" "b";
                          numbered "3" "c"; bulleted "4" "d"]))
           ul [paragraph "0" "p"] [bulleted "1" "a"; bulleted "2" "b"]
           [numbered "3" "c"; bulleted "4" "d"] eq_refl Hmax).
Defined.

(** C4.  Two bulleted items followed by a numbered item give exactly two
    units: an unordered container with the two bulleted items in the input's
    order, then an ordered container with the numbered item. *)
Theorem groupBlocks_bulleted_bulleted_numbered (a b c : Block) :
  block_type a = "bulleted_list_item" ->
  block_type b = "bulleted_list_item" ->
  block_type c = "numbered_list_item" ->
  groupBlocks [a; b; c] =
    [RElem "ul" (Some "list-2") [("className", "my-4")]
       [RNotionBlock (id a) a; RNotionBlock (id b) b];
     RElem "ol" (Some "list-last") [("className", "my-4")]
       [RNotionBlock (id c) c]].
Proof.
  intros Ha Hb Hc.
  destruct a as [ia ta ha ca ra], b as [ib tb hb cb rb], c as [ic tc hc cc rc].
  simpl in Ha, Hb, Hc. subst ta tb tc. reflexivity.
Qed.

Lemma groupBlocks_bulleted_bulleted_numbered_witness :
  block_type (bulleted "1" "a") = "bulleted_list_item"
  /\ block_type (bulleted "2" "b") = "bulleted_list_item"
  /\ block_type (numbered "3" "c") = "numbered_list_item"
  /\ groupBlocks [bulleted "1" "a"; bulleted "2" "b"; numbered "3" "c"] =
       [RElem "ul" (Some "list-2") [("className", "my-4")]
          [RNotionBlock "1" (bulleted "1" "a"); RNotionBlock "2" (bulleted "2" "b")];
        RElem "ol" (Some "list-last") [("className", "my-4")]
          [RNotionBlock "3" (numbered "3" "c")]].
Proof.
  split; [reflexivity|]. split; [reflexivity|]. split; [reflexivity|].
  apply (groupBlocks_bulleted_bulleted_numbered
           (bulleted "1" "a") (bulleted "2" "b") (numbered "3" "c")); reflexivity.
Defined.

Section RichTextProofs.

Lemma getStyleClasses_ok a type :
  color_ok (color a) = true -> exists cls, getStyleClasses a type = Ok cls.
Proof.
  intros Hc. unfold getStyleClasses.
  destruct (color a) as [| |b|n|s]; simpl in *.
  - eauto.
  - eauto.
  - apply negb_true_iff in Hc. rewrite Hc. simpl. eauto.
  - apply negb_true_iff in Hc. rewrite Hc. simpl. eauto.
  - destruct (negb (is_empty s) && negb (String.eqb s "default"))%bool; simpl; [|eauto].
    destruct (includes s "_background"); simpl; eauto.
Qed.

Lemma RichText_item_ok text a index :
  annotations text = Some a -> color_ok (color a) = true ->
  exists node, RichText_item text index = Ok node /\ is_rendered_span text a index node.
Proof.
  intros Ha Hc. unfold RichText_item. rewrite Ha.
  destruct (getStyleClasses_ok a (type_ text) Hc) as [cls ->]. simpl.
  set (content := (if truthy (underline a) then _ else _)).
  assert (Hcontent : is_styled_content text a content).
  { subst content. unfold is_styled_content, style_tags.
    destruct (truthy (underline a)), (truthy (strikethrough a)), (truthy (italic a)),
      (truthy (bold a)), (truthy (code a)); by split. }
  unfold is_rendered_span.
  destruct (href text) as [url|]; [destruct (is_empty url) eqn:He|]; simpl;
    eexists; (split; [reflexivity|]); exists content; (split; [done|]);
    rewrite ?He; eauto.
Qed.

Lemma mapi_outcome_RichText_item spans : forall start,
  Forall (fun text => span_ok text = true) spans ->
  exists nodes, mapi_outcome RichText_item start spans = Ok nodes
    /\ length nodes = length spans
    /\ forall i text a, spans !! i = Some text -> annotations text = Some a ->
         exists node, nodes !! i = Some node /\ is_rendered_span text a (start + i) node.
Proof.
  induction spans as [|text rest IH]; intros start Hok; simpl.
  - exists []. split_and!; [done..|]. intros i ? ? Hi. by rewrite lookup_nil in Hi.
  - apply Forall_cons in Hok as [Htext Hrest].
    unfold span_ok in Htext. destruct (annotations text) as [a|] eqn:Ha; [|done].
    destruct (RichText_item_ok text a start Ha Htext) as (node & -> & Hnode).
    destruct (IH (S start) Hrest) as (nodes & -> & Hlen & Hnth). simpl.
    exists (node :: nodes). split_and!; [done|by simpl; rewrite Hlen|].
    intros [|i] text' a' Hi Ha'; simpl in *.
    + injection Hi as <-. rewrite Ha in Ha'. injection Ha' as <-.
      exists node. by rewrite Nat.add_0_r.
    + replace (start + S i)%nat with (S start + i)%nat by lia. by eapply Hnth.
Qed.
End RichTextProofs.

Lemma RichText_spans_ok spans :
  Forall (fun text => span_ok text = true) spans ->
  exists r, RichText (Some spans) = Ok r
    /\ forall i text a, spans !! i = Some text -> annotations text = Some a ->
         exists nodes node, r = Some (RFragment nodes) /\ nodes !! i = Some node
           /\ is_rendered_span text a i node.
Proof.
  intros Hok. destruct spans as [|text rest].
  - exists None. split; [done|]. intros i ? ? Hi. by rewrite lookup_nil in Hi.
  - destruct (mapi_outcome_RichText_item (text :: rest) 0%nat Hok) as (nodes & Hmap & _ & Hnth).
    exists (Some (RFragment nodes)). unfold RichText. rewrite Hmap. split; [done|].
    intros i text' a Hi Ha. destruct (Hnth i text' a Hi Ha) as (node & Hnode & Hr).
    by exists nodes, node.
Qed.

Lemma wrapper_tags_nil_innermost content :
  wrapper_tags content = [] -> innermost content = content.
Proof. destruct content as [| | tag key props [|c [|c' cs]] |]; done. Qed.

(** C5.  In the rendering of a sequence of spans, each span's text is wrapped
    in the fixed order code (innermost), bold, italic, strikethrough,
    underline (outermost), each wrapper present exactly when its flag counts
    as true; the styled content is the only child of a hyperlink with
    [target="_blank"] and [rel="noopener noreferrer"] when the span's [href]
    is a string that is not empty, and of a [span] when the span has no
    [href] (for JavaScript a missing, [null] or empty one). *)
Theorem RichText_nesting_and_links (spans : list RichTextItem) (index : nat)
    (text : RichTextItem) (a : Annotations) :
  Forall (fun text => span_ok text = true) spans ->
  spans !! index = Some text ->
  annotations text = Some a ->
  exists nodes node content,
    RichText (Some spans) = Ok (Some (RFragment nodes))
    /\ nodes !! index = Some node
    /\ wrapper_tags content = style_tags a
    /\ innermost content = RFragment [RText (plain_text text)]
    /\ match href text with
       | Some url =>
           if is_empty url then
             exists props, node = RElem "span" (Some (string_of_nat index)) props [content]
           else
             exists cls,
               node = RElem "a" (Some (string_of_nat index))
                        [("href", url); ("className", cls);
                         ("target", "_blank"); ("rel", "noopener noreferrer")]
                        [content]
       | None =>
           exists props, node = RElem "span" (Some (string_of_nat index)) props [content]
       end.
Proof.
  intros Hok Hi Ha.
  destruct (RichText_spans_ok spans Hok) as (r & Hr & Hnth).
  destruct (Hnth index text a Hi Ha) as (nodes & node & -> & Hnode & content & [Ht Hin] & Hshape).
  by exists nodes, node, content.
Qed.

Lemma RichText_nesting_and_links_witness :
  Forall (fun text => span_ok text = true) [sample_span "a"; styled_link_span]
  /\ [sample_span "a"; styled_link_span] !! 1%nat = Some styled_link_span
  /\ exists nodes node content,
       RichText (Some [sample_span "a"; styled_link_span]) = Ok (Some (RFragment nodes))
       /\ nodes !! 1%nat = Some node
       /\ wrapper_tags content = ["u"; "del"; "em"; "strong"; "code"]
       /\ innermost content = RFragment [RText "styled"]
       /\ exists cls,
            node = RElem "a" (Some "1")
                     [("href", "https://example.com"); ("className", cls);
                      ("target", "_blank"); ("rel", "noopener noreferrer")]
                     [content].
Proof.
  split; [by repeat constructor|]. split; [reflexivity|].
  exact (RichText_nesting_and_links [sample_span "a"; styled_link_span] 1 styled_link_span _
           ltac:(by repeat constructor) eq_refl eq_refl).
Defined.

(** C6, as the code has it.  On every input whose spans carry their
    [annotations] object, with a color that is a string or counts as false,
    [RichText] returns and does not throw, whatever the flags hold; and a
    span none of whose flags counts as true (all missing, say) is rendered
    as its bare text, without any style wrapper. *)
Theorem RichText_total_on_annotated_spans (richText : option (list RichTextItem)) :
  (forall spans, richText = Some spans -> Forall (fun text => span_ok text = true) spans) ->
  (exists r, RichText richText = Ok r)
  /\ forall spans i text a,
       richText = Some spans -> spans !! i = Some text -> annotations text = Some a ->
       style_tags a = [] ->
       exists nodes tag key props,
         RichText richText = Ok (Some (RFragment nodes))
         /\ nodes !! i = Some (RElem tag key props [RFragment [RText (plain_text text)]]).
Proof.
  intros Hok. split.
  - destruct richText as [spans|]; [|by exists None].
    destruct (RichText_spans_ok spans (Hok _ eq_refl)) as (r & Hr & _). by exists r.
  - intros spans i text a -> Hi Ha Hstyle.
    destruct (RichText_spans_ok spans (Hok _ eq_refl)) as (r & Hr & Hnth).
    destruct (Hnth i text a Hi Ha)
      as (nodes & node & -> & Hnode & content & [Ht Hin] & Hshape).
    rewrite Hstyle in Ht. rewrite (wrapper_tags_nil_innermost _ Ht) in Hin. subst content.
    exists nodes. rewrite Hr.
    destruct (href text) as [url|]; [destruct (is_empty url)|];
      destruct Hshape as [x ->]; eauto 10.
Qed.

Lemma RichText_total_on_annotated_spans_witness :
  (forall spans,
      Some [mkRichTextItem "text" (Some no_annotations) "bare" None] = Some spans ->
      Forall (fun text => span_ok text = true) spans)
  /\ (exists r, RichText (Some [mkRichTextItem "text" (Some no_annotations) "bare" None]) = Ok r)
  /\ exists nodes tag key props,
       RichText (Some [mkRichTextItem "text" (Some no_annotations) "bare" None])
         = Ok (Some (RFragment nodes))
       /\ nodes !! 0%nat = Some (RElem tag key props [RFragment [RText "bare"]]).
Proof.
  assert (H : forall spans,
             Some [mkRichTextItem "text" (Some no_annotations) "bare" None] = Some spans ->
             Forall (fun text => span_ok text = true) spans).
  { intros spans [= <-]. by repeat constructor. }
  split; [exact H|].
  destruct (RichText_total_on_annotated_spans _ H) as [Hr Hbare].
  split; [exact Hr|].
  exact (Hbare _ 0%nat _ no_annotations eq_refl eq_refl eq_refl eq_refl).
Defined.

(** C6, as the specification states it, fails: a span whose [annotations] is
    absent makes [RichText] throw a [TypeError]. *)
Lemma RichText_throws_without_annotations :
  RichText (Some [span_without_annotations]) =
    Throw (TypeError
             "Cannot destructure property 'bold' of 'annotations' as it is undefined.").
Proof. reflexivity. Qed.

(** * Properties of the cache *)

Section CacheProofs.
Context {X : Type} `{Platform X}.

Lemma Qltb_lt a b : Qltb a b = true <-> (a < b)%Q.
Proof.
  unfold Qltb. rewrite negb_true_iff. split.
  - intros Hle. apply Qnot_le_lt. intros Hba.
    apply Qle_bool_iff in Hba. congruence.
  - intros Hlt. destruct (Qle_bool b a) eqn:Hle; [|done].
    apply Qle_bool_iff in Hle. by apply Qlt_not_le in Hlt.
Qed.

Lemma refresh_fraction_given config q :
  refreshThreshold config = Some q -> ~ (q == 0)%Q -> refresh_fraction config = q.
Proof.
  intros Hq Hnz. unfold refresh_fraction. rewrite Hq.
  destruct (Qeq_bool q 0) eqn:Heq; [|done].
  apply Qeq_bool_iff in Heq. done.
Qed.

Lemma fetch_fresh_ok key (fetchFn : M X Value) config now cachedItem w d w1 :
  fetchFn w = Done (Ok d) w1 ->
  fetch_fresh key fetchFn config now cachedItem w =
    Done (Ok d)
      (set_cache (<[key := mkCacheItem d now (now + ttl config)]> (cache w1)) w1).
Proof.
  intros Hf. unfold fetch_fresh, try_catch, mbind, M_bind. by rewrite Hf.
Qed.

Lemma fetch_fresh_throw key (fetchFn : M X Value) config now cachedItem w err w1 :
  fetchFn w = Done (Throw err) w1 ->
  fetch_fresh key fetchFn config now cachedItem w =
    match cachedItem with
    | Some item => Done (Ok (data item)) w1
    | None => Done (Throw err) w1
    end.
Proof.
  intros Hf. unfold fetch_fresh, try_catch, mbind, M_bind. rewrite Hf.
  by destruct cachedItem.
Qed.

Lemma getFromCacheOrFetch_miss key (fetchFn : M X Value) config (w : World X) :
  cache w !! key = None ->
  getFromCacheOrFetch key fetchFn config w =
    fetch_fresh key fetchFn config (Date_now (ext w)) None w.
Proof. intros Hk. unfold getFromCacheOrFetch. by rewrite Hk. Qed.

Lemma getFromCacheOrFetch_expired key (fetchFn : M X Value) config (w : World X) item :
  cache w !! key = Some item -> expiresAt item <= Date_now (ext w) ->
  getFromCacheOrFetch key fetchFn config w =
    fetch_fresh key fetchFn config (Date_now (ext w)) (Some item) w.
Proof.
  intros Hk Hexp. unfold getFromCacheOrFetch. rewrite Hk.
  destruct (Z.ltb_spec (Date_now (ext w)) (expiresAt item)); [lia|done].
Qed.

Lemma getFromCacheOrFetch_fresh key (fetchFn : M X Value) config (w : World X) item :
  cache w !! key = Some item -> Date_now (ext w) < expiresAt item ->
  getFromCacheOrFetch key fetchFn config w =
    Done (Ok (data item))
      (if refresh_due (Date_now (ext w)) item config
       then mkWorld (cache w) (env_NOTION_DATABASE_ID w) (ext w) (calls w)
              (refreshes w ++ [key])
       else w).
Proof.
  intros Hk Hfresh. unfold getFromCacheOrFetch. rewrite Hk.
  destruct (Z.ltb_spec (Date_now (ext w)) (expiresAt item)); [|lia].
  unfold mbind, M_bind.
  by destruct (refresh_due (Date_now (ext w)) item config).
Qed.

Lemma background_refresh_settles key (fetchFn : M X Value) config (w : World X) o w1 :
  fetchFn w = Done o w1 ->
  background_refresh key fetchFn config w =
    Done (Ok tt)
      match o with
      | Ok d =>
          set_cache
            (<[key := mkCacheItem d (Date_now (ext w1)) (Date_now (ext w1) + ttl config)]>
               (cache w1)) w1
      | Throw _ => w1
      end.
Proof.
  intros Hf. unfold background_refresh, try_catch, mbind, M_bind. rewrite Hf.
  by destruct o.
Qed.

Lemma clearCache_removes keyPrefix key (w : World X) :
  match keyPrefix with
  | Some p => is_empty p = true \/ startsWith key p = true
  | None => True
  end ->
  cache (clearCache keyPrefix w) !! key = None.
Proof.
  intros Hp. unfold clearCache, truthy_str.
  destruct keyPrefix as [p|]; [|done].
  destruct (is_empty p) eqn:He; simpl; [done|].
  destruct Hp as [?|Hp]; [done|].
  apply map_lookup_filter_None. right. intros item _. simpl. by rewrite Hp.
Qed.

Lemma clearCache_keeps p key (w : World X) :
  is_empty p = false -> startsWith key p = false ->
  cache (clearCache (Some p) w) !! key = cache w !! key.
Proof.
  intros He Hp. unfold clearCache, truthy_str. rewrite He. simpl.
  destruct (cache w !! key) as [item|] eqn:Hk.
  - by apply map_lookup_filter_Some.
  - apply map_lookup_filter_None. by left.
Qed.

(** C1.  A lookup of a key whose entry has not expired returns the stored
    data at once: the result does not depend on the fetch function, which
    is not run, and the state is the one before the call, except that a
    background refresh of the key is recorded exactly when
    [now > timestamp + ttl * refreshThreshold] (with the given threshold
    when it is not zero, 0.8 when it is missing or zero).  However that refresh
    settles, on a fresh value or on an error of the fetch, it throws
    nothing; after an error the state is the one the fetch left. *)
Theorem fresh_entry_is_returned_without_fetch (w : World X) (key : string)
    (fetchFn : M X Value) (config : CacheConfig) (item : CacheItem) :
  cache w !! key = Some item ->
  Date_now (ext w) < expiresAt item ->
  let now := Date_now (ext w) in
  let due := (inject_Z (timestamp item) + inject_Z (ttl config) * refresh_fraction config
              < inject_Z now)%Q in
  (exists w',
      getFromCacheOrFetch key fetchFn config w = Done (Ok (data item)) w'
      /\ cache w' = cache w /\ ext w' = ext w /\ calls w' = calls w
      /\ env_NOTION_DATABASE_ID w' = env_NOTION_DATABASE_ID w
      /\ (due -> refreshes w' = refreshes w ++ [key])
      /\ (~ due -> refreshes w' = refreshes w))
  /\ (forall q, refreshThreshold config = Some q -> ~ (q == 0)%Q ->
                refresh_fraction config = q)
  /\ (refreshThreshold config = None -> refresh_fraction config = (8 # 10)%Q)
  /\ (forall w2 o w3, fetchFn w2 = Done o w3 ->
        exists w4, background_refresh key fetchFn config w2 = Done (Ok tt) w4
                   /\ (forall e, o = Throw e -> w4 = w3)).
Proof.
  intros Hk Hfresh now due. split_and!.
  - rewrite (getFromCacheOrFetch_fresh _ _ _ _ _ Hk Hfresh).
    fold now. destruct (refresh_due now item config) eqn:Hdue.
    + eexists. split; [reflexivity|]. simpl. split_and!; try done.
      intros Hn. apply Qltb_lt in Hdue. done.
    + exists w. split_and!; try done.
      intros Hd. apply Qltb_lt in Hd. unfold refresh_due in Hdue. congruence.
  - apply refresh_fraction_given.
  - intros Hn. unfold refresh_fraction. by rewrite Hn.
  - intros w2 o w3 Hf. eexists. split; [by apply background_refresh_settles|].
    by intros e ->.
Qed.

(** C2.  A lookup of a key whose entry has expired runs the fetch function
    on the state of the call: when the fetch succeeds, the entry is
    replaced by a new one that holds the fresh data, stamped with the
    instant of the call, and the fresh data is returned; when the fetch
    throws, the data of the expired entry is returned and nothing is
    thrown.  A lookup of a key without entry rethrows the error of the
    fetch, and [clearCache] leaves no entry for a key it removes. *)
Theorem expired_entry_is_refetched_with_fallback (w : World X) (key : string)
    (fetchFn : M X Value) (config : CacheConfig) (item : CacheItem) :
  cache w !! key = Some item ->
  expiresAt item <= Date_now (ext w) ->
  let now := Date_now (ext w) in
  (forall d w1, fetchFn w = Done (Ok d) w1 ->
      getFromCacheOrFetch key fetchFn config w =
        Done (Ok d)
          (set_cache (<[key := mkCacheItem d now (now + ttl config)]> (cache w1)) w1))
  /\ (forall err w1, fetchFn w = Done (Throw err) w1 ->
        getFromCacheOrFetch key fetchFn config w = Done (Ok (data item)) w1)
  /\ (forall w0 err w1, cache w0 !! key = None -> fetchFn w0 = Done (Throw err) w1 ->
        getFromCacheOrFetch key fetchFn config w0 = Done (Throw err) w1)
  /\ (forall keyPrefix err w1,
        match keyPrefix with
        | Some p => is_empty p = true \/ startsWith key p = true
        | None => True
        end ->
        fetchFn (clearCache keyPrefix w) = Done (Throw err) w1 ->
        getFromCacheOrFetch key fetchFn config (clearCache keyPrefix w)
          = Done (Throw err) w1).
Proof.
  intros Hk Hexp now. split_and!.
  - intros d w1 Hf. rewrite (getFromCacheOrFetch_expired _ _ _ _ _ Hk Hexp).
    by apply fetch_fresh_ok.
  - intros err w1 Hf. rewrite (getFromCacheOrFetch_expired _ _ _ _ _ Hk Hexp).
    by rewrite (fetch_fresh_throw _ _ _ _ _ _ _ _ Hf).
  - intros w0 err w1 Hk0 Hf. rewrite (getFromCacheOrFetch_miss _ _ _ _ Hk0).
    by rewrite (fetch_fresh_throw _ _ _ _ _ _ _ _ Hf).
  - intros keyPrefix err w1 Hp Hf.
    rewrite (getFromCacheOrFetch_miss _ _ _ _ (clearCache_removes _ _ _ Hp)).
    by rewrite (fetch_fresh_throw _ _ _ _ _ _ _ _ Hf).
Qed.
End CacheProofs.

Lemma fresh_entry_is_returned_without_fetch_witness :
  cache (one_entry_world 250000) !! "k" = Some (sample_item (VStrings ["stored"]))
  /\ Date_now (ext (one_entry_world 250000)) < expiresAt (sample_item (VStrings ["stored"]))
  /\ exists w',
       getFromCacheOrFetch "k" failing_fetch DEFAULT_CACHE_CONFIG (one_entry_world 250000)
         = Done (Ok (VStrings ["stored"])) w'
       /\ cache w' = cache (one_entry_world 250000)
       /\ calls w' = []
       /\ refreshes w' = ["k"].
Proof.
  assert (Hfresh : Date_now (ext (one_entry_world 250000))
                   < expiresAt (sample_item (VStrings ["stored"])))
    by (vm_compute; reflexivity).
  split; [reflexivity|]. split; [exact Hfresh|].
  destruct (fresh_entry_is_returned_without_fetch (one_entry_world 250000) "k" failing_fetch
              DEFAULT_CACHE_CONFIG (sample_item (VStrings ["stored"])) eq_refl Hfresh)
    as [(w' & Hrun & Hcache & _ & Hcalls & _ & Hdue & _) _].
  exists w'. split; [exact Hrun|]. split; [exact Hcache|]. split; [exact Hcalls|].
  apply Hdue. reflexivity.
Defined.

Lemma expired_entry_is_refetched_with_fallback_witness :
  cache (one_entry_world 300000) !! "k" = Some (sample_item (VStrings ["stored"]))
  /\ expiresAt (sample_item (VStrings ["stored"])) <= Date_now (ext (one_entry_world 300000))
  /\ getFromCacheOrFetch "k" failing_fetch DEFAULT_CACHE_CONFIG (one_entry_world 300000)
       = Done (Ok (VStrings ["stored"])) (one_entry_world 300000)
  /\ getFromCacheOrFetch "k" failing_fetch DEFAULT_CACHE_CONFIG
       (clearCache (Some "k") (one_entry_world 300000))
       = Done (Throw (Error "boom")) (clearCache (Some "k") (one_entry_world 300000)).
Proof.
  assert (Hexpired : expiresAt (sample_item (VStrings ["stored"]))
                     <= Date_now (ext (one_entry_world 300000)))
    by (vm_compute; discriminate).
  split; [reflexivity|]. split; [exact Hexpired|].
  destruct (expired_entry_is_refetched_with_fallback (one_entry_world 300000) "k"
              failing_fetch DEFAULT_CACHE_CONFIG (sample_item (VStrings ["stored"]))
              eq_refl Hexpired)
    as (_ & Hstale & _ & Hcleared).
  split.
  - exact (Hstale (Error "boom") (one_entry_world 300000) eq_refl).
  - exact (Hcleared (Some "k") (Error "boom") (clearCache (Some "k") (one_entry_world 300000))
             (or_intror eq_refl) eq_refl).
Defined.

Section DatabaseProofs.
Context {X : Type} `{Platform X}.

Lemma require_database_id_unset (w : World X) :
  truthy_str (env_NOTION_DATABASE_ID w) = false ->
  require_database_id w = Done (Throw configuration_error) w.
Proof.
  unfold require_database_id, truthy_str.
  destruct (env_NOTION_DATABASE_ID w) as [s|]; [|done].
  by destruct (is_empty s).
Qed.

(** C8.  Without collection identifier, [getFormattedDatabase] throws the
    configuration error and leaves the state as it was: no remote call is
    made, nothing is stored in the cache and no refresh is started;
    and this is so whatever the cache holds, the cache is not read. *)
Theorem getFormattedDatabase_unset_throws_at_once (w : World X) (filterByStatus : bool)
    (status : string) :
  env_NOTION_DATABASE_ID w = None ->
  getFormattedDatabase filterByStatus status w = Done (Throw configuration_error) w
  /\ forall c,
       getFormattedDatabase filterByStatus status (set_cache c w)
         = Done (Throw configuration_error) (set_cache c w).
Proof.
  intros Hunset. split.
  - unfold getFormattedDatabase, mbind, M_bind.
    rewrite require_database_id_unset; [done|]. by rewrite Hunset.
  - intros c. unfold getFormattedDatabase, mbind, M_bind.
    rewrite require_database_id_unset; [done|]. simpl. by rewrite Hunset.
Qed.
End DatabaseProofs.

Lemma getFormattedDatabase_unset_throws_at_once_witness :
  env_NOTION_DATABASE_ID unconfigured_world = None
  /\ is_Some (cache unconfigured_world !! "formatted-database:true:Public")
  /\ getFormattedDatabase true "Public" unconfigured_world
       = Done (Throw configuration_error) unconfigured_world.
Proof.
  split; [reflexivity|]. split; [by eexists|].
  exact (proj1 (getFormattedDatabase_unset_throws_at_once unconfigured_world true "Public"
                  eq_refl)).
Defined.

(** C9, where the code departs from it.  On a configured world with an empty
    cache, a search fetches the listing and stores it in the cache under the
    key of [getFormattedDatabase(false)]; a second later the workspace has a
    second page that matches, and the same search returns the first answer
    again, from the cache entry, without any remote call. *)
Lemma searchPages_stores_and_reuses_the_listing :
  exists w1,
    searchPages "alpha" search_world_before = Done (Ok (VPages [formatted "p1" "Alpha"])) w1
    /\ cache w1 !! "formatted-database:false:Public"
         = Some (mkCacheItem (VPages [formatted "p1" "Alpha"]) 0 300000)
    /\ length (calls w1) = 1%nat
    /\ searchPages "alpha" (search_world_after w1)
         = Done (Ok (VPages [formatted "p1" "Alpha"])) (search_world_after w1)
    /\ fetchFormattedDatabase false "Public" (search_world_after w1)
         = Done (Ok (VPages [formatted "p2" "Alpha two"; formatted "p1" "Alpha"]))
             (mkWorld (cache w1) (Some "db")
                (ext (search_world_after w1))
                (calls w1 ++ [DatabasesQuery (mkQueryOptions "db" date_descending None)])
                (refreshes w1)).
Proof.
  eexists. split; [vm_compute; reflexivity|].
  split; [vm_compute; reflexivity|].
  split; [reflexivity|].
  split; vm_compute; reflexivity.
Qed.

(** * Properties of the client *)

Section PaginationProofs.
Context {X : Type} `{Platform X}.

Lemma page_requests_length blockId cursor rs :
  length (page_requests blockId cursor rs) = length rs.
Proof. revert cursor. induction rs as [|r rest IH]; intros cursor; simpl; [done|]. by rewrite IH. Qed.

Lemma list_all_children_pages blockId rs : forall fuel cursor x x' allBlocks (w : World X),
  serves_pages blockId cursor x rs x' ->
  ext w = x ->
  (forall c, cursor = Some c -> is_empty c = false) ->
  (length rs <= fuel)%nat ->
  list_all_children fuel blockId allBlocks cursor w =
    Done (Ok (allBlocks ++ concat (map results rs)))
      (after_calls w x' (page_requests blockId cursor rs)).
Proof.
  intros fuel cursor x x' allBlocks w Hs. revert fuel allBlocks w.
  induction Hs as [cursor x r x' Hr Hmore | cursor x r x' c rs x'' Hr Hmore Hc Hne Hs IH];
    intros fuel allBlocks w Hext Hcur Hfuel.
  - destruct fuel as [|fuel]; [simpl in Hfuel; lia|]. simpl.
    assert (Hsend : (if truthy_str cursor then cursor else None) = cursor).
    { destruct cursor as [c|]; [|done]. simpl. by rewrite (Hcur c eq_refl). }
    rewrite Hsend.
    unfold mbind, M_bind, notion_blocks_children_list, log_call.
    rewrite Hext, Hr, Hmore. simpl. by rewrite app_nil_r.
  - destruct fuel as [|fuel]; [simpl in Hfuel; lia|]. simpl.
    assert (Hsend : (if truthy_str cursor then cursor else None) = cursor).
    { destruct cursor as [c0|]; [|done]. simpl. by rewrite (Hcur c0 eq_refl). }
    rewrite Hsend.
    unfold mbind, M_bind, notion_blocks_children_list, log_call.
    rewrite Hext, Hr, Hmore. simpl.
    rewrite Hc. simpl. rewrite Hne.
    rewrite (IH fuel (allBlocks ++ results r)
               (mkWorld (cache w) (env_NOTION_DATABASE_ID w) x'
                  (calls w ++ [BlocksChildrenList blockId cursor 100]) (refreshes w))).
    + unfold after_calls. simpl. by rewrite <- !app_assoc.
    + done.
    + by intros ? [= <-].
    + simpl in Hfuel. lia.
Qed.

Lemma filter_with_children_nil (bs : list Block) :
  Forall (fun b => with_children b = false) bs -> List.filter with_children bs = [].
Proof.
  induction 1 as [|b bs Hb _ IH]; simpl; [done|]. by rewrite Hb.
Qed.

(** What [resolve_children] returns: the blocks it was given, each as it
    was or with its children set. *)
Lemma resolve_children_shape (getBlocks : string -> M X Value) allBlocks :
  forall (w : World X) bs w',
    resolve_children getBlocks allBlocks w = Done (Ok bs) w' ->
    Forall2 (fun block block' => block' = block \/ exists cs, block' = set_children block cs)
      allBlocks bs.
Proof.
  unfold resolve_children.
  induction allBlocks as [|block rest IH]; intros w bs w'; simpl.
  - intros [= <- _]. constructor.
  - unfold mbind, M_bind.
    destruct (with_children block).
    + destruct (getBlocks (id block) w) as [[v|e] w1| |]; try done.
      destruct v as [|cs| | | |]; try done. simpl.
      destruct (mapM _ rest w1) as [[bs'|e] w2| |] eqn:Hrest; try done.
      intros [= <- _]. constructor; [eauto|]. by eapply IH.
    + simpl. destruct (mapM _ rest w) as [[bs'|e] w2| |] eqn:Hrest; try done.
      intros [= <- _]. constructor; [eauto|]. by eapply IH.
Qed.

(** C7.  When the service answers the cursor-following requests for the
    children of a block with the pages [rs], the loop of [getBlocks] makes
    exactly those requests, one for each page (each of page size 100, the
    first without cursor, each later one with the cursor the page before
    returned), stops at the first page that reports no further page, and
    yields the blocks of the pages in the order of the pages.  When the
    cache has no entry for the block that is still valid and none of these
    blocks has children to resolve, [getBlocks] returns that list and
    stores it; and whenever the fetch of [getBlocks] returns, it returns
    these blocks in this order, each as it came or with its children set. *)
Theorem getBlocks_follows_the_cursors (fuel : nat) (blockId : string) (w : World X)
    (rs : list ListResponse) (x' : X) :
  serves_pages blockId None (ext w) rs x' ->
  (length rs <= fuel)%nat ->
  let allBlocks := concat (map results rs) in
  let w' := after_calls w x' (page_requests blockId None rs) in
  let now := Date_now (ext w) in
  list_all_children fuel blockId [] None w = Done (Ok allBlocks) w'
  /\ length (page_requests blockId None rs) = length rs
  /\ (match cache w !! ("blocks:" +:+ blockId) with
      | Some item => expiresAt item <= now
      | None => True
      end ->
      Forall (fun b => with_children b = false) allBlocks ->
      getBlocks (S fuel) blockId w =
        Done (Ok (VBlocks allBlocks))
          (set_cache
             (<["blocks:" +:+ blockId :=
                  mkCacheItem (VBlocks allBlocks) now (now + ttl DEFAULT_CACHE_CONFIG)]>
                (cache w')) w'))
  /\ (forall v w'',
        fetchBlockTree (getBlocks fuel) fuel blockId w = Done (Ok v) w'' ->
        exists bs,
          v = VBlocks bs
          /\ Forall2 (fun block block' =>
                        block' = block \/ exists cs, block' = set_children block cs)
               allBlocks bs).
Proof.
  intros Hs Hfuel allBlocks w' now.
  assert (Hloop : list_all_children fuel blockId [] None w = Done (Ok allBlocks) w').
  { by rewrite (list_all_children_pages blockId rs fuel None (ext w) x' [] w Hs). }
  split_and!; [done|apply page_requests_length| |].
  2:{ intros v w''. unfold fetchBlockTree, try_catch, mbind, M_bind. rewrite Hloop.
      destruct (List.filter with_children allBlocks) as [|b bs'].
      - intros [= <- _]. exists allBlocks. split; [done|].
        apply Forall2_same_length_lookup_2; [done|]. intros i b b' Hb Hb'. left. congruence.
      - destruct (resolve_children (getBlocks fuel) allBlocks w') as [[bs|e] w1| |] eqn:Hres;
          try done.
        intros [= <- _]. exists bs. split; [done|].
        by eapply resolve_children_shape. }
  intros Hmiss Hleaf.
  change (getBlocks (S fuel) blockId) with
    (getFromCacheOrFetch ("blocks:" +:+ blockId)
       (fetchBlockTree (getBlocks fuel) fuel blockId) DEFAULT_CACHE_CONFIG).
  assert (Hfetch : getFromCacheOrFetch ("blocks:" +:+ blockId)
                     (fetchBlockTree (getBlocks fuel) fuel blockId) DEFAULT_CACHE_CONFIG w
                   = fetch_fresh ("blocks:" +:+ blockId)
                       (fetchBlockTree (getBlocks fuel) fuel blockId) DEFAULT_CACHE_CONFIG
                       now (cache w !! ("blocks:" +:+ blockId)) w).
  { destruct (cache w !! ("blocks:" +:+ blockId)) as [item|] eqn:Hk.
    - by rewrite (getFromCacheOrFetch_expired _ _ _ _ _ Hk Hmiss).
    - by rewrite (getFromCacheOrFetch_miss _ _ _ _ Hk). }
  rewrite Hfetch.
  apply (fetch_fresh_ok _ _ _ _ _ w (VBlocks allBlocks) w').
  unfold fetchBlockTree, try_catch, mbind, M_bind. rewrite Hloop.
  by rewrite (filter_with_children_nil _ Hleaf).
Qed.
End PaginationProofs.

Lemma getBlocks_follows_the_cursors_witness :
  serves_pages "paginated-blocks" None (ext pagination_world)
    [sample_first_page; sample_second_page] (ext pagination_world)
  /\ (length [sample_first_page; sample_second_page] <= 2)%nat
  /\ exists w',
       getBlocks 3 "paginated-blocks" pagination_world
         = Done (Ok (VBlocks [paragraph "b0" "zero"; paragraph "b1" "one";
                              paragraph "b2" "two"; paragraph "b3" "three"])) w'
       /\ calls w' = [BlocksChildrenList "paginated-blocks" None 100;
                      BlocksChildrenList "paginated-blocks" (Some "next-page") 100].
Proof.
  assert (Hs : serves_pages "paginated-blocks" None (ext pagination_world)
                 [sample_first_page; sample_second_page] (ext pagination_world)).
  { eapply serves_more; [reflexivity..|]. by apply serves_last. }
  split; [exact Hs|]. split; [apply le_n|].
  destruct (getBlocks_follows_the_cursors 2 "paginated-blocks" pagination_world _ _ Hs
              (le_n _)) as (_ & _ & Hget & _).
  eexists. split; [apply Hget; [exact I | by repeat constructor]|].
  reflexivity.
Defined.

Section ListingProofs.
Context {X : Type} `{Platform X}.

Lemma cache_inv_empty : cache_inv ∅.
Proof. intros key item Hk. by rewrite lookup_empty in Hk. Qed.

Lemma cache_inv_insert c key item :
  cache_inv c -> fits key (data item) -> cache_inv (<[key := item]> c).
Proof.
  intros Hc Hfit k i Hk. destruct (decide (key = k)) as [->|Hne].
  - rewrite lookup_insert_eq in Hk. by injection Hk as <-.
  - rewrite lookup_insert_ne in Hk by done. by eapply Hc.
Qed.

Lemma cache_inv_filter (P : string * CacheItem -> Prop) `{!forall kv, Decision (P kv)} c :
  cache_inv c -> cache_inv (filter P c).
Proof.
  intros Hc k i Hk. apply map_lookup_filter_Some in Hk as [Hk _]. by eapply Hc.
Qed.

Lemma cache_inv_clearCache keyPrefix (w : World X) :
  cache_inv (cache w) -> cache_inv (cache (clearCache keyPrefix w)).
Proof.
  intros Hc. unfold clearCache. destruct (truthy_str keyPrefix); simpl.
  - by apply cache_inv_filter.
  - apply cache_inv_empty.
Qed.

Lemma prefix_append p s : String.prefix p (p +:+ s) = true.
Proof.
  induction p as [|a p IH]; simpl; [by destruct s|].
  by destruct (ascii_dec a a).
Qed.

(** *** The values that fit the keys of the client *)

Lemma fits_page pageId v : is_page v <-> fits ("page:" +:+ pageId) v.
Proof.
  split.
  - intros Hv. by split_and!.
  - intros (_ & Hp & _). apply Hp, (prefix_append "page:").
Qed.

Lemma fits_blocks blockId v : is_blocks v <-> fits ("blocks:" +:+ blockId) v.
Proof.
  split.
  - intros Hv. by split_and!.
  - intros (_ & _ & Hb). apply Hb, (prefix_append "blocks:").
Qed.

Lemma fits_database filterByStatus status v :
  block_free v <->
  fits ("formatted-database:" +:+ string_of_bool filterByStatus +:+ ":" +:+ status) v.
Proof.
  split.
  - intros Hv. by split_and!.
  - intros (Hl & _). apply Hl. unfold is_listing_key. by rewrite prefix_append.
Qed.

Lemma fits_tag tag v : block_free v <-> fits ("pages-by-tag:" +:+ tag) v.
Proof.
  split.
  - intros Hv. by split_and!.
  - intros (Hl & _). apply Hl. unfold is_listing_key.
    rewrite (prefix_append "pages-by-tag:"). by rewrite orb_true_r.
Qed.

Lemma fits_category category v :
  block_free v <-> fits ("pages-by-category:" +:+ category) v.
Proof.
  split.
  - intros Hv. by split_and!.
  - intros (Hl & _). apply Hl. unfold is_listing_key.
    rewrite (prefix_append "pages-by-category:"). by rewrite orb_true_r.
Qed.

(** *** The rules of [keeps] *)

Lemma keeps_ret {A} (a : A) (Q : A -> Prop) : Q a -> keeps (mret a : M X A) Q.
Proof. intros HQ w Hw. by split. Qed.

Lemma keeps_throw {A} e (Q : A -> Prop) : keeps (throw e : M X A) Q.
Proof. by intros w Hw. Qed.

Lemma keeps_bind {A B} (m : M X A) (k : A -> M X B) (Q : A -> Prop) (R : B -> Prop) :
  keeps m Q -> (forall a, Q a -> keeps (k a) R) -> keeps (m ≫= k) R.
Proof.
  intros Hm Hk w Hw. specialize (Hm w Hw). unfold mbind, M_bind.
  destruct (m w) as [[a|e] w'| |]; try done.
  destruct Hm as [Hw' Ha]. by apply Hk.
Qed.

Lemma keeps_try_catch {A} (body : M X A) handler (Q : A -> Prop) :
  keeps body Q -> (forall e, keeps (handler e) Q) -> keeps (try_catch body handler) Q.
Proof.
  intros Hb Hh w Hw. specialize (Hb w Hw). unfold try_catch.
  destruct (body w) as [[a|e] w'| |]; try done. by apply Hh.
Qed.

Lemma keeps_weaken {A} (m : M X A) (Q R : A -> Prop) :
  keeps m Q -> (forall a, Q a -> R a) -> keeps m R.
Proof.
  intros Hm HQR w Hw. specialize (Hm w Hw).
  destruct (m w) as [[a|e] w'| |]; try done. destruct Hm. split; auto.
Qed.

(** A step that does not touch the cache. *)
Lemma keeps_same_cache {A} (m : M X A) (Q : A -> Prop) :
  (forall w, match m w with
             | Done (Ok a) w' => cache w' = cache w /\ Q a
             | Done (Throw _) w' => cache w' = cache w
             | OutOfFuel => True
             | IllTyped => False
             end) ->
  keeps m Q.
Proof.
  intros Hm w Hw. specialize (Hm w).
  destruct (m w) as [[a|e] w'| |]; try done.
  - destruct Hm as [-> Ha]. done.
  - by rewrite Hm.
Qed.

Lemma keeps_log_call {A} call (run : X -> Outcome A * X) :
  keeps (log_call call run) anything.
Proof.
  apply keeps_same_cache. intros w. unfold log_call.
  destruct (run (ext w)) as [[a|e] x']; done.
Qed.

Lemma keeps_require_database_id : keeps (require_database_id : M X string) anything.
Proof.
  apply keeps_same_cache. intros w. unfold require_database_id.
  destruct (env_NOTION_DATABASE_ID w) as [s|]; [destruct (is_empty s)|]; done.
Qed.

Lemma keeps_as_page v : is_page v -> keeps (as_page v : M X _) anything.
Proof. intros [p ->]. by apply keeps_ret. Qed.

Lemma keeps_as_blocks v : is_blocks v -> keeps (as_blocks v : M X _) anything.
Proof. intros [bs ->]. by apply keeps_ret. Qed.

Lemma keeps_as_pages v :
  block_free v -> keeps (as_pages v : M X _) (fun ps => Forall (fun p => blocks p = []) ps).
Proof. intros (ps & -> & Hps). by apply keeps_ret. Qed.

Lemma keeps_await_formatPage page bs :
  keeps (await_formatPage page bs) anything.
Proof.
  apply keeps_same_cache. intros w. unfold await_formatPage, lift_outcome.
  destruct (formatPage (ext w) page bs); done.
Qed.

Lemma formatPage_blocks x page bs p :
  formatPage x page bs = Ok p -> blocks p = default [] bs.
Proof.
  unfold formatPage. destruct (iso_of_date _); [|done]. destruct (iso_of_date _); [|done].
  by intros [= <-].
Qed.

Lemma formatPages_no_blocks x pages : forall start ps,
  mapi_outcome (fun page _ => formatPage x page None) start pages = Ok ps ->
  Forall (fun p => blocks p = []) ps.
Proof.
  induction pages as [|page rest IH]; intros start ps; simpl.
  - by intros [= <-].
  - unfold mbind, outcome_bind.
    destruct (formatPage x page None) as [p|e] eqn:Hp; [|done].
    destruct (mapi_outcome _ (S start) rest) as [ps'|e] eqn:Hrest; [|done].
    intros [= <-]. constructor; [|by eapply IH].
    by rewrite (formatPage_blocks _ _ _ _ Hp).
Qed.

Lemma keeps_await_formatPages pages :
  keeps (await_formatPages pages) (fun ps => Forall (fun p => blocks p = []) ps).
Proof.
  apply keeps_same_cache. intros w. unfold await_formatPages, lift_outcome.
  destruct (formatPages (ext w) pages) as [ps|e] eqn:Hps; [|done].
  split; [done|]. by eapply formatPages_no_blocks.
Qed.

Lemma keeps_getFromCacheOrFetch key fetchFn config :
  keeps fetchFn (fits key) -> keeps (getFromCacheOrFetch key fetchFn config) (fits key).
Proof.
  intros Hf w Hw. unfold getFromCacheOrFetch.
  assert (Hfresh : forall cachedItem,
             (forall item, cachedItem = Some item -> fits key (data item)) ->
             match fetch_fresh key fetchFn config (Date_now (ext w)) cachedItem w with
             | Done (Ok a) w' => cache_inv (cache w') /\ fits key a
             | Done (Throw _) w' => cache_inv (cache w')
             | OutOfFuel => True
             | IllTyped => False
             end).
  { intros cachedItem Hitem. unfold fetch_fresh, try_catch, mbind, M_bind.
    specialize (Hf w Hw). destruct (fetchFn w) as [[d|e] w1| |]; try done.
    - destruct Hf as [Hw1 Hd]. simpl. split; [|done]. by apply cache_inv_insert.
    - destruct cachedItem as [item|]; simpl; [|done]. split; [done|]. by apply Hitem. }
  destruct (cache w !! key) as [item|] eqn:Hk.
  - assert (Hitem : fits key (data item)) by (by eapply Hw).
    destruct (Date_now (ext w) <? expiresAt item)%Z.
    + unfold mbind, M_bind.
      destruct (refresh_due (Date_now (ext w)) item config); simpl; done.
    + apply Hfresh. by intros ? [= <-].
  - apply Hfresh. done.
Qed.

Lemma keeps_background_refresh key fetchFn config :
  keeps fetchFn (fits key) -> keeps (background_refresh key fetchFn config) anything.
Proof.
  intros Hf w Hw. unfold background_refresh, try_catch, mbind, M_bind.
  specialize (Hf w Hw). destruct (fetchFn w) as [[d|e] w1| |]; try done.
  destruct Hf as [Hw1 Hd]. simpl. split; [|done]. by apply cache_inv_insert.
Qed.

(** A key that is of none of the three families takes any value. *)
Lemma fits_other key v :
  is_listing_key key = false -> String.prefix "page:" key = false ->
  String.prefix "blocks:" key = false -> fits key v.
Proof. intros Hl Hp Hb. split_and!; congruence. Qed.

Lemma keeps_mapM {A B} (f : A -> M X B) (l : list A) :
  (forall a, keeps (f a) anything) -> keeps (mapM f l) anything.
Proof.
  intros Hf. induction l as [|a rest IH]; simpl.
  - by apply keeps_ret.
  - eapply keeps_bind; [apply Hf|]. intros b _.
    eapply keeps_bind; [apply IH|]. intros bs _. by apply keeps_ret.
Qed.
End ListingProofs.

Section OperationProofs.
Context {X : Type} `{Platform X}.

Lemma keeps_fetchPage pageId : keeps (fetchPage pageId : M X Value) is_page.
Proof.
  apply keeps_try_catch; [|intros e; apply keeps_throw].
  eapply keeps_bind; [apply keeps_log_call|]. intros response _.
  apply keeps_ret. by exists response.
Qed.

Lemma keeps_getPage pageId : keeps (getPage pageId : M X Value) is_page.
Proof.
  eapply keeps_weaken; [apply keeps_getFromCacheOrFetch|apply fits_page].
  eapply keeps_weaken; [apply keeps_fetchPage|apply fits_page].
Qed.

Lemma keeps_list_all_children fuel : forall blockId allBlocks cursor,
  keeps (list_all_children fuel blockId allBlocks cursor : M X (list Block)) anything.
Proof.
  induction fuel as [|fuel IH]; intros blockId allBlocks cursor; simpl; [done|].
  eapply keeps_bind; [apply keeps_log_call|]. intros response _.
  destruct (has_more response); [apply IH | by apply keeps_ret].
Qed.

Lemma keeps_fetchBlockTree (getBlocks : string -> M X Value) fuel blockId :
  (forall blockId, keeps (getBlocks blockId) is_blocks) ->
  keeps (fetchBlockTree getBlocks fuel blockId) is_blocks.
Proof.
  intros Hrec. apply keeps_try_catch; [|intros e; apply keeps_throw].
  eapply keeps_bind; [apply keeps_list_all_children|]. intros allBlocks _.
  eapply keeps_bind with (Q := anything);
    [|intros bs _; apply keeps_ret; by exists bs].
  destruct (List.filter with_children allBlocks); [by apply keeps_ret|].
  apply keeps_mapM. intros block. destruct (with_children block); [|by apply keeps_ret].
  eapply keeps_bind; [apply Hrec|]. intros v Hv.
  eapply keeps_bind; [by apply keeps_as_blocks|]. intros bs _. by apply keeps_ret.
Qed.

Lemma keeps_getBlocks fuel :
  forall blockId, keeps (getBlocks fuel blockId : M X Value) is_blocks.
Proof.
  induction fuel as [|fuel IH]; intros blockId; simpl; [done|].
  eapply keeps_weaken; [apply keeps_getFromCacheOrFetch|apply fits_blocks].
  eapply keeps_weaken; [by apply keeps_fetchBlockTree|apply fits_blocks].
Qed.

Lemma keeps_fetchFormattedPage fuel pageId fetchBlocks :
  keeps (fetchFormattedPage fuel pageId fetchBlocks : M X Value) anything.
Proof.
  apply keeps_try_catch; [|intros e; apply keeps_throw].
  eapply keeps_bind; [apply keeps_getPage|]. intros v Hv.
  eapply keeps_bind; [by apply keeps_as_page|]. intros page _.
  eapply keeps_bind with (Q := anything).
  - destruct fetchBlocks; [|by apply keeps_ret].
    eapply keeps_bind; [apply keeps_getBlocks|]. intros v' Hv'. by apply keeps_as_blocks.
  - intros bs _. eapply keeps_bind; [apply keeps_await_formatPage|].
    intros p _. by apply keeps_ret.
Qed.

Lemma keeps_getFormattedPage fuel pageId fetchBlocks :
  keeps (getFormattedPage fuel pageId fetchBlocks : M X Value) anything.
Proof.
  eapply keeps_weaken; [apply keeps_getFromCacheOrFetch|done].
  eapply keeps_weaken; [apply keeps_fetchFormattedPage|]. intros v _.
  by apply fits_other.
Qed.

(** The body shared by the three listing fetches: query, then [formatPages]. *)
Lemma keeps_query_and_format (options : string -> QueryOptions) handler :
  (forall e, keeps (handler e) block_free) ->
  keeps (try_catch
           (database_id ← require_database_id;
            response ← notion_databases_query (options database_id);
            pages ← await_formatPages (query_results response);
            mret (VPages pages))
           handler : M X Value) block_free.
Proof.
  intros Hh. apply keeps_try_catch; [|done].
  eapply keeps_bind; [apply keeps_require_database_id|]. intros database_id _.
  eapply keeps_bind; [apply keeps_log_call|]. intros response _.
  eapply keeps_bind; [apply keeps_await_formatPages|]. intros pages Hpages.
  apply keeps_ret. by exists pages.
Qed.

Lemma keeps_fetchFormattedDatabase filterByStatus status :
  keeps (fetchFormattedDatabase filterByStatus status : M X Value) block_free.
Proof.
  apply (keeps_query_and_format
           (fun database_id =>
              mkQueryOptions database_id date_descending
                (if filterByStatus then Some (SelectEquals "status" status) else None))).
  intros e. apply keeps_throw.
Qed.

Lemma keeps_fetchPagesByTag tag : keeps (fetchPagesByTag tag : M X Value) block_free.
Proof.
  apply (keeps_query_and_format
           (fun database_id =>
              mkQueryOptions database_id date_descending
                (Some (MultiSelectContains "tags" tag)))).
  intros e. apply keeps_throw.
Qed.

Lemma keeps_fetchPagesByCategory category :
  keeps (fetchPagesByCategory category : M X Value) block_free.
Proof.
  apply (keeps_query_and_format
           (fun database_id =>
              mkQueryOptions database_id date_descending
                (Some (SelectEquals "category" category)))).
  intros e. apply keeps_throw.
Qed.

(** A listing operation: the check of the identifier, then the cache under
    a listing key. *)
Lemma keeps_listing key fetchFn :
  (forall v, block_free v <-> fits key v) ->
  keeps fetchFn block_free ->
  keeps (_ ← require_database_id;
         getFromCacheOrFetch key fetchFn DEFAULT_CACHE_CONFIG : M X Value) block_free.
Proof.
  intros Hkey Hf.
  eapply keeps_bind; [apply keeps_require_database_id|]. intros _ _.
  eapply keeps_weaken; [apply keeps_getFromCacheOrFetch|apply Hkey].
  eapply keeps_weaken; [exact Hf|apply Hkey].
Qed.

Lemma keeps_getFormattedDatabase filterByStatus status :
  keeps (getFormattedDatabase filterByStatus status : M X Value) block_free.
Proof.
  apply keeps_listing; [apply fits_database | apply keeps_fetchFormattedDatabase].
Qed.

Lemma keeps_getPagesByTag tag : keeps (getPagesByTag tag : M X Value) block_free.
Proof. apply keeps_listing; [apply fits_tag | apply keeps_fetchPagesByTag]. Qed.

Lemma keeps_getPagesByCategory category :
  keeps (getPagesByCategory category : M X Value) block_free.
Proof.
  apply keeps_listing; [apply fits_category | apply keeps_fetchPagesByCategory].
Qed.

Lemma keeps_searchPages query : keeps (searchPages query : M X Value) block_free.
Proof.
  unfold searchPages. destruct (is_empty (trim query)).
  - apply keeps_ret. by exists [].
  - apply keeps_try_catch; [|intros e; apply keeps_throw].
    eapply keeps_bind; [apply keeps_getFormattedDatabase|]. intros v Hv.
    eapply keeps_bind; [by apply keeps_as_pages|]. intros allPages Hall.
    apply keeps_ret. eexists. split; [done|].
    apply Forall_forall. intros p Hp. apply list_elem_of_In, filter_In in Hp as [Hp _].
    rewrite Forall_forall in Hall. apply Hall. by apply list_elem_of_In.
Qed.

Lemma keeps_fetchPageBySlug fuel slug :
  keeps (fetchPageBySlug fuel slug : M X Value) anything.
Proof.
  apply keeps_try_catch; [|intros e; apply keeps_throw].
  eapply keeps_bind; [apply keeps_require_database_id|]. intros database_id _.
  eapply keeps_bind; [apply keeps_log_call|]. intros response _.
  destruct (query_results response) as [|first rest]; [by apply keeps_ret|].
  eapply keeps_bind; [apply keeps_getBlocks|]. intros v Hv.
  eapply keeps_bind; [by apply keeps_as_blocks|]. intros bs _.
  eapply keeps_bind; [apply keeps_getPage|]. intros v' Hv'.
  eapply keeps_bind; [by apply keeps_as_page|]. intros page _.
  eapply keeps_bind; [apply keeps_await_formatPage|]. intros p _. by apply keeps_ret.
Qed.

Lemma keeps_getPageBySlug fuel slug : keeps (getPageBySlug fuel slug : M X Value) anything.
Proof.
  eapply keeps_bind; [apply keeps_require_database_id|]. intros _ _.
  eapply keeps_weaken; [apply keeps_getFromCacheOrFetch|done].
  eapply keeps_weaken; [apply keeps_fetchPageBySlug|]. intros v _.
  (* "page-by-slug:" differs from "page:" at its fifth character *)
  by apply fits_other.
Qed.

Lemma keeps_fetchAllTags : keeps (fetchAllTags : M X Value) anything.
Proof.
  apply keeps_try_catch; [|intros e; apply keeps_throw].
  eapply keeps_bind; [apply keeps_getFormattedDatabase|]. intros v Hv.
  eapply keeps_bind; [by apply keeps_as_pages|]. intros pages _. by apply keeps_ret.
Qed.

Lemma keeps_fetchAllCategories : keeps (fetchAllCategories : M X Value) anything.
Proof.
  apply keeps_try_catch; [|intros e; apply keeps_throw].
  eapply keeps_bind; [apply keeps_getFormattedDatabase|]. intros v Hv.
  eapply keeps_bind; [by apply keeps_as_pages|]. intros pages _. by apply keeps_ret.
Qed.

Lemma keeps_getAllTags : keeps (getAllTags : M X Value) anything.
Proof.
  eapply keeps_weaken; [apply keeps_getFromCacheOrFetch|done].
  eapply keeps_weaken; [apply keeps_fetchAllTags|]. intros v _. by apply fits_other.
Qed.

Lemma keeps_getAllCategories : keeps (getAllCategories : M X Value) anything.
Proof.
  eapply keeps_weaken; [apply keeps_getFromCacheOrFetch|done].
  eapply keeps_weaken; [apply keeps_fetchAllCategories|]. intros v _.
  by apply fits_other.
Qed.

Lemma exported_call_keeps (m : M X Value) : exported_call m -> keeps m anything.
Proof.
  intros [pageId|fuel blockId|fuel pageId fetchBlocks|filterByStatus status|fuel slug
          |tag| |category| |query].
  - eapply keeps_weaken; [apply keeps_getPage|done].
  - eapply keeps_weaken; [apply keeps_getBlocks|done].
  - apply keeps_getFormattedPage.
  - eapply keeps_weaken; [apply keeps_getFormattedDatabase|done].
  - apply keeps_getPageBySlug.
  - eapply keeps_weaken; [apply keeps_getPagesByTag|done].
  - apply keeps_getAllTags.
  - eapply keeps_weaken; [apply keeps_getPagesByCategory|done].
  - apply keeps_getAllCategories.
  - eapply keeps_weaken; [apply keeps_searchPages|done].
Qed.

Lemma listing_call_keeps (m : M X Value) : listing_call m -> keeps m block_free.
Proof.
  intros [filterByStatus status|tag|category|query].
  - apply keeps_getFormattedDatabase.
  - apply keeps_getPagesByTag.
  - apply keeps_getPagesByCategory.
  - apply keeps_searchPages.
Qed.

Lemma client_fetch_keeps key (fetchFn : M X Value) :
  client_fetch key fetchFn -> keeps fetchFn (fits key).
Proof.
  intros [pageId|fuel blockId|fuel pageId fetchBlocks|filterByStatus status|fuel slug
          |tag|category| |].
  - eapply keeps_weaken; [apply keeps_fetchPage|apply fits_page].
  - eapply keeps_weaken; [apply keeps_fetchBlockTree, keeps_getBlocks|apply fits_blocks].
  - eapply keeps_weaken; [apply keeps_fetchFormattedPage|]. intros v _.
    by apply fits_other.
  - eapply keeps_weaken; [apply keeps_fetchFormattedDatabase|apply fits_database].
  - eapply keeps_weaken; [apply keeps_fetchPageBySlug|]. intros v _.
    by apply fits_other.
  - eapply keeps_weaken; [apply keeps_fetchPagesByTag|apply fits_tag].
  - eapply keeps_weaken; [apply keeps_fetchPagesByCategory|apply fits_category].
  - eapply keeps_weaken; [apply keeps_fetchAllTags|]. intros v _. by apply fits_other.
  - eapply keeps_weaken; [apply keeps_fetchAllCategories|]. intros v _.
    by apply fits_other.
Qed.

Lemma keeps_done {A} (m : M X A) (Q : A -> Prop) w o w' :
  keeps m Q -> cache_inv (cache w) -> m w = Done o w' -> cache_inv (cache w').
Proof.
  intros Hm Hw Hrun. specialize (Hm w Hw). rewrite Hrun in Hm.
  destruct o; [by destruct Hm|done].
Qed.

Lemma client_step_inv (w w' : World X) :
  client_step w w' -> cache_inv (cache w) -> cache_inv (cache w').
Proof.
  intros [m w1 o w2 Hm Hrun|keyPrefix w1|key fetchFn w1 o w2 Hf Hrun|w1 database_id x] Hw.
  - eapply keeps_done; [by apply exported_call_keeps|done..].
  - by apply cache_inv_clearCache.
  - eapply keeps_done; [by apply keeps_background_refresh, client_fetch_keeps|done..].
  - done.
Qed.

Lemma reachable_inv (w : World X) : reachable w -> cache_inv (cache w).
Proof.
  induction 1 as [w Hempty|w w' _ IH Hstep].
  - rewrite Hempty. apply cache_inv_empty.
  - by eapply client_step_inv.
Qed.

(** In a world the client can reach, no exported function casts a cached
    value to a type it does not have: the keys of the operations are
    disjoint, and each operation reads what it stored. *)
Lemma exported_calls_are_well_typed (w : World X) (m : M X Value) :
  reachable w -> exported_call m -> m w <> IllTyped.
Proof.
  intros Hw Hm Hrun.
  pose proof (exported_call_keeps m Hm w (reachable_inv w Hw)) as Hk.
  by rewrite Hrun in Hk.
Qed.

(** C10.  In every world the client can reach, each page of a list that
    [getFormattedDatabase], [getPagesByTag], [getPagesByCategory] or
    [searchPages] returns has an empty [blocks]: the result, fresh or
    served from the cache, is a list of pages shaped by [formatPages]. *)
Theorem listings_carry_no_blocks (w : World X) (m : M X Value) (v : Value)
    (w' : World X) :
  reachable w ->
  listing_call m ->
  m w = Done (Ok v) w' ->
  exists ps, v = VPages ps /\ Forall (fun p => blocks p = []) ps.
Proof.
  intros Hw Hm Hrun.
  pose proof (listing_call_keeps m Hm w (reachable_inv w Hw)) as Hk.
  rewrite Hrun in Hk. by destruct Hk.
Qed.
End OperationProofs.

Lemma listings_carry_no_blocks_witness :
  reachable search_world_before
  /\ listing_call (getFormattedDatabase true "Public" : M SampleState Value)
  /\ exists ps w',
       getFormattedDatabase true "Public" search_world_before = Done (Ok (VPages ps)) w'
       /\ Forall (fun p => blocks p = []) ps.
Proof.
  assert (Hstart : reachable search_world_before) by (by apply reachable_start).
  assert (Hcall : listing_call (getFormattedDatabase true "Public" : M SampleState Value))
    by constructor.
  split; [exact Hstart|]. split; [exact Hcall|].
  eassert (Hrun : getFormattedDatabase true "Public" search_world_before = Done (Ok _) _)
    by (vm_compute; reflexivity).
  destruct (listings_carry_no_blocks _ _ _ _ Hstart Hcall Hrun) as (ps & Hv & Hps).
  exists ps. eexists. split; [|exact Hps].
  rewrite Hrun. by rewrite Hv.
Defined.

Section SearchProofs.
Context {X : Type} `{Platform X}.

(** A query that is empty or made of white space gives the empty list and
    leaves the state as it was. *)
Lemma searchPages_blank (query : string) (w : World X) :
  is_empty (trim query) = true -> searchPages query w = Done (Ok (VPages [])) w.
Proof. intros Hq. unfold searchPages. by rewrite Hq. Qed.

End SearchProofs.

(** * Further properties of the cache *)

Section CacheRoundTrip.
Context {X : Type} `{Platform X}.

(** What a lookup that finds no usable entry leaves behind, when the fetch
    succeeds. *)
Lemma getFromCacheOrFetch_stores key (fetchFn : M X Value) config (w w0 : World X) d :
  (forall item, cache w !! key = Some item -> expiresAt item <= Date_now (ext w)) ->
  fetchFn w = Done (Ok d) w0 ->
  getFromCacheOrFetch key fetchFn config w =
    Done (Ok d)
      (set_cache
         (<[key := mkCacheItem d (Date_now (ext w)) (Date_now (ext w) + ttl config)]>
            (cache w0)) w0).
Proof.
  intros Hstale Hf.
  destruct (cache w !! key) as [item|] eqn:Hk.
  - rewrite (getFromCacheOrFetch_expired _ _ _ _ _ Hk (Hstale _ eq_refl)).
    by apply fetch_fresh_ok.
  - rewrite (getFromCacheOrFetch_miss _ _ _ _ Hk). by apply fetch_fresh_ok.
Qed.


(** X2.  [clearCache] with a prefix that is not empty removes the entries
    whose key starts with the prefix and keeps every other entry as it is;
    without prefix, or with the empty prefix, no entry is left.  Nothing
    else of the state changes. *)
Theorem clearCache_removes_the_prefixed_keys_only (keyPrefix : option string)
    (key : string) (w : World X) :
  cache (clearCache keyPrefix w) !! key
  = (if truthy_str keyPrefix then
       if startsWith key (default EmptyString keyPrefix) then None else cache w !! key
     else None)
  /\ env_NOTION_DATABASE_ID (clearCache keyPrefix w) = env_NOTION_DATABASE_ID w
  /\ ext (clearCache keyPrefix w) = ext w
  /\ calls (clearCache keyPrefix w) = calls w
  /\ refreshes (clearCache keyPrefix w) = refreshes w.
Proof.
  split.
  - destruct (truthy_str keyPrefix) eqn:Ht.
    + destruct keyPrefix as [p|]; [|done]. simpl.
      assert (He : is_empty p = false).
      { unfold truthy_str in Ht. by destruct (is_empty p). }
      destruct (startsWith key p) eqn:Hp.
      * apply clearCache_removes. by right.
      * by apply clearCache_keeps.
    + apply clearCache_removes. destruct keyPrefix as [p|]; [|done].
      left. unfold truthy_str in Ht. by destruct (is_empty p).
  - unfold clearCache. by destruct (truthy_str keyPrefix).
Qed.

(** X3.  Clearing twice is clearing once, and clearing by a prefix after
    clearing everything changes nothing. *)
Theorem clearCache_is_idempotent (keyPrefix other : option string) (w : World X) :
  clearCache keyPrefix (clearCache keyPrefix w) = clearCache keyPrefix w
  /\ clearCache other (clearCache None w) = clearCache None w.
Proof.
  split.
  - unfold clearCache. destruct (truthy_str keyPrefix); [|done].
    unfold set_cache. simpl. f_equal.
    apply map_eq. intros key.
    destruct (filter _ (cache w) !! key) as [item|] eqn:Hk.
    + apply map_lookup_filter_Some. split; [done|].
      by apply map_lookup_filter_Some in Hk as [_ ?].
    + apply map_lookup_filter_None. by left.
  - unfold clearCache. destruct (truthy_str other); [|done].
    unfold set_cache. simpl. by rewrite map_filter_empty.
Qed.
End CacheRoundTrip.

(** * Further properties of the client operations *)

Section OperationExtras.
Context {X : Type} `{Platform X}.

Lemma fetchPage_ok (pageId : string) (w : World X) p x' :
  pages_retrieve pageId (ext w) = (Ok p, x') ->
  fetchPage pageId w = Done (Ok (VPage p)) (after_calls w x' [PagesRetrieve pageId]).
Proof.
  intros Hr.
  unfold fetchPage, try_catch, mbind, M_bind, notion_pages_retrieve, log_call.
  by rewrite Hr.
Qed.

Lemma fetchPage_throw (pageId : string) (w : World X) err x' :
  pages_retrieve pageId (ext w) = (Throw err, x') ->
  exists msg,
    fetchPage pageId w = Done (Throw (Error msg)) (after_calls w x' [PagesRetrieve pageId])
    /\ msg = (if includes (message err) "404" then
                "ページが見つかりません (ID: " +:+ pageId +:+ ")"
              else if (includes (message err) "401" || includes (message err) "403")%bool then
                "ページへのアクセス権限がありません (ID: " +:+ pageId
                  +:+ "). APIキーが正しく設定されていることを確認してください。"
              else if includes (message err) "429" then
                "API利用制限に達しました。しばらく待ってから再試行してください。"
              else "ページの取得に失敗しました: " +:+ message err).
Proof.
  intros Hr.
  unfold fetchPage, try_catch, mbind, M_bind, notion_pages_retrieve, log_call.
  rewrite Hr. by eexists.
Qed.

(** [getPage] settles, and makes at most one remote call: the retrieval of
    the page. *)
Lemma getPage_calls (pageId : string) (w : World X) :
  exists o w', getPage pageId w = Done o w'
               /\ (calls w' = calls w \/ calls w' = calls w ++ [PagesRetrieve pageId]).
Proof.
  unfold getPage, getFromCacheOrFetch.
  assert (Hfresh : forall cachedItem,
             exists o' w', fetch_fresh ("page:" +:+ pageId) (fetchPage pageId)
                             DEFAULT_CACHE_CONFIG (Date_now (ext w)) cachedItem w
                           = Done o' w'
                           /\ calls w' = calls w ++ [PagesRetrieve pageId]).
  { intros cachedItem.
    destruct (pages_retrieve pageId (ext w)) as [[p|err] x'] eqn:Hr.
    - rewrite (fetch_fresh_ok _ _ _ _ _ _ _ _ (fetchPage_ok _ _ _ _ Hr)). by eexists _, _.
    - destruct (fetchPage_throw _ _ _ _ Hr) as (msg & Hf & _).
      rewrite (fetch_fresh_throw _ _ _ _ _ _ _ _ Hf).
      destruct cachedItem; by eexists _, _. }
  destruct (cache w !! ("page:" +:+ pageId)) as [item|].
  - destruct (Date_now (ext w) <? expiresAt item)%Z.
    + unfold mbind, M_bind.
      destruct (refresh_due _ _ _); simpl; eexists _, _; (split; [reflexivity|]); by left.
    + destruct (Hfresh (Some item)) as (o' & w' & -> & Hc).
      eexists _, _. split; [done|]. by right.
  - destruct (Hfresh None) as (o' & w' & -> & Hc). eexists _, _. split; [done|]. by right.
Qed.

(** X4.  When the page is not in the cache and the remote service fails,
    [getPage] rejects with an [Error] whose message is chosen by the first
    marker found in the message of the failure: [404], then [401] or [403],
    then [429]; without marker the message of the failure is kept after a
    fixed prefix.  One remote call has been made and nothing is stored. *)
Theorem getPage_classifies_the_remote_error (pageId : string) (w : World X)
    (err : JsError) (x' : X) :
  cache w !! ("page:" +:+ pageId) = None ->
  pages_retrieve pageId (ext w) = (Throw err, x') ->
  let has marker := includes (message err) marker in
  exists msg,
    getPage pageId w = Done (Throw (Error msg)) (after_calls w x' [PagesRetrieve pageId])
    /\ (has "404" = true -> msg = "ページが見つかりません (ID: " +:+ pageId +:+ ")")
    /\ (has "404" = false -> has "401" = true \/ has "403" = true ->
        msg = "ページへのアクセス権限がありません (ID: " +:+ pageId
                +:+ "). APIキーが正しく設定されていることを確認してください。")
    /\ (has "404" = false -> has "401" = false -> has "403" = false -> has "429" = true ->
        msg = "API利用制限に達しました。しばらく待ってから再試行してください。")
    /\ (has "404" = false -> has "401" = false -> has "403" = false -> has "429" = false ->
        msg = "ページの取得に失敗しました: " +:+ message err).
Proof.
  intros Hk Hr has.
  destruct (fetchPage_throw _ _ _ _ Hr) as (msg & Hf & Hmsg).
  exists msg. split.
  { unfold getPage. rewrite (getFromCacheOrFetch_miss _ _ _ _ Hk).
    by rewrite (fetch_fresh_throw _ _ _ _ _ _ _ _ Hf). }
  subst has. simpl. rewrite Hmsg. split_and!.
  - by intros ->.
  - intros -> [->| ->]; [done|]. by rewrite orb_true_r.
  - by intros -> -> -> ->.
  - by intros -> -> -> ->.
Qed.

(** X5.  When [getPage] rejects, [getFormattedPage] (with nothing cached
    under its own key) rejects with the message of [getPage] after the
    prefix of the page shaping, in the state [getPage] left: the blocks are
    not asked for, whatever [fetchBlocks] is. *)
Theorem getFormattedPage_wraps_the_error_of_getPage (fuel : nat) (pageId : string)
    (fetchBlocks : bool) (w w' : World X) (e : JsError) :
  cache w !! ("formatted-page:" +:+ pageId +:+ ":" +:+ string_of_bool fetchBlocks) = None ->
  getPage pageId w = Done (Throw e) w' ->
  getFormattedPage fuel pageId fetchBlocks w
  = Done (Throw (Error ("ページの整形に失敗しました: " +:+ message e))) w'.
Proof.
  intros Hk Hp. unfold getFormattedPage.
  rewrite (getFromCacheOrFetch_miss _ _ _ _ Hk).
  eapply eq_trans; [eapply fetch_fresh_throw|done].
  unfold fetchFormattedPage, try_catch, mbind, M_bind. by rewrite Hp.
Qed.

(** X6.  [getFormattedPage(pageId, false)], with nothing cached under its
    own key, resolves to a page without blocks, and the only remote call it
    can make is the retrieval of the page: the children of the page are
    never listed, and no fuel is needed. *)
Theorem getFormattedPage_without_blocks (fuel : nat) (pageId : string) (w w' : World X)
    (v : Value) :
  cache w !! ("formatted-page:" +:+ pageId +:+ ":" +:+ string_of_bool false) = None ->
  getFormattedPage fuel pageId false w = Done (Ok v) w' ->
  exists p,
    v = VFormattedPage p /\ blocks p = []
    /\ (calls w' = calls w \/ calls w' = calls w ++ [PagesRetrieve pageId]).
Proof.
  intros Hk. unfold getFormattedPage.
  rewrite (getFromCacheOrFetch_miss _ _ _ _ Hk).
  unfold fetch_fresh, fetchFormattedPage, try_catch, mbind, M_bind.
  destruct (getPage_calls pageId w) as (o & w1 & -> & Hc).
  destruct o as [[page| | | | |]|e]; simpl; try done.
  unfold await_formatPage, lift_outcome.
  destruct (formatPage (ext w1) page (Some [])) as [p|e] eqn:Hp; simpl; [|done].
  intros [= <- <-]. exists p. split; [done|].
  split; [exact (formatPage_blocks _ _ _ _ Hp)|exact Hc].
Qed.
End OperationExtras.

(** * Further properties of the database operations *)

Section DatabaseExtras.
Context {X : Type} `{Platform X}.

Lemma require_database_id_set (w : World X) database_id :
  env_NOTION_DATABASE_ID w = Some database_id -> is_empty database_id = false ->
  require_database_id w = Done (Ok database_id) w.
Proof. intros Henv He. unfold require_database_id. by rewrite Henv, He. Qed.

(** X7.  [getPageBySlug] for a slug no page has: with the identifier set
    and nothing cached under the key of the slug, when the query answers
    with no result the function resolves to [null] after that one remote
    call, whatever the fuel, and [null] is stored under the key like any
    other result, with the default time to live. *)
Theorem getPageBySlug_without_match_resolves_to_null (fuel : nat) (slug database_id : string)
    (w : World X) (response : DatabaseQueryResponse) (x' : X) :
  let options := mkQueryOptions database_id [] (Some (RichTextEquals "slug" slug)) in
  let now := Date_now (ext w) in
  env_NOTION_DATABASE_ID w = Some database_id -> is_empty database_id = false ->
  cache w !! ("page-by-slug:" +:+ slug) = None ->
  databases_query options (ext w) = (Ok response, x') ->
  query_results response = [] ->
  getPageBySlug fuel slug w
  = Done (Ok VNull)
      (set_cache
         (<["page-by-slug:" +:+ slug := mkCacheItem VNull now (now + 300000)]> (cache w))
         (after_calls w x' [DatabasesQuery options])).
Proof.
  intros options now Henv He Hk Hq Hr. unfold getPageBySlug.
  unfold mbind at 1. unfold M_bind. rewrite (require_database_id_set _ _ Henv He).
  rewrite (getFromCacheOrFetch_miss _ _ _ _ Hk).
  assert (Hf : fetchPageBySlug fuel slug w
               = Done (Ok VNull) (after_calls w x' [DatabasesQuery options])).
  { unfold fetchPageBySlug, try_catch, mbind, M_bind.
    rewrite (require_database_id_set _ _ Henv He).
    unfold notion_databases_query, log_call. fold options. rewrite Hq. by rewrite Hr. }
  by rewrite (fetch_fresh_ok _ _ _ _ _ _ _ _ Hf).
Qed.

(** X8.  Without collection identifier ([process.env.NOTION_DATABASE_ID]
    missing or empty), [getPageBySlug], [getPagesByTag] and
    [getPagesByCategory] reject with the configuration error and leave the
    state as it was: the cache is not read, no remote call is made. *)
Theorem operations_on_the_database_need_its_identifier (fuel : nat)
    (slug tag category : string) (w : World X) :
  truthy_str (env_NOTION_DATABASE_ID w) = false ->
  getPageBySlug fuel slug w = Done (Throw configuration_error) w
  /\ getPagesByTag tag w = Done (Throw configuration_error) w
  /\ getPagesByCategory category w = Done (Throw configuration_error) w.
Proof.
  intros Henv. unfold getPageBySlug, getPagesByTag, getPagesByCategory, mbind, M_bind.
  by rewrite (require_database_id_unset _ Henv).
Qed.

(** X9.  [getAllTags] and [getAllCategories] do not check the identifier
    themselves: they go through [getFormattedDatabase].  Without
    identifier and with nothing cached under their key, they reject with
    the message of the configuration error after their own prefix, and
    leave the state as it was; with an entry that has not expired, they
    still answer from the cache. *)
Theorem configuration_error_is_wrapped_by_the_callers (w : World X) :
  truthy_str (env_NOTION_DATABASE_ID w) = false ->
  (cache w !! "all-tags" = None ->
   getAllTags w
   = Done (Throw (Error ("すべてのタグの取得に失敗しました: "
                          +:+ "NOTION_DATABASE_IDが設定されていません"))) w)
  /\ (cache w !! "all-categories" = None ->
      getAllCategories w
      = Done (Throw (Error ("すべてのカテゴリの取得に失敗しました: "
                             +:+ "NOTION_DATABASE_IDが設定されていません"))) w)
  /\ (forall item, cache w !! "all-tags" = Some item -> Date_now (ext w) < expiresAt item ->
        exists w', getAllTags w = Done (Ok (data item)) w' /\ calls w' = calls w)
  /\ (forall item, cache w !! "all-categories" = Some item ->
        Date_now (ext w) < expiresAt item ->
        exists w', getAllCategories w = Done (Ok (data item)) w' /\ calls w' = calls w).
Proof.
  intros Henv.
  assert (Hdb : forall filterByStatus status,
             getFormattedDatabase filterByStatus status w
             = Done (Throw configuration_error) w).
  { intros. unfold getFormattedDatabase, mbind, M_bind.
    by rewrite (require_database_id_unset _ Henv). }
  split_and!.
  - intros Hk. unfold getAllTags. rewrite (getFromCacheOrFetch_miss _ _ _ _ Hk).
    eapply eq_trans; [eapply fetch_fresh_throw|done].
    unfold fetchAllTags, try_catch, mbind, M_bind. by rewrite Hdb.
  - intros Hk. unfold getAllCategories. rewrite (getFromCacheOrFetch_miss _ _ _ _ Hk).
    eapply eq_trans; [eapply fetch_fresh_throw|done].
    unfold fetchAllCategories, try_catch, mbind, M_bind. by rewrite Hdb.
  - intros item Hk Hfresh. unfold getAllTags.
    rewrite (getFromCacheOrFetch_fresh _ _ _ _ _ Hk Hfresh).
    eexists. split; [reflexivity|]. by destruct (refresh_due _ _ _).
  - intros item Hk Hfresh. unfold getAllCategories.
    rewrite (getFromCacheOrFetch_fresh _ _ _ _ _ Hk Hfresh).
    eexists. split; [reflexivity|]. by destruct (refresh_due _ _ _).
Qed.
End DatabaseExtras.

(** * Properties of the lists of tags and categories *)

Section Names.

Lemma ascii_compare_refl c : Ascii.compare c c = Eq.
Proof. unfold Ascii.compare. apply N.compare_refl. Qed.

Lemma ascii_compare_eq c d : Ascii.compare c d = Eq -> c = d.
Proof.
  unfold Ascii.compare. intros Hc. apply N.compare_eq in Hc.
  rewrite <- (ascii_N_embedding c), <- (ascii_N_embedding d). by rewrite Hc.
Qed.











End Names.

Section NameLists.
Context {X : Type} `{Platform X}.


End NameLists.

(** * Further properties of [searchPages] *)

Section SearchExtras.
Context {X : Type} `{Platform X}.

Lemma is_space_lower_ascii c : is_space (lower_ascii c) = is_space c.
Proof. by destruct c as [[] [] [] [] [] [] [] []]. Qed.

Lemma is_empty_toLowerCase s : is_empty (toLowerCase s) = is_empty s.
Proof. by destruct s. Qed.

Lemma trim_start_toLowerCase s : trim_start (toLowerCase s) = toLowerCase (trim_start s).
Proof.
  induction s as [|c s IH]; simpl; [done|].
  rewrite is_space_lower_ascii. by destruct (is_space c).
Qed.

Lemma trim_end_toLowerCase s : trim_end (toLowerCase s) = toLowerCase (trim_end s).
Proof.
  induction s as [|c s IH]; simpl; [done|].
  rewrite is_space_lower_ascii, IH, is_empty_toLowerCase.
  by destruct (is_space c && is_empty (trim_end s))%bool.
Qed.

Lemma blank_toLowerCase s : is_empty (trim (toLowerCase s)) = is_empty (trim s).
Proof.
  unfold trim. by rewrite trim_start_toLowerCase, trim_end_toLowerCase, is_empty_toLowerCase.
Qed.





(** X13.  The search does not see the case of the query: two queries with
    the same lower-case form give the same result in every state, whether
    it is a list of pages or an error. *)
Theorem searchPages_ignores_the_case_of_the_query (query1 query2 : string) (w : World X) :
  toLowerCase query1 = toLowerCase query2 ->
  searchPages query1 w = searchPages query2 w.
Proof.
  intros Hq. unfold searchPages.
  rewrite <- (blank_toLowerCase query1), <- (blank_toLowerCase query2), Hq.
  by destruct (is_empty (trim (toLowerCase query2))).
Qed.
End SearchExtras.

(** * Further properties of the page shaping *)

Section FormatExtras.
Context {X : Type} `{Platform X}.

Lemma or_str_not_empty o b : is_empty b = false -> is_empty (or_str o b) = false.
Proof.
  intros Hb. unfold or_str. destruct o as [s|]; [|done].
  by destruct (is_empty s) eqn:Hs.
Qed.

Lemma or_str_falsy o b : truthy_str o = false -> or_str o b = b.
Proof.
  unfold truthy_str, or_str. destruct o as [s|]; [|done]. by destruct (is_empty s).
Qed.

(** X14.  What [formatPage] puts where the page has nothing: the identifier
    is the page's; the title is never empty, and is [無題] for a page without
    title text; the slug is the page's identifier when the slug text is
    missing or empty, so it is empty only when the identifier is; the date
    of the last update is the date of the page when neither the property nor
    the page says when it was edited; and there is no thumbnail exactly when
    the page has neither a file in its thumbnail property nor a cover. *)
Theorem formatPage_fills_the_gaps (x : X) (page : PageResponse)
    (blocks : option (list Block)) (p : FormattedPage) :
  formatPage x page blocks = Ok p ->
  page_id p = response_id page
  /\ is_empty (title p) = false
  /\ (truthy_str (first_plain_text (prop_title (properties page))) = false ->
      title p = "無題")
  /\ (truthy_str (first_plain_text (prop_slug (properties page))) = false ->
      slug p = response_id page)
  /\ (is_empty (slug p) = true -> is_empty (response_id page) = true)
  /\ (truthy_str (prop_updatedAt (properties page)) = false ->
      truthy_str (last_edited_time page) = false -> updatedAt p = date p)
  /\ (thumbnail p = None <->
      head (default [] (prop_thumbnail (properties page))) = None /\ cover page = None).
Proof.
  unfold formatPage.
  destruct (iso_of_date _) as [d|] eqn:Hd; [|done].
  destruct (iso_of_date (or_str (prop_updatedAt _) _)) as [u|] eqn:Hu; [|done].
  intros [= <-]. simpl. split_and!.
  - done.
  - by apply or_str_not_empty.
  - apply or_str_falsy.
  - apply or_str_falsy.
  - unfold or_str. destruct (first_plain_text (prop_slug (properties page))) as [s|]; [|done].
    destruct (is_empty s) eqn:Hs; [done|congruence].
  - intros H1 H2. rewrite (or_str_falsy _ _ H1), (or_str_falsy _ _ H2) in Hu. congruence.
  - destruct (prop_thumbnail (properties page)) as [[|thumb rest]|]; simpl;
      destruct (cover page); split; try done; by intros [? ?].
Qed.







Lemma formatPages_pointwise (x : X) pages : forall index,
  match mapi_outcome (fun page (_ : nat) => formatPage x page None) index pages with
  | Ok ps => Forall2 (fun page p => formatPage x page None = Ok p) pages ps
  | Throw e =>
      exists before page after,
        pages = before ++ page :: after
        /\ Forall (fun page => exists p, formatPage x page None = Ok p) before
        /\ formatPage x page None = Throw e
  end.
Proof.
  induction pages as [|page rest IH]; intros index; simpl; [constructor|].
  unfold mbind, outcome_bind.
  destruct (formatPage x page None) as [p|e] eqn:Hp.
  - specialize (IH (S index)).
    destruct (mapi_outcome _ (S index) rest) as [ps|e].
    + by constructor.
    + destruct IH as (before & page' & after & -> & Hbefore & Hthrow).
      exists (page :: before), page', after. split; [done|]. split; [|done].
      constructor; [by exists p|done].
  - exists [], page, rest. by split_and!.
Qed.

(** X16.  [formatPages] shapes the pages one by one, in order and without
    blocks: when it returns, the n-th result is [formatPage] of the n-th
    page; when it throws, the error is that of the first page that
    [formatPage] fails on, and every page before it could be shaped. *)
Theorem formatPages_shapes_each_page_in_order (x : X) (pages : list PageResponse) :
  match formatPages x pages with
  | Ok ps =>
      Forall2 (fun page p => formatPage x page None = Ok p) pages ps
      /\ map page_id ps = map response_id pages
  | Throw e =>
      exists before page after,
        pages = before ++ page :: after
        /\ Forall (fun page => exists p, formatPage x page None = Ok p) before
        /\ formatPage x page None = Throw e
  end.
Proof.
  unfold formatPages. pose proof (formatPages_pointwise x pages 0%nat) as Hp.
  destruct (mapi_outcome _ 0%nat pages) as [ps|e]; [|done].
  split; [done|].
  induction Hp as [|page p pages ps Hpage _ IH]; simpl; [done|].
  rewrite IH. f_equal.
  unfold formatPage in Hpage.
  destruct (iso_of_date _); [|done]. destruct (iso_of_date _); [|done].
  by injection Hpage as <-.
Qed.
End FormatExtras.

(** * Further properties of [getBlocks] *)

Section BlockTreeExtras.
Context {X : Type} `{Platform X}.

(** Blocks without children are left as they are, and nothing is fetched. *)
Lemma resolve_children_leaves (getBlocks : string -> M X Value) (bs : list Block)
    (w : World X) :
  Forall (fun b => with_children b = false) bs ->
  resolve_children getBlocks bs w = Done (Ok bs) w.
Proof.
  unfold resolve_children. induction 1 as [|b bs Hb _ IH]; simpl; [done|].
  unfold mbind, M_bind. rewrite Hb. simpl.
  unfold mbind, M_bind in IH. by rewrite IH.
Qed.

Lemma mapM_app {A B : Type} (f : A -> M X B) (l1 l2 : list A) :
  forall (w w1 : World X) ys1,
    mapM f l1 w = Done (Ok ys1) w1 ->
    mapM f (l1 ++ l2) w
    = match mapM f l2 w1 with
      | Done (Ok ys2) w2 => Done (Ok (ys1 ++ ys2)) w2
      | r => r
      end.
Proof.
  induction l1 as [|x l1 IH]; intros w w1 ys1; simpl.
  - intros [= <- <-]. by destruct (mapM f l2 w) as [[?|?] ?| |].
  - unfold mbind, M_bind.
    destruct (f x w) as [[y|e] w0| |]; try done.
    destruct (mapM f l1 w0) as [[ys|e] w0'| |] eqn:Hrest; try done.
    intros [= <- <-]. unfold mbind, M_bind in IH. rewrite (IH _ _ _ Hrest).
    by destruct (mapM f l2 w0') as [[?|?] ?| |].
Qed.

Lemma resolve_children_app (getBlocks : string -> M X Value) (bs1 bs2 : list Block)
    (w w1 : World X) bs1' :
  resolve_children getBlocks bs1 w = Done (Ok bs1') w1 ->
  resolve_children getBlocks (bs1 ++ bs2) w
  = match resolve_children getBlocks bs2 w1 with
    | Done (Ok bs2') w2 => Done (Ok (bs1' ++ bs2')) w2
    | r => r
    end.
Proof. apply mapM_app. Qed.

(** The list of the children of a block none of which has children, fetched
    and stored. *)
Lemma getBlocks_of_leaves (fuel : nat) (blockId : string) (w : World X)
    (rs : list ListResponse) (x' : X) :
  serves_pages blockId None (ext w) rs x' ->
  (length rs <= fuel)%nat ->
  (forall item, cache w !! ("blocks:" +:+ blockId) = Some item ->
                expiresAt item <= Date_now (ext w)) ->
  Forall (fun b => with_children b = false) (concat (map results rs)) ->
  getBlocks (S fuel) blockId w
  = Done (Ok (VBlocks (concat (map results rs))))
      (set_cache
         (<["blocks:" +:+ blockId :=
              mkCacheItem (VBlocks (concat (map results rs))) (Date_now (ext w))
                (Date_now (ext w) + 300000)]> (cache w))
         (after_calls w x' (page_requests blockId None rs))).
Proof.
  intros Hs Hfuel Hstale Hleaf.
  change (getBlocks (S fuel) blockId) with
    (getFromCacheOrFetch ("blocks:" +:+ blockId)
       (fetchBlockTree (getBlocks fuel) fuel blockId) DEFAULT_CACHE_CONFIG).
  assert (Hf : fetchBlockTree (getBlocks fuel) fuel blockId w
               = Done (Ok (VBlocks (concat (map results rs))))
                   (after_calls w x' (page_requests blockId None rs))).
  { unfold fetchBlockTree, try_catch, mbind, M_bind.
    rewrite (list_all_children_pages blockId rs fuel None (ext w) x' [] w Hs); try done.
    cbn [app]. by rewrite (filter_with_children_nil _ Hleaf). }
  by rewrite (getFromCacheOrFetch_stores _ _ _ _ _ _ Hstale Hf).
Qed.

(** X17.  One level of nesting.  The children of [blockId] come in the pages
    [rs]; one of them, [parent], has children, the blocks before and after
    it have none; the children of [parent] come in the pages [rs'], and
    none of them has children.  With no valid entry under the two keys,
    [getBlocks(blockId)] lists the children of [blockId], then those of
    [parent], and resolves to the blocks of [rs] in order, [parent] carrying
    the blocks of [rs'] as its [children].  The list of [parent] is stored
    under the key of [parent], stamped when its own fetch started, and the
    whole under the key of [blockId]. *)
Theorem getBlocks_attaches_the_children (fuel : nat) (blockId : string) (w : World X)
    (rs rs' : list ListResponse) (x1 x2 : X) (before after : list Block) (parent : Block) :
  let key := "blocks:" +:+ blockId in
  let key' := "blocks:" +:+ id parent in
  let children := concat (map results rs') in
  let result := before ++ set_children parent children :: after in
  serves_pages blockId None (ext w) rs x1 ->
  serves_pages (id parent) None x1 rs' x2 ->
  (length rs <= S fuel)%nat -> (length rs' <= fuel)%nat ->
  concat (map results rs) = before ++ parent :: after ->
  with_children parent = true ->
  Forall (fun b => with_children b = false) (before ++ after) ->
  Forall (fun b => with_children b = false) children ->
  (forall item, cache w !! key = Some item -> expiresAt item <= Date_now (ext w)) ->
  (forall item, cache w !! key' = Some item -> expiresAt item <= Date_now x1) ->
  exists w',
    getBlocks (S (S fuel)) blockId w = Done (Ok (VBlocks result)) w'
    /\ calls w'
       = calls w ++ page_requests blockId None rs ++ page_requests (id parent) None rs'
    /\ cache w'
       = <[key := mkCacheItem (VBlocks result) (Date_now (ext w))
                    (Date_now (ext w) + 300000)]>
           (<[key' := mkCacheItem (VBlocks children) (Date_now x1) (Date_now x1 + 300000)]>
              (cache w))
    /\ ext w' = x2.
Proof.
  intros key key' children result Hs Hs' Hfuel Hfuel' Hrs Hparent Hleaves Hleaf Hstale Hstale'.
  apply Forall_app in Hleaves as [Hbefore Hafter].
  set (w1 := after_calls w x1 (page_requests blockId None rs)).
  assert (Hchild : getBlocks (S fuel) (id parent) w1
                   = Done (Ok (VBlocks children))
                       (set_cache
                          (<[key' := mkCacheItem (VBlocks children) (Date_now x1)
                                       (Date_now x1 + 300000)]> (cache w))
                          (after_calls w1 x2 (page_requests (id parent) None rs')))).
  { by apply (getBlocks_of_leaves fuel (id parent) w1 rs' x2). }
  set (w2 := set_cache _ _) in Hchild.
  assert (Hres : resolve_children (getBlocks (S fuel)) (before ++ parent :: after) w1
                 = Done (Ok result) w2).
  { rewrite (resolve_children_app _ _ _ _ _ _ (resolve_children_leaves _ before w1 Hbefore)).
    change (parent :: after) with ([parent] ++ after).
    assert (Hone : resolve_children (getBlocks (S fuel)) [parent] w1
                   = Done (Ok [set_children parent children]) w2).
    { unfold resolve_children. cbn [mapM]. unfold mbind, M_bind. rewrite Hparent.
      unfold mbind, M_bind. by rewrite Hchild. }
    rewrite (resolve_children_app _ _ _ _ _ _ Hone).
    by rewrite (resolve_children_leaves _ after w2 Hafter). }
  assert (Hfetch : fetchBlockTree (getBlocks (S fuel)) (S fuel) blockId w
                   = Done (Ok (VBlocks result)) w2).
  { unfold fetchBlockTree, try_catch, mbind, M_bind.
    rewrite (list_all_children_pages blockId rs (S fuel) None (ext w) x1 [] w Hs); try done.
    cbn [app]. rewrite Hrs.
    assert (Hsome : exists b bs, List.filter with_children (before ++ parent :: after) = b :: bs).
    { rewrite List.filter_app. simpl. rewrite Hparent.
      destruct (List.filter with_children before); by eexists _, _. }
    destruct Hsome as (b & bs & ->). fold w1. by rewrite Hres. }
  change (getBlocks (S (S fuel)) blockId) with
    (getFromCacheOrFetch key (fetchBlockTree (getBlocks (S fuel)) (S fuel) blockId)
       DEFAULT_CACHE_CONFIG).
  eexists. split; [by apply getFromCacheOrFetch_stores|].
  simpl. by rewrite <- !app_assoc.
Qed.
End BlockTreeExtras.

(** * Properties of the block components *)

Section ComponentProofs.
Import Components.

Lemma eqb_false_of_ne (s t : string) : s <> t -> String.eqb s t = false.
Proof. intros Hne. by apply String.eqb_neq. Qed.

(** X18.  [getBlockComponent] falls back to [UnsupportedBlock] exactly for
    the blocks whose type is none of its twenty case labels, and the
    element [UnsupportedBlock] returns names the type of the block after a
    fixed text.  [NotionBlock] returns [null] without a block and what
    [getBlockComponent] returns otherwise. *)
Theorem getBlockComponent_falls_back_on_unknown_types (block : NotionBlockWithChildren) :
  (getBlockComponent block = EComponent UnsupportedBlock block
   <-> type block ∉ supported_types)
  /\ of_result texts (UnsupportedBlock block)
     = ["サポートされていないブロックタイプ: "; type block]
  /\ NotionBlock None = None
  /\ NotionBlock (Some block) = Some (getBlockComponent block).
Proof.
  split_and!; [|done|done|done].
  destruct (decide (type block ∈ supported_types)) as [Hin|Hnot].
  - split; [|done]. intros Hfall. exfalso. revert Hfall.
    unfold getBlockComponent, supported_types in *. cbv zeta.
    repeat (apply elem_of_cons in Hin as [Heq|Hin];
            [rewrite Heq; simpl; intros Hfall; try discriminate Hfall;
             injection Hfall as Hfall;
             apply (f_equal (fun component => component block)) in Hfall;
             revert Hfall;
             cbv [ParagraphBlock Heading1Block Heading2Block Heading3Block
                  BulletedListItemBlock NumberedListItemBlock ToDoBlock ToggleBlock
                  CodeBlock QuoteBlock ImageBlock BookmarkBlock CalloutBlock TableBlock
                  ColumnListBlock EmbedBlock VideoBlock EquationBlock LinkPreviewBlock
                  UnsupportedBlock missing_notice className];
             repeat case_match; discriminate|]).
    by apply elem_of_nil in Hin.
  - split; [done|]. intros _.
    unfold getBlockComponent. cbv zeta.
    repeat (rewrite eqb_false_of_ne;
            [|intros Heq; apply Hnot; rewrite Heq; unfold supported_types; set_solver]).
    done.
Qed.

Lemma getBlockComponent_unknown (block : NotionBlockWithChildren) :
  type block ∉ supported_types -> getBlockComponent block = EComponent UnsupportedBlock block.
Proof.
  intros Hnot. unfold getBlockComponent. cbv zeta.
  repeat (rewrite eqb_false_of_ne;
          [|intros Heq; apply Hnot; rewrite Heq; unfold supported_types; set_solver]).
  done.
Qed.













(** The component chosen for each type. *)
Lemma component_result_known (block : NotionBlockWithChildren) (label : string) :
  type block = label -> label ∈ supported_types ->
  component_result block
  = (if String.eqb label "paragraph" then ParagraphBlock block
     else if String.eqb label "heading_1" then Heading1Block block
     else if String.eqb label "heading_2" then Heading2Block block
     else if String.eqb label "heading_3" then Heading3Block block
     else if String.eqb label "bulleted_list_item" then BulletedListItemBlock block
     else if String.eqb label "numbered_list_item" then NumberedListItemBlock block
     else if String.eqb label "to_do" then ToDoBlock block
     else if String.eqb label "toggle" then ToggleBlock block
     else if String.eqb label "code" then CodeBlock block
     else if String.eqb label "quote" then QuoteBlock block
     else if String.eqb label "divider" then DividerBlock
     else if String.eqb label "image" then ImageBlock block
     else if String.eqb label "bookmark" then BookmarkBlock block
     else if String.eqb label "callout" then CalloutBlock block
     else if String.eqb label "table" then TableBlock block
     else if String.eqb label "column_list" then ColumnListBlock block
     else if String.eqb label "embed" then EmbedBlock block
     else if String.eqb label "video" then VideoBlock block
     else if String.eqb label "equation" then EquationBlock block
     else LinkPreviewBlock block).
Proof.
  intros Heq Hin. unfold component_result, getBlockComponent. cbv zeta. rewrite Heq.
  unfold supported_types in Hin.
  repeat (apply elem_of_cons in Hin as [->|Hin]; [reflexivity|]).
  by apply elem_of_nil in Hin.
Qed.

Lemma component_result_unknown (block : NotionBlockWithChildren) :
  type block ∉ supported_types -> component_result block = UnsupportedBlock block.
Proof.
  intros Hnot. unfold component_result. by rewrite (getBlockComponent_unknown _ Hnot).
Qed.



Lemma caption_element_rich_texts tag classes caption :
  concat (map rich_texts (caption_element tag classes caption))
  = match caption with
    | Some ((_ :: _) as c) => [Some c]
    | _ => []
    end.
Proof. by destruct caption as [[|? ?]|]. Qed.

Lemma caption_element_prop_values name tag classes caption :
  String.eqb "className" name = false ->
  concat (map (prop_values name) (caption_element tag classes caption)) = [].
Proof.
  intros Hn. destruct caption as [[|? ?]|]; [done| |done].
  unfold caption_element, className.
  cbn [map concat prop_values List.filter fst snd app]. by rewrite Hn.
Qed.

(** X20.  [ImageBlock] and [VideoBlock] take the address their [type]
    names: the external one when the type is [external], the one of the
    file otherwise, and never the other one instead.  Without that address,
    or when it is empty, they return the notice of the missing address;
    with it they return one host element with a [src], which is that
    address, and a [RichText] element for the caption exactly when the
    caption is not empty.  The [alt] of an image is the plain texts of its
    caption joined by spaces, or [Notion image] without caption. *)
Theorem media_components_need_the_address_their_type_names
    (block : NotionBlockWithChildren) :
  let shows (result : option Element) (m : option Media) (notice : string) :=
    if truthy_str (media_url m) then
      of_result (prop_values "src") result = [JsStr (default EmptyString (media_url m))]
      /\ of_result rich_texts result
         = match m ≫= caption with
           | Some ((_ :: _) as c) => [Some c]
           | _ => []
           end
    else result = Some (missing_notice notice) in
  shows (ImageBlock block) (image block) "画像URLが見つかりません"
  /\ shows (VideoBlock block) (video block) "動画URLが見つかりません"
  /\ (forall m, media_type m = "external" -> media_url (Some m) = external_url m)
  /\ (forall m, media_type m <> "external" -> media_url (Some m) = file_url m)
  /\ (truthy_str (media_url (image block)) = true ->
      of_result (prop_values "alt") (ImageBlock block)
      = [JsStr match image block ≫= caption with
               | Some ((_ :: _) as c) => join " " (map plain_text c)
               | _ => "Notion image"
               end]).
Proof.
  cbv zeta. split_and!.
  - unfold ImageBlock. destruct (truthy_str (media_url (image block))); [|done].
    cbn [negb of_result prop_values rich_texts map concat app List.filter fst snd
         String.eqb Ascii.eqb Bool.eqb className].
    rewrite caption_element_rich_texts, caption_element_prop_values by done. done.
  - unfold VideoBlock. destruct (truthy_str (media_url (video block))); [|done].
    cbn [negb of_result prop_values rich_texts map concat app List.filter fst snd
         String.eqb Ascii.eqb Bool.eqb className].
    rewrite caption_element_rich_texts, caption_element_prop_values by done. done.
  - intros m Hm. unfold media_url. by rewrite Hm.
  - intros m Hm. unfold media_url. by rewrite eqb_false_of_ne.
  - intros Hurl. unfold ImageBlock. rewrite Hurl.
    cbn [negb of_result prop_values map concat app List.filter fst snd
         String.eqb Ascii.eqb Bool.eqb className].
    by rewrite caption_element_prop_values.
Qed.

(** X21.  [BookmarkBlock], [EmbedBlock], [LinkPreviewBlock] and
    [EquationBlock] return the notice of what is missing when their block
    has no payload of their kind or an empty address or expression.
    Otherwise a bookmark and a link preview are one hyperlink to the
    address, which opens in a new tab without opener and shows the address
    as its text; an embed is one frame on the address; an equation shows
    its expression as text. *)
Theorem link_components_need_an_address (block : NotionBlockWithChildren) :
  let address := default EmptyString in
  let hyperlink (result : option Element) (url : option string) :=
    of_result (prop_values "href") result = [JsStr (address url)]
    /\ of_result (prop_values "target") result = [JsStr "_blank"]
    /\ of_result (prop_values "rel") result = [JsStr "noopener noreferrer"]
    /\ of_result texts result = [address url] in
  (if truthy_str (url <$> bookmark block) then
     hyperlink (BookmarkBlock block) (url <$> bookmark block)
   else BookmarkBlock block = Some (missing_notice "ブックマークURLが見つかりません"))
  /\ (if truthy_str (link_preview_url <$> link_preview block) then
        hyperlink (LinkPreviewBlock block) (link_preview_url <$> link_preview block)
      else LinkPreviewBlock block
           = Some (missing_notice "リンクプレビューURLが見つかりません"))
  /\ (if truthy_str (url <$> embed block) then
        of_result (prop_values "src") (EmbedBlock block)
        = [JsStr (address (url <$> embed block))]
        /\ of_result tags_of (EmbedBlock block)
           = "div" :: "iframe"
               :: match embed block ≫= link_caption with
                  | Some (_ :: _) => ["div"]
                  | _ => []
                  end
      else EmbedBlock block = Some (missing_notice "埋め込みURLが見つかりません"))
  /\ (if truthy_str (expression <$> equation block) then
        of_result texts (EquationBlock block) = [address (expression <$> equation block)]
      else EquationBlock block = Some (missing_notice "数式が見つかりません")).
Proof.
  cbv zeta. split_and!.
  - unfold BookmarkBlock. destruct (truthy_str (url <$> bookmark block)); [|done].
    cbn [negb of_result prop_values texts map concat app List.filter fst snd
         String.eqb Ascii.eqb Bool.eqb className].
    rewrite !caption_element_prop_values by done.
    by destruct (bookmark block ≫= link_caption) as [[|? ?]|].
  - unfold LinkPreviewBlock.
    by destruct (truthy_str (link_preview_url <$> link_preview block)).
  - unfold EmbedBlock. destruct (truthy_str (url <$> embed block)); [|done].
    cbn [negb of_result prop_values tags_of map concat app List.filter fst snd
         String.eqb Ascii.eqb Bool.eqb className].
    rewrite caption_element_prop_values by done.
    by destruct (embed block ≫= link_caption) as [[|? ?]|].
  - unfold EquationBlock. by destruct (truthy_str (expression <$> equation block)).
Qed.

Lemma join_empty_concat (l : list string) : join EmptyString l = String.concat EmptyString l.
Proof.
  induction l as [|s [|t l] IH]; [done|done|].
  change (join EmptyString (s :: t :: l)) with (s +:+ EmptyString +:+ join EmptyString (t :: l)).
  rewrite IH. done.
Qed.

(** X22.  [CodeBlock] shows the code as one text: the plain texts of the
    spans put end to end, without separator, whatever their annotations and
    links; it builds no [RichText] element.  The class of the [code]
    element is [language-] followed by the language of the block, or by
    [text] when the block has no code payload or an empty language. *)
Theorem CodeBlock_shows_the_plain_text (block : NotionBlockWithChildren) :
  let spans := default [] (code_rich_text <$> code block) in
  of_result texts (CodeBlock block) = [String.concat EmptyString (map plain_text spans)]
  /\ of_result rich_texts (CodeBlock block) = []
  /\ of_result tags_of (CodeBlock block) = ["pre"; "code"]
  /\ exists lang,
       of_result (prop_values "className") (CodeBlock block)
       = [JsStr "bg-gray-900 text-gray-100 p-4 rounded my-4 overflow-x-auto";
          JsStr ("language-" +:+ lang)]
       /\ is_empty lang = false
       /\ (truthy_str (language <$> code block) = false -> lang = "text")
       /\ (forall c, code block = Some c -> is_empty (language c) = false ->
                     lang = language c).
Proof.
  cbv zeta. unfold CodeBlock. split_and!.
  - simpl. by rewrite join_empty_concat.
  - done.
  - done.
  - exists (or_str (language <$> code block) "text"). split_and!.
    + done.
    + unfold or_str. destruct (language <$> code block) as [l|]; [|done].
      by destruct (is_empty l) eqn:Hl.
    + unfold truthy_str, or_str. destruct (language <$> code block) as [l|]; [|done].
      by destruct (is_empty l).
    + intros c -> Hl. simpl. by rewrite Hl.
Qed.

(** Only the first child of a table can be its header row. *)
Lemma TableBlock_rows_unfold (header : bool) (rows : list NotionBlockWithChildren) :
  concat (imap (fun i row => TableBlock_row (Nat.eqb i 0 && header) row) rows)
  = match rows with
    | [] => []
    | first :: rest => TableBlock_row header first ++ concat (map (TableBlock_row false) rest)
    end.
Proof.
  destruct rows as [|first rest]; [done|]. simpl. f_equal. f_equal.
  change (map (TableBlock_row false) rest) with (TableBlock_row false <$> rest).
  rewrite <- (imap_const (TableBlock_row false) rest). by apply imap_ext.
Qed.

Lemma imap_cells_tags (tag : string) (cells : list (list RichTextItem)) :
  forall (f : nat -> list RichTextItem -> Element),
    (forall j cell, tags_of (f j cell) = [tag]) ->
    concat (map tags_of (imap f cells)) = repeat tag (length cells).
Proof.
  induction cells as [|cell cells IH]; intros f Hf; simpl; [done|].
  rewrite Hf. simpl. f_equal. apply IH. intros j c. apply Hf.
Qed.

Lemma imap_cells_rich_texts (cells : list (list RichTextItem)) :
  forall (f : nat -> list RichTextItem -> Element),
    (forall j cell, rich_texts (f j cell) = [Some cell]) ->
    concat (map rich_texts (imap f cells)) = map Some cells.
Proof.
  induction cells as [|cell cells IH]; intros f Hf; simpl; [done|].
  rewrite Hf. simpl. f_equal. apply IH. intros j c. apply Hf.
Qed.

Lemma TableBlock_row_tags (header : bool) (row : NotionBlockWithChildren) :
  concat (map tags_of (TableBlock_row header row))
  = if String.eqb (type row) "table_row" then
      "tr" :: repeat (if header then "th" else "td")
                (length (default [] (cells <$> table_row row)))
    else [].
Proof.
  unfold TableBlock_row. destruct (String.eqb (type row) "table_row"); [|done].
  simpl. rewrite app_nil_r. f_equal. apply imap_cells_tags.
  intros j cell. simpl. done.
Qed.

Lemma TableBlock_row_rich_texts (header : bool) (row : NotionBlockWithChildren) :
  concat (map rich_texts (TableBlock_row header row))
  = if String.eqb (type row) "table_row" then
      map Some (default [] (cells <$> table_row row))
    else [].
Proof.
  unfold TableBlock_row. destruct (String.eqb (type row) "table_row"); [|done].
  simpl. rewrite app_nil_r. apply imap_cells_rich_texts. intros j cell. done.
Qed.

Lemma filter_repeat (p : string -> bool) (x : string) (n : nat) :
  List.filter p (repeat x n) = if p x then repeat x n else [].
Proof.
  induction n as [|n IH]; simpl; [by destruct (p x)|].
  rewrite IH. by destruct (p x).
Qed.

(** The rows after the first: no header cell. *)
Lemma TableBlock_rest (rest : list NotionBlockWithChildren) :
  let is_row row := String.eqb (type row) "table_row" in
  let row_cells row := default [] (cells <$> table_row row) in
  let tags := concat (map tags_of (concat (map (TableBlock_row false) rest))) in
  let count tag := length (List.filter (fun t => String.eqb t tag) tags) in
  count "tr" = length (List.filter is_row rest)
  /\ count "th" = 0%nat
  /\ count "td" = length (concat (map row_cells (List.filter is_row rest)))
  /\ concat (map rich_texts (concat (map (TableBlock_row false) rest)))
     = map Some (concat (map row_cells (List.filter is_row rest))).
Proof.
  cbv zeta. induction rest as [|row rest (IHtr & IHth & IHtd & IHrich)]; [done|].
  cbn [map concat List.filter].
  rewrite !map_app, !concat_app, !List.filter_app, !length_app.
  rewrite IHtr, IHth, IHtd, IHrich, TableBlock_row_tags, TableBlock_row_rich_texts.
  destruct (String.eqb (type row) "table_row"); [|done].
  cbn [List.filter String.eqb Ascii.eqb Bool.eqb map concat length].
  rewrite !filter_repeat. cbn [String.eqb Ascii.eqb Bool.eqb].
  rewrite map_app, length_app, repeat_length. done.
Qed.

(** X23.  [TableBlock] without [children] returns the notice of the missing
    table.  With children, it builds one row for each child of type
    [table_row], in the order of the children, and one cell for each cell
    of such a child, holding a [RichText] element on the cell; the other
    children are left out.  The cells of a row are header cells exactly
    when the table has a column header and the row is the first child of
    the block: when the first child is not a table row, no row is a header
    row. *)
Theorem TableBlock_builds_the_rows_and_the_header (block : NotionBlockWithChildren) :
  match children block with
  | None => TableBlock block = Some (missing_notice "テーブルデータが見つかりません")
  | Some rows =>
      let is_row row := String.eqb (type row) "table_row" in
      let row_cells row := default [] (cells <$> table_row row) in
      let header := default false (has_column_header <$> table block) in
      let count tag :=
        length (List.filter (fun t => String.eqb t tag)
                  (of_result tags_of (TableBlock block))) in
      count "tr" = length (List.filter is_row rows)
      /\ of_result rich_texts (TableBlock block)
         = map Some (concat (map row_cells (List.filter is_row rows)))
      /\ count "th"
         = match rows with
           | first :: _ =>
               if (header && is_row first)%bool then length (row_cells first) else 0%nat
           | [] => 0%nat
           end
      /\ (count "th" + count "td")%nat
         = length (concat (map row_cells (List.filter is_row rows)))
  end.
Proof.
  unfold TableBlock. destruct (children block) as [rows|]; [|done].
  cbv zeta.
  cbn [of_result tags_of rich_texts map concat app List.filter String.eqb Ascii.eqb
       Bool.eqb].
  rewrite !app_nil_r, TableBlock_rows_unfold.
  set (header := default false (has_column_header <$> table block)).
  destruct rows as [|first rest]; [done|].
  destruct (TableBlock_rest rest) as (Htr & Hth & Htd & Hrich).
  cbn [List.filter].
  rewrite !map_app, !concat_app, !List.filter_app, !length_app.
  rewrite Htr, Hth, Htd, Hrich, TableBlock_row_tags, TableBlock_row_rich_texts.
  destruct (String.eqb (type first) "table_row").
  - rewrite andb_true_r.
    cbn [List.filter String.eqb Ascii.eqb Bool.eqb map concat length].
    rewrite !filter_repeat, map_app, length_app.
    destruct header; cbn [String.eqb Ascii.eqb Bool.eqb length]; rewrite ?repeat_length;
      split_and!; lia || done.
  - rewrite andb_false_r. done.
Qed.

Lemma nested_children_rich_texts tag classes block :
  concat (map rich_texts (nested_children tag classes block)) = [].
Proof.
  unfold nested_children. destruct (children block) as [[|c cs]|]; [done| |done].
  simpl. rewrite app_nil_r. clear. induction cs as [|c' cs IH]; [done|]. done.
Qed.

(** Solves the goals of a table of labels: one case of [component_result]
    for each label, unfolded and computed. *)
Ltac by_label block :=
  repeat (constructor;
          [intros Heq;
           rewrite (component_result_known block _ Heq)
             by (unfold supported_types; set_solver);
           cbn [String.eqb Ascii.eqb Bool.eqb];
           cbv [ParagraphBlock Heading1Block Heading2Block Heading3Block
                BulletedListItemBlock NumberedListItemBlock ToDoBlock ToggleBlock
                QuoteBlock CalloutBlock CodeBlock DividerBlock LinkPreviewBlock
                EquationBlock missing_notice className];
           cbn [of_result rich_texts tags_of texts prop_values map concat app List.filter
                fst snd];
           rewrite ?nested_children_rich_texts; repeat case_match; done|]);
  try constructor.

(** X24.  A paragraph and the three headings are one host element, [p],
    [h1], [h2] or [h3] by the type of the block, around one [RichText]
    element, which is handed the rich text of the payload named after the
    type: a paragraph shows [block.paragraph], a heading of level 2
    [block.heading_2]; when that payload is missing, the element gets no
    rich text.  They build no text of their own. *)
Theorem paragraphs_and_headings_show_their_own_rich_text (block : NotionBlockWithChildren) :
  Forall (fun '(label, tag, payload) =>
            type block = label ->
            of_result tags_of (component_result block) = [tag]
            /\ of_result rich_texts (component_result block) = [rich_text <$> payload block]
            /\ of_result texts (component_result block) = [])
    [("paragraph", "p", paragraph);
     ("heading_1", "h1", heading_1);
     ("heading_2", "h2", heading_2);
     ("heading_3", "h3", heading_3)].
Proof. by_label block. Qed.

(** X25.  The other components that carry text hand the rich text of the
    payload named after the type of the block to one [RichText] element and
    build no other: list items, to-dos, toggles, quotes and callouts.  The
    check box of a to-do is read-only, and checked as the payload says; it
    has no [checked] value when the payload is missing. *)
Theorem text_components_show_the_rich_text_of_their_own_payload
    (block : NotionBlockWithChildren) :
  Forall (fun '(label, payload) =>
            type block = label ->
            of_result rich_texts (component_result block) = [payload block])
    [("bulleted_list_item", fun b => rich_text <$> bulleted_list_item b);
     ("numbered_list_item", fun b => rich_text <$> numbered_list_item b);
     ("to_do", fun b => to_do_rich_text <$> to_do b);
     ("toggle", fun b => rich_text <$> toggle b);
     ("quote", fun b => rich_text <$> quote b);
     ("callout", fun b => callout_rich_text <$> callout b)]
  /\ of_result (prop_values "checked") (ToDoBlock block)
     = [match to_do block with
        | Some t => JsBool (checked t)
        | None => JsUndefined
        end]
  /\ of_result (prop_values "readOnly") (ToDoBlock block) = [JsBool true]
  /\ of_result (prop_values "type") (ToDoBlock block) = [JsStr "checkbox"].
Proof. split_and!; [by_label block|done|done|done]. Qed.

Lemma column_list_rich_texts (columns : list NotionBlockWithChildren) :
  concat (map rich_texts
            (map (fun column =>
                    EElem "div" (Some (id column)) [className "px-2 flex-1 min-w-[250px]"]
                      (child_elements (default [] (children column)))) columns))
  = [].
Proof.
  induction columns as [|column columns IH]; [done|].
  cbn [map concat]. rewrite IH, app_nil_r. cbn [rich_texts]. unfold child_elements.
  induction (default [] (children column)) as [|c cs IHc]; [done|]. done.
Qed.

(** X26.  The components of a divider, a code block, a column list, a link
    preview, an equation and a block of unknown type build no [RichText]
    element.  A divider is one [hr] without text and without children,
    whatever the block holds. *)
Theorem other_components_build_no_rich_text (block : NotionBlockWithChildren) :
  Forall (fun label =>
            type block = label ->
            of_result rich_texts (component_result block) = [])
    ["divider"; "code"; "link_preview"; "equation"]
  /\ (type block = "column_list" ->
      of_result rich_texts (component_result block) = [])
  /\ (type block ∉ supported_types ->
      of_result rich_texts (component_result block) = [])
  /\ (type block = "divider" ->
      of_result tags_of (component_result block) = ["hr"]
      /\ of_result texts (component_result block) = []
      /\ of_result nested_blocks (component_result block) = []).
Proof.
  split_and!.
  - by_label block.
  - intros Heq.
    rewrite (component_result_known block _ Heq) by (unfold supported_types; set_solver).
    cbn [String.eqb Ascii.eqb Bool.eqb]. unfold ColumnListBlock.
    destruct (children block) as [columns|]; [|done].
    cbn [of_result rich_texts]. apply column_list_rich_texts.
  - intros Hnot. by rewrite (component_result_unknown block Hnot).
  - intros Heq.
    rewrite (component_result_known block _ Heq) by (unfold supported_types; set_solver).
    done.
Qed.
End ComponentProofs.

(** * Further properties of [groupBlocks] *)

Section ContainerKeys.

Lemma string_of_nat_inj (n m : nat) : string_of_nat n = string_of_nat m -> n = m.
Proof.
  unfold string_of_nat. intros Heq. apply DecimalNat.Unsigned.to_uint_inj.
  apply (f_equal NilEmpty.uint_of_string) in Heq.
  rewrite !NilEmpty.usu in Heq. by injection Heq.
Qed.

Lemma string_of_nat_not_last (n : nat) : string_of_nat n <> "last".
Proof.
  unfold string_of_nat. intros Heq.
  apply (f_equal NilEmpty.uint_of_string) in Heq.
  rewrite NilEmpty.usu in Heq. done.
Qed.

Lemma container_keys_snoc units unit :
  container_keys (units ++ [unit])
  = container_keys units ++ match unit with
                            | RElem _ (Some key) _ _ => [key]
                            | _ => []
                            end.
Proof. unfold container_keys. by rewrite map_app, concat_app; simpl; rewrite app_nil_r. Qed.

(** What holds of the keys of the units before the block at [index]: they
    are [list-i] for distinct [i] between 1 and [index - 1], and no list is
    open before the first block. *)
Lemma groupStep_keys st block index (indexes : list nat) :
  container_keys (groupedBlocks st)
  = map (fun i => "list-" +:+ string_of_nat i) indexes ->
  Forall (fun i => 0 < i < index)%nat indexes ->
  NoDup indexes ->
  (index = 0%nat -> currentListItems st = []) ->
  exists indexes',
    container_keys (groupedBlocks (groupStep st block index))
    = map (fun i => "list-" +:+ string_of_nat i) indexes'
    /\ Forall (fun i => 0 < i < S index)%nat indexes'
    /\ NoDup indexes'.
Proof.
  intros Hkeys Hbound Hnodup Hstart.
  assert (Hweak : Forall (fun i => 0 < i < S index)%nat indexes).
  { eapply Forall_impl; [exact Hbound|]. simpl. lia. }
  assert (Hpos : currentListItems st <> [] -> (0 < index)%nat).
  { intros Hne. destruct index; [by specialize (Hstart eq_refl)|lia]. }
  assert (Hflush : forall t items,
             (0 < index)%nat ->
             exists indexes',
               container_keys
                 (groupedBlocks st
                  ++ [list_element t ("list-" +:+ string_of_nat index) items])
               = map (fun i => "list-" +:+ string_of_nat i) indexes'
               /\ Forall (fun i => 0 < i < S index)%nat indexes'
               /\ NoDup indexes').
  { intros t items Hlt. exists (indexes ++ [index]).
    rewrite container_keys_snoc, Hkeys, map_app. split; [done|]. split.
    - apply Forall_app. split; [done|]. constructor; [lia|done].
    - apply NoDup_app. split_and!; [done| |apply NoDup_singleton].
      intros i Hi ->%list_elem_of_singleton.
      rewrite Forall_forall in Hbound. specialize (Hbound _ Hi). lia. }
  unfold groupStep. destruct (is_list_item block).
  - destruct (negb (same_list_type (currentListType st) _)); simpl.
    + destruct (currentListItems st) as [|item items] eqn:Hitems; simpl.
      * by exists indexes.
      * apply Hflush. by apply Hpos.
    + by exists indexes.
  - destruct (currentListItems st) as [|item items] eqn:Hitems; simpl.
    + exists indexes. by rewrite container_keys_snoc, app_nil_r.
    + rewrite container_keys_snoc, app_nil_r. apply Hflush. by apply Hpos.
Qed.

Lemma forEach_group_keys blocks : forall st index (indexes : list nat),
  container_keys (groupedBlocks st)
  = map (fun i => "list-" +:+ string_of_nat i) indexes ->
  Forall (fun i => 0 < i < index)%nat indexes ->
  NoDup indexes ->
  (index = 0%nat -> currentListItems st = []) ->
  exists indexes',
    container_keys (groupedBlocks (forEach_group blocks index st))
    = map (fun i => "list-" +:+ string_of_nat i) indexes'
    /\ Forall (fun i => 0 < i < index + length blocks)%nat indexes'
    /\ NoDup indexes'.
Proof.
  induction blocks as [|block rest IH]; intros st index indexes Hkeys Hbound Hnodup Hstart.
  - exists indexes. simpl. rewrite Nat.add_0_r. done.
  - simpl.
    destruct (groupStep_keys st block index indexes Hkeys Hbound Hnodup Hstart)
      as (indexes1 & Hkeys1 & Hbound1 & Hnodup1).
    destruct (IH _ (S index) indexes1 Hkeys1 Hbound1 Hnodup1) as (indexes' & ? & Hb & ?);
      [done|].
    exists indexes'. split_and!; [done| |done].
    eapply Forall_impl; [exact Hb|]. simpl. lia.
Qed.

(** X27.  The keys [groupBlocks] gives the list containers are pairwise
    distinct: a container closed by the block at position [i] of the input
    has the key [list-i], with [i] at least 1 and less than the number of
    blocks, and no two containers are closed by the same block; the
    container of a run that ends the input has the key [list-last].  The
    notice of the empty input has the key [empty]. *)
Theorem groupBlocks_gives_the_containers_distinct_keys (blocks : list Block) :
  NoDup (container_keys (groupBlocks blocks))
  /\ match blocks with
     | [] => container_keys (groupBlocks blocks) = ["empty"]
     | _ :: _ =>
         exists indexes tail,
           container_keys (groupBlocks blocks)
           = map (fun i => "list-" +:+ string_of_nat i) indexes ++ tail
           /\ Forall (fun i => 0 < i < length blocks)%nat indexes
           /\ (tail = [] \/ tail = ["list-last"])
     end.
Proof.
  destruct blocks as [|block rest].
  { split; [|done]. apply NoDup_singleton. }
  destruct (forEach_group_keys (block :: rest) (mkGroupState [] [] None) 0 [])
    as (indexes & Hkeys & Hbound & Hnodup); [done|constructor|constructor|done|].
  assert (Hinj : NoDup (map (fun i => "list-" +:+ string_of_nat i) indexes)).
  { assert (Inj (=) (=) (fun i : nat => "list-" +:+ string_of_nat i)).
    { intros i j Hij. simpl in Hij. injection Hij as Hij. by apply string_of_nat_inj. }
    by apply (NoDup_fmap_2 (fun i : nat => "list-" +:+ string_of_nat i)). }
  unfold groupBlocks.
  destruct (currentListItems (forEach_group (block :: rest) 0 (mkGroupState [] [] None)))
    as [|item items].
  - rewrite Hkeys. split; [done|]. exists indexes, []. by rewrite app_nil_r; split_and!; [| |left].
  - rewrite container_keys_snoc, Hkeys. simpl. split.
    + apply NoDup_app. split_and!; [done| |apply NoDup_singleton].
      intros key Hkey ->%list_elem_of_singleton.
      apply list_elem_of_fmap in Hkey as (i & Hi & _).
      injection Hi as Hi. by apply (string_of_nat_not_last i).
    + exists indexes, ["list-last"]. by split_and!; [| |right].
Qed.

End ContainerKeys.

(** * Further properties of the style classes and of the listing *)

(** X29.  The class string of a span is empty exactly for a plain span: one
    whose color is missing, empty or [default] and whose type is not
    [code].  A span without link then carries no [className] at all, and
    any other span without link carries that class string. *)
Theorem getStyleClasses_is_empty_only_for_plain_spans (a : Annotations) (type : string)
    (styleClass : string) :
  getStyleClasses a type = Ok styleClass ->
  (is_empty styleClass = true
   <-> (truthy (color a) = false \/ is_default (color a) = true)
       /\ String.eqb type "code" = false)
  /\ (forall text index node,
        annotations text = Some a -> type_ text = type ->
        truthy_str (href text) = false ->
        RichText_item text index = Ok node ->
        exists content,
          node = RElem "span" (Some (string_of_nat index))
                   (if is_empty styleClass then [] else [("className", styleClass)])
                   [content]).
Proof.
  intros Hcls. split.
  - revert Hcls. unfold getStyleClasses, mbind, outcome_bind.
    destruct (truthy (color a) && negb (is_default (color a)))%bool eqn:Hstyled.
    + apply andb_true_iff in Hstyled as [Htruthy Hdefault].
      apply negb_true_iff in Hdefault.
      destruct (color a) as [| |b|n|c]; try done.
      destruct (includes c "_background"), (String.eqb type "code"); intros [= <-];
        (split; [intros Hempty; simpl in Hempty; discriminate Hempty|]);
        intros [[?|?] _]; congruence.
    + assert (Hplain : truthy (color a) = false \/ is_default (color a) = true).
      { apply andb_false_iff in Hstyled as [?|Hd]; [by left|right].
        by apply negb_false_iff in Hd. }
      destruct (String.eqb type "code"); intros [= <-]; simpl.
      * split; [done|]. by intros [_ ?].
      * by split.
  - intros text index node Ha Htype Hhref. unfold RichText_item. rewrite Ha, Htype, Hcls.
    unfold mbind, outcome_bind.
    destruct (href text) as [url|]; simpl in Hhref.
    + destruct (is_empty url); [|done]. simpl. intros [= <-]. by eexists.
    + intros [= <-]. by eexists.
Qed.

Lemma getStyleClasses_is_empty_only_for_plain_spans_witness :
  exists content,
    RichText_item (sample_span "plain") 3 = Ok (RElem "span" (Some "3") [] [content]).
Proof.
  destruct (getStyleClasses_is_empty_only_for_plain_spans plain_annotations "text" EmptyString
              eq_refl) as [_ Hspan].
  eassert (Hnode : RichText_item (sample_span "plain") 3 = Ok _)
    by (vm_compute; reflexivity).
  destruct (Hspan (sample_span "plain") 3%nat _ eq_refl eq_refl eq_refl Hnode)
    as [content Hcontent].
  exists content. rewrite Hnode. f_equal. exact Hcontent.
Defined.

Section ListingFailures.
Context {X : Type} `{Platform X}.

Lemma formatPages_throws_RangeError (x : X) pages e :
  formatPages x pages = Throw e -> e = RangeError "Invalid time value".
Proof.
  intros Hthrow. pose proof (formatPages_pointwise x pages 0%nat) as Hp.
  unfold formatPages in Hthrow. rewrite Hthrow in Hp.
  destruct Hp as (before & page & after & _ & _ & Hpage).
  unfold formatPage in Hpage.
  destruct (iso_of_date _); [|by injection Hpage].
  destruct (iso_of_date _); [done|by injection Hpage].
Qed.

(** X30.  What [getFormattedDatabase] does when it has to fetch: one query
    of the database named in the environment, by descending date, with the
    status filter exactly when [filterByStatus] is set.  When the pages can
    be shaped, the listing is returned and stored under the key of the two
    parameters.  When the query fails, the error names the identifier the
    module read when it was loaded, for the markers [404] and [401] or
    [403], and keeps the message of the failure otherwise ([429] has no
    message of its own here); when a page cannot be shaped, the error is
    the general one around [Invalid time value].  After an error nothing is
    stored. *)
Theorem getFormattedDatabase_queries_once_and_reports_failures (filterByStatus : bool)
    (status database_id : string) (w : World X) :
  let key := "formatted-database:" +:+ string_of_bool filterByStatus +:+ ":" +:+ status in
  let options :=
    mkQueryOptions database_id [("date", descending)]
      (if filterByStatus then Some (SelectEquals "status" status) else None) in
  let failed x' := after_calls w x' [DatabasesQuery options] in
  let now := Date_now (ext w) in
  env_NOTION_DATABASE_ID w = Some database_id -> is_empty database_id = false ->
  cache w !! key = None ->
  (forall response x' pages,
      databases_query options (ext w) = (Ok response, x') ->
      formatPages x' (query_results response) = Ok pages ->
      getFormattedDatabase filterByStatus status w
      = Done (Ok (VPages pages))
          (set_cache (<[key := mkCacheItem (VPages pages) now (now + 300000)]> (cache w))
             (failed x')))
  /\ (forall response x' e,
        databases_query options (ext w) = (Ok response, x') ->
        formatPages x' (query_results response) = Throw e ->
        getFormattedDatabase filterByStatus status w
        = Done (Throw (Error "データベースの取得・整形に失敗しました: Invalid time value"))
            (failed x'))
  /\ (forall err x',
        databases_query options (ext w) = (Throw err, x') ->
        let has marker := includes (message err) marker in
        exists msg,
          getFormattedDatabase filterByStatus status w
          = Done (Throw (Error msg)) (failed x')
          /\ (has "404" = true ->
              msg = "データベースが見つかりません (ID: "
                      +:+ template_opt NOTION_DATABASE_ID +:+ ")")
          /\ (has "404" = false -> has "401" = true \/ has "403" = true ->
              msg = "データベースへのアクセス権限がありません (ID: "
                      +:+ template_opt NOTION_DATABASE_ID +:+ ")")
          /\ (has "404" = false -> has "401" = false -> has "403" = false ->
              msg = "データベースの取得・整形に失敗しました: " +:+ message err)).
Proof.
  intros key options failed now Henv He Hk.
  assert (Hstart : getFormattedDatabase filterByStatus status w
                   = fetch_fresh key (fetchFormattedDatabase filterByStatus status)
                       DEFAULT_CACHE_CONFIG now None w).
  { unfold getFormattedDatabase. unfold mbind at 1. unfold M_bind.
    rewrite (require_database_id_set _ _ Henv He).
    by rewrite (getFromCacheOrFetch_miss _ _ _ _ Hk). }
  assert (Hquery : forall o x',
             databases_query options (ext w) = (o, x') ->
             fetchFormattedDatabase filterByStatus status w
             = match o with
               | Ok response =>
                   match formatPages x' (query_results response) with
                   | Ok pages => Done (Ok (VPages pages)) (failed x')
                   | Throw e =>
                       Done (Throw (Error
                               (if includes (message e) "404" then
                                  "データベースが見つかりません (ID: "
                                    +:+ template_opt NOTION_DATABASE_ID +:+ ")"
                                else if (includes (message e) "401"
                                         || includes (message e) "403")%bool then
                                  "データベースへのアクセス権限がありません (ID: "
                                    +:+ template_opt NOTION_DATABASE_ID +:+ ")"
                                else "データベースの取得・整形に失敗しました: " +:+ message e)))
                         (failed x')
                   end
               | Throw e =>
                   Done (Throw (Error
                           (if includes (message e) "404" then
                              "データベースが見つかりません (ID: "
                                +:+ template_opt NOTION_DATABASE_ID +:+ ")"
                            else if (includes (message e) "401"
                                     || includes (message e) "403")%bool then
                              "データベースへのアクセス権限がありません (ID: "
                                +:+ template_opt NOTION_DATABASE_ID +:+ ")"
                            else "データベースの取得・整形に失敗しました: " +:+ message e)))
                     (failed x')
               end).
  { intros o x' Hq. unfold fetchFormattedDatabase, try_catch, mbind, M_bind.
    rewrite (require_database_id_set _ _ Henv He).
    unfold notion_databases_query, log_call, date_descending. fold options. rewrite Hq.
    destruct o as [response|e]; [|done].
    unfold await_formatPages, lift_outcome. simpl.
    by destruct (formatPages x' (query_results response)). }
  split_and!.
  - intros response x' pages Hq Hpages. rewrite Hstart.
    eapply eq_trans; [apply (fetch_fresh_ok _ _ _ _ _ w (VPages pages) (failed x'))|done].
    rewrite (Hquery _ _ Hq). by rewrite Hpages.
  - intros response x' e Hq Hthrow. rewrite Hstart.
    eapply eq_trans;
      [apply (fetch_fresh_throw _ _ _ _ _ w
                (Error "データベースの取得・整形に失敗しました: Invalid time value")
                (failed x'))|done].
    rewrite (Hquery _ _ Hq), Hthrow. by rewrite (formatPages_throws_RangeError _ _ _ Hthrow).
  - intros err x' Hq has. eexists. split.
    { rewrite Hstart. eapply eq_trans; [apply fetch_fresh_throw|reflexivity].
      by rewrite (Hquery _ _ Hq). }
    subst has. simpl. split_and!.
    + by intros ->.
    + intros -> [->| ->]; [done|]. by rewrite orb_true_r.
    + by intros -> -> ->.
Qed.
End ListingFailures.

Lemma getFormattedDatabase_queries_once_and_reports_failures_witness :
  let w := sample_world ∅ (Some "db") 0 [] false in
  getFormattedDatabase true "Public" w
  = Done (Throw (Error "データベースの取得・整形に失敗しました: 503 Service Unavailable"))
      (after_calls w (ext w)
         [DatabasesQuery
            (mkQueryOptions "db" [("date", descending)]
               (Some (SelectEquals "status" "Public")))]).
Proof.
  intros w.
  assert (Hquery : databases_query
                     (mkQueryOptions "db" [("date", descending)]
                        (Some (SelectEquals "status" "Public"))) (ext w)
                   = (Throw (Error "503 Service Unavailable"), ext w))
    by (vm_compute; reflexivity).
  destruct (getFormattedDatabase_queries_once_and_reports_failures true "Public" "db" w
              eq_refl eq_refl eq_refl) as (_ & _ & Hfail).
  destruct (Hfail _ _ Hquery) as (msg & Hrun & _ & _ & Hmsg).
  rewrite Hrun. rewrite (Hmsg eq_refl eq_refl eq_refl). reflexivity.
Defined.

(** * The further properties on sample inputs *)


Lemma getPage_classifies_the_remote_error_witness :
  let w := sample_world ∅ None 0 [] true in
  getPage "missing" w
  = Done (Throw (Error "ページが見つかりません (ID: missing)"))
      (after_calls w (ext w) [PagesRetrieve "missing"]).
Proof.
  intros w.
  assert (Hremote : pages_retrieve "missing" (ext w) = (Throw (Error "404 Not Found"), ext w))
    by (vm_compute; reflexivity).
  destruct (getPage_classifies_the_remote_error "missing" w (Error "404 Not Found") (ext w)
              eq_refl Hremote) as (msg & Hrun & H404 & _).
  rewrite Hrun. rewrite (H404 eq_refl). reflexivity.
Defined.

Lemma getFormattedPage_wraps_the_error_of_getPage_witness :
  let w := sample_world ∅ None 0 [] true in
  getFormattedPage 0 "missing" true w
  = Done (Throw (Error "ページの整形に失敗しました: ページが見つかりません (ID: missing)"))
      (after_calls w (ext w) [PagesRetrieve "missing"]).
Proof.
  intros w.
  assert (Hpage : getPage "missing" w
                  = Done (Throw (Error "ページが見つかりません (ID: missing)"))
                      (after_calls w (ext w) [PagesRetrieve "missing"]))
    by (vm_compute; reflexivity).
  exact (getFormattedPage_wraps_the_error_of_getPage 0 "missing" true w
           (after_calls w (ext w) [PagesRetrieve "missing"])
           (Error "ページが見つかりません (ID: missing)") eq_refl Hpage).
Defined.

Lemma getFormattedPage_without_blocks_witness :
  let w := sample_world ∅ None 0 [sample_page "p1" "Alpha"] true in
  exists p w',
    getFormattedPage 0 "p1" false w = Done (Ok (VFormattedPage p)) w'
    /\ blocks p = []
    /\ calls w' = [PagesRetrieve "p1"].
Proof.
  intros w.
  eassert (Hrun : getFormattedPage 0 "p1" false w = Done (Ok _) _)
    by (vm_compute; reflexivity).
  destruct (getFormattedPage_without_blocks 0 "p1" w _ _ eq_refl Hrun)
    as (p & Hv & Hblocks & _).
  eexists p, _. split; [rewrite Hrun, Hv; reflexivity|]. split; [exact Hblocks|reflexivity].
Defined.

Lemma getPageBySlug_without_match_resolves_to_null_witness :
  let w := sample_world ∅ (Some "db") 0 [] true in
  exists w',
    getPageBySlug 0 "nothing" w = Done (Ok VNull) w'
    /\ calls w'
       = [DatabasesQuery (mkQueryOptions "db" [] (Some (RichTextEquals "slug" "nothing")))].
Proof.
  intros w.
  assert (Hquery : databases_query
                     (mkQueryOptions "db" [] (Some (RichTextEquals "slug" "nothing"))) (ext w)
                   = (Ok (mkDatabaseQueryResponse [] false None), ext w))
    by (vm_compute; reflexivity).
  eexists. split.
  - exact (getPageBySlug_without_match_resolves_to_null 0 "nothing" "db" w
             (mkDatabaseQueryResponse [] false None) (ext w)
             eq_refl eq_refl eq_refl Hquery eq_refl).
  - reflexivity.
Defined.

Lemma operations_on_the_database_need_its_identifier_witness :
  getPageBySlug 1 "alpha" unconfigured_world = Done (Throw configuration_error) unconfigured_world
  /\ getPagesByTag "notion" unconfigured_world
     = Done (Throw configuration_error) unconfigured_world
  /\ getPagesByCategory "dev" unconfigured_world
     = Done (Throw configuration_error) unconfigured_world.
Proof.
  exact (operations_on_the_database_need_its_identifier 1 "alpha" "notion" "dev"
           unconfigured_world eq_refl).
Defined.

Lemma configuration_error_is_wrapped_by_the_callers_witness :
  getAllTags unconfigured_world
  = Done (Throw (Error ("すべてのタグの取得に失敗しました: "
                         +:+ "NOTION_DATABASE_IDが設定されていません"))) unconfigured_world
  /\ getAllCategories unconfigured_world
     = Done (Throw (Error ("すべてのカテゴリの取得に失敗しました: "
                            +:+ "NOTION_DATABASE_IDが設定されていません"))) unconfigured_world.
Proof.
  destruct (configuration_error_is_wrapped_by_the_callers unconfigured_world eq_refl)
    as (Htags & Hcategories & _).
  split; [exact (Htags eq_refl)|exact (Hcategories eq_refl)].
Defined.



Lemma searchPages_ignores_the_case_of_the_query_witness :
  searchPages "ALPHA" search_world_before = searchPages "alpha" search_world_before.
Proof.
  exact (searchPages_ignores_the_case_of_the_query "ALPHA" "alpha" search_world_before
           eq_refl).
Defined.

Lemma formatPage_fills_the_gaps_witness :
  exists p,
    formatPage (mkSampleState 0 [] true) (empty_page "p9") None = Ok p
    /\ title p = "無題" /\ slug p = "p9" /\ updatedAt p = date p /\ thumbnail p = None.
Proof.
  eassert (Hp : formatPage (mkSampleState 0 [] true) (empty_page "p9") None = Ok _)
    by (vm_compute; reflexivity).
  destruct (formatPage_fills_the_gaps _ _ _ _ Hp) as (_ & _ & Htitle & Hslug & _ & Hupd & Hthumb).
  eexists. split; [exact Hp|]. split; [exact (Htitle eq_refl)|].
  split; [exact (Hslug eq_refl)|]. split; [exact (Hupd eq_refl eq_refl)|].
  apply Hthumb. split; reflexivity.
Defined.


Lemma getBlocks_attaches_the_children_witness :
  exists w',
    getBlocks 3 "root" tree_world
    = Done (Ok (VBlocks [paragraph "a" "first";
                         set_children sample_toggle [paragraph "t1" "inside"];
                         paragraph "c" "last"])) w'
    /\ calls w' = [BlocksChildrenList "root" None 100; BlocksChildrenList "t" None 100].
Proof.
  destruct (getBlocks_attaches_the_children 1 "root" tree_world
              [mkListResponse [paragraph "a" "first"; sample_toggle; paragraph "c" "last"]
                 false None]
              [mkListResponse [paragraph "t1" "inside"] false None]
              (mkTreeState 0) (mkTreeState 0)
              [paragraph "a" "first"] [paragraph "c" "last"] sample_toggle)
    as (w' & Hrun & Hcalls & _).
  - by apply serves_last.
  - by apply serves_last.
  - simpl. lia.
  - simpl. lia.
  - reflexivity.
  - reflexivity.
  - repeat constructor.
  - repeat constructor.
  - intros item Hk. vm_compute in Hk. discriminate.
  - intros item Hk. vm_compute in Hk. discriminate.
  - exists w'. split; [exact Hrun|exact Hcalls].
Defined.
